(** * The chain indexer plugin of go-ethereum (core/plugin.go, core/db.go)

    A shallow embedding of the indexer plugin and of its storage gateway.
    The Go code talks to PostgreSQL through sqlx and lib/pq; the store is
    modelled here by the tables of [CreateTablesSQL], their primary-key,
    unique and foreign-key constraints, and transactions that carry a
    row-level write set.  Go functions that can fault (nil dereference,
    index out of range) run in the small monad [Go]. *)

From Stdlib Require Import ZArith String List Bool Lia Ascii DecimalString.
From Stdlib.Strings Require Import Byte.
Import ListNotations.
Open Scope string_scope.
Open Scope Z_scope.

Set Implicit Arguments.

(** ** Values of the Go side *)

(** [common.Hash] and [common.Address] are carried by their hex text, so
    that [Hex()] and [String()] are the identity on the model. *)
Definition Hash := string.
Definition Address := string.

Module sql.
(** [sql.NullString]: a string together with a flag saying whether the
    column is non-NULL. *)
Record NullString := mkNullString { String_ : string; Valid : bool }.
End sql.

Definition uint64_max : Z := 2 ^ 64.

(** [Uint64] of [big.Int]: the low 64 bits of the absolute value. *)
Definition Uint64 (x : Z) : Z := Z.abs x mod uint64_max.

(** [int64(x)] for a [uint64] value [x]. *)
Definition int64_of_uint64 (x : Z) : Z :=
  if x <? 2 ^ 63 then x else x - uint64_max.

(** Decimal text of an integer: [fmt.Sprintf("%d", x)] and
    [String] of a non-nil [big.Int]. *)
Definition decimal (x : Z) : string := NilZero.string_of_int (Z.to_int x).

(** [String] of [big.Int]: nil receivers print as ["<nil>"]. *)
Definition BigInt_String (x : option Z) : string :=
  match x with
  | Some v => decimal v
  | None => "<nil>"
  end.

Definition hex_digit (n : N) : ascii :=
  match n with
  | 0%N => "0" | 1%N => "1" | 2%N => "2" | 3%N => "3"
  | 4%N => "4" | 5%N => "5" | 6%N => "6" | 7%N => "7"
  | 8%N => "8" | 9%N => "9" | 10%N => "a" | 11%N => "b"
  | 12%N => "c" | 13%N => "d" | 14%N => "e" | _ => "f"
  end%char.

Fixpoint hex_of_bytes (bs : list byte) : string :=
  match bs with
  | [] => EmptyString
  | b :: rest =>
      let n := Byte.to_N b in
      String (hex_digit (N.div n 16))
        (String (hex_digit (N.modulo n 16)) (hex_of_bytes rest))
  end.

(** [fmt.Sprintf("0x%x", bs)] and [hexutil.Encode(bs)]. *)
Definition hex0x (bs : list byte) : string := "0x" ++ hex_of_bytes bs.

(** [fmt.Sprintf("%d", a)] for a byte array: ["[1 2 3]"]. *)
Fixpoint spaced_decimals (bs : list byte) : string :=
  match bs with
  | [] => EmptyString
  | [b] => decimal (Z.of_N (Byte.to_N b))
  | b :: rest => decimal (Z.of_N (Byte.to_N b)) ++ " " ++ spaced_decimals rest
  end.

Definition sprintf_d_bytes (bs : list byte) : string :=
  "[" ++ spaced_decimals bs ++ "]".

(** ** Chain objects handed over by the node *)

Module GethLog.
(** [types.Log], the fields the indexer reads. *)
Record t := mk {
  Address : Address;
  Topics : list Hash;
  Data : list byte;
  Index : Z
}.
End GethLog.

Module GethReceipt.
(** [types.Receipt], the fields the indexer reads. *)
Record t := mk {
  TxHash : Hash;
  ContractAddress : Address;
  GasUsed : Z;
  Status : Z;
  Logs : list GethLog.t
}.
End GethReceipt.

(** [types.Receipts] is a slice: [None] is the nil slice. *)
Definition Receipts := option (list GethReceipt.t).

Definition range_of (rs : Receipts) : list GethReceipt.t :=
  match rs with
  | Some l => l
  | None => []
  end.

Module Header.
(** [types.Header].  Pointer fields that a block version may lack are
    options; [hash] is the value of [Hash()], the Keccak hash of the
    encoded header, which the model takes as given. *)
Record t := mk {
  ParentHash : Hash;
  UncleHash : Hash;
  Coinbase : Address;
  Root : Hash;
  TxHash : Hash;
  ReceiptHash : Hash;
  Bloom : list byte;
  Difficulty : option Z;
  Number : Z;
  GasLimit : Z;
  GasUsed : Z;
  Time : Z;
  Extra : list byte;
  MixDigest : Hash;
  Nonce : list byte;
  BaseFee : option Z;
  WithdrawalsHash : option Hash;
  BlobGasUsed : option Z;
  ExcessBlobGas : option Z;
  ParentBeaconRoot : option Hash;
  hash : Hash
}.
End Header.

(** ** Rows of the relational schema (core/db.go) *)

Module Block.
Record t := mk {
  Number : Z;
  Hash : string;
  ParentHash : string;
  Timestamp : Z;
  Nonce : string;
  BaseFeePerGas : sql.NullString;
  BlobGasUsed : sql.NullString;
  Difficulty : string;
  ExcessBlobGas : sql.NullString;
  ExtraData : string;
  GasLimit : string;
  GasUsed : string;
  LogsBloom : sql.NullString;
  Miner : string;
  MixHash : string;
  ParentBeaconBlockRoot : sql.NullString;
  ReceiptsRoot : string;
  Sha3Uncles : string;
  Size : string;
  StateRoot : string;
  TotalDifficulty : sql.NullString;
  TransactionsRoot : string;
  WithdrawalsRoot : sql.NullString;
  SealFields : list string;
  Transactions : list string;
  Uncles : list string;
  BlockReward : string;
  UncleReward : string
}.
End Block.

Module Transaction.
Record t := mk {
  Hash : string;
  BlockNumber : Z;
  From : string;
  To : sql.NullString;
  Value : string;
  Nonce : Z;
  GasPrice : string;
  GasLimit : Z;
  GasUsed : Z;
  Input : string;
  Status : Z;
  Type_ : Z;
  MaxFeePerGas : sql.NullString;
  MaxPriorityFee : sql.NullString;
  BlobGasUsed : sql.NullString;
  BlobGasPrice : sql.NullString;
  Error : sql.NullString
}.
End Transaction.

Module Log.
Record t := mk {
  ID : Z;
  TransactionHash : string;
  BlockNumber : Z;
  Address : string;
  Topics : list string;
  Data : string;
  LogIndex : Z;
  Removed : bool
}.
End Log.

Module StateChange.
Record t := mk {
  ID : Z;
  BlockNumber : Z;
  TransactionHash : string;
  Address : string;
  StorageKey : sql.NullString;
  PrevValue : string;
  NewValue : string;
  ChangeType : string
}.
End StateChange.

Module AccessList.
Record t := mk {
  ID : Z;
  TransactionHash : string;
  Address : string;
  StorageKey : string
}.
End AccessList.

Module Account.
Record t := mk {
  Address : string;
  Balance : string;
  Nonce : Z;
  Code : sql.NullString;
  CreatorAddress : sql.NullString;
  CreatorTxHash : sql.NullString;
  CreatedAt : option Z
}.
End Account.

Module Receipt.
Record t := mk {
  ID : Z;
  BlockNumber : Z;
  BlockHash : string;
  TransactionHash : string;
  TransactionIndex : Z;
  ContractAddress : string;
  GasUsed : Z;
  Status : Z
}.
End Receipt.

(** A row of [blocks]: the inserted columns and the [finalized] column
    ([DEFAULT false]) that [MarkBlockFinalized] adds and sets. *)
Record BlockRow := mkBlockRow { row : Block.t; finalized : bool }.

(** ** Decidable equality of rows *)

Ltac eq_dec_tac :=
  repeat decide equality;
  auto using string_dec, Z.eq_dec, Bool.bool_dec, list_eq_dec, ascii_dec.

Definition NullString_eq_dec (a b : sql.NullString) : {a = b} + {a <> b}.
Proof. eq_dec_tac. Defined.

Definition Block_eq_dec (a b : Block.t) : {a = b} + {a <> b}.
Proof. eq_dec_tac. Defined.

Definition BlockRow_eq_dec (a b : BlockRow) : {a = b} + {a <> b}.
Proof. decide equality; auto using Bool.bool_dec, Block_eq_dec. Defined.

Definition Transaction_eq_dec (a b : Transaction.t) : {a = b} + {a <> b}.
Proof. eq_dec_tac. Defined.

Definition Log_eq_dec (a b : Log.t) : {a = b} + {a <> b}.
Proof. eq_dec_tac. Defined.

Definition StateChange_eq_dec (a b : StateChange.t) : {a = b} + {a <> b}.
Proof. eq_dec_tac. Defined.

Definition AccessList_eq_dec (a b : AccessList.t) : {a = b} + {a <> b}.
Proof. eq_dec_tac. Defined.

Definition Account_eq_dec (a b : Account.t) : {a = b} + {a <> b}.
Proof. eq_dec_tac. Defined.

Definition Receipt_eq_dec (a b : Receipt.t) : {a = b} + {a <> b}.
Proof. eq_dec_tac. Defined.

(** ** The store: tables, constraints and transactions *)

(** The seven tables of [CreateTablesSQL].  The [id] columns are serial
    numbers the store assigns and the engine never reads; rows are kept
    as multisets (lists compared up to the operations below). *)
Record Tables := mkTables {
  blocks : list BlockRow;
  transactions : list Transaction.t;
  logs : list Log.t;
  receipts : list Receipt.t;
  state_changes : list StateChange.t;
  access_lists : list AccessList.t;
  accounts : list Account.t
}.

Definition no_rows : Tables := mkTables [] [] [] [] [] [] [].

Section Multiset.
Variable A : Type.
Variable eq_dec : forall a b : A, {a = b} + {a <> b}.

Fixpoint remove_one (x : A) (l : list A) : list A :=
  match l with
  | [] => []
  | y :: r => if eq_dec x y then r else y :: remove_one x r
  end.

(** [minus l dels]: [l] without one occurrence of each row of [dels]. *)
Definition minus (l dels : list A) : list A :=
  fold_left (fun acc d => remove_one d acc) dels l.
End Multiset.

Definition tables_minus (t d : Tables) : Tables :=
  mkTables (minus BlockRow_eq_dec (blocks t) (blocks d))
           (minus Transaction_eq_dec (transactions t) (transactions d))
           (minus Log_eq_dec (logs t) (logs d))
           (minus Receipt_eq_dec (receipts t) (receipts d))
           (minus StateChange_eq_dec (state_changes t) (state_changes d))
           (minus AccessList_eq_dec (access_lists t) (access_lists d))
           (minus Account_eq_dec (accounts t) (accounts d)).

Definition tables_plus (t i : Tables) : Tables :=
  mkTables (blocks t ++ blocks i)%list
           (transactions t ++ transactions i)%list
           (logs t ++ logs i)%list
           (receipts t ++ receipts i)%list
           (state_changes t ++ state_changes i)%list
           (access_lists t ++ access_lists i)%list
           (accounts t ++ accounts i)%list.

(** An open transaction: the committed rows it has deleted, the rows it
    has inserted, and whether a statement of it has failed (PostgreSQL
    then refuses every further statement and cannot commit it). *)
Record TxState := mkTx {
  deleted : Tables;
  inserted : Tables;
  failed : bool
}.

Definition fresh_tx : TxState := mkTx no_rows no_rows false.

(** What a statement of the transaction sees (READ COMMITTED): the rows
    committed so far, less its own deletions, plus its own insertions.
    Lock waits between open transactions are left out: a key of a row
    that another open transaction has deleted without committing yet
    counts as taken, where PostgreSQL would make the statement wait for
    that transaction to end. *)
Definition view (c : Tables) (t : TxState) : Tables :=
  tables_plus (tables_minus c (deleted t)) (inserted t).

(** Errors of [database/sql] and of the driver. *)
Inductive sql_error :=
| UniqueViolation (constraint : string)
| ForeignKeyViolation (constraint : string)
| ErrInFailedTransaction
| ErrTxDone
| ErrDBClosed
| ErrConvertingArgument.

(** A Go [error] value: a driver error, or [fmt.Errorf("msg: %v", err)]. *)
Inductive error :=
| SqlError (e : sql_error)
| Errorf (msg : string) (cause : error).

(** The statements the gateway sends inside a transaction, each with the
    value bound to its placeholders. *)
Inductive Stmt :=
| InsertBlockQ (b : Block.t)
| InsertReceiptQ (r : Receipt.t)
| InsertLogQ (l : Log.t)
| DeleteAccessListsQ (n : Z)
| DeleteStateChangesQ (n : Z)
| DeleteLogsQ (n : Z)
| DeleteTransactionsQ (n : Z)
| DeleteBlocksQ (n : Z).

(** The statements [MarkBlockFinalized] sends outside any transaction. *)
Inductive DbStmt :=
| AlterAddFinalizedQ
| UpdateFinalizedQ (n : Z).

Definition has_block_number (v : Tables) (n : Z) : bool :=
  existsb (fun b => Block.Number (row b) =? n) (blocks v).

Definition has_block_hash (v : Tables) (h : string) : bool :=
  existsb (fun b => String.eqb (Block.Hash (row b)) h) (blocks v).

Definition has_transaction (v : Tables) (h : string) : bool :=
  existsb (fun t => String.eqb (Transaction.Hash t) h) (transactions v).

Definition has_receipt_for (v : Tables) (h : string) : bool :=
  existsb (fun r => String.eqb (Receipt.TransactionHash r) h) (receipts v).

(** [WHERE block_number >= $1]. *)
Definition tx_in_range (n : Z) (t : Transaction.t) : bool :=
  n <=? Transaction.BlockNumber t.
Definition log_in_range (n : Z) (l : Log.t) : bool := n <=? Log.BlockNumber l.
Definition sc_in_range (n : Z) (s : StateChange.t) : bool :=
  n <=? StateChange.BlockNumber s.
Definition block_in_range (n : Z) (b : BlockRow) : bool :=
  n <=? Block.Number (row b).

(** [WHERE transaction_hash IN (SELECT hash FROM transactions WHERE
    block_number >= $1)]. *)
Definition al_in_range (v : Tables) (n : Z) (a : AccessList.t) : bool :=
  existsb (fun t => tx_in_range n t
                    && String.eqb (Transaction.Hash t) (AccessList.TransactionHash a))
          (transactions v).

(** Rows that still point at a transaction hash. *)
Definition references_tx (v : Tables) (h : string) : bool :=
  existsb (fun l => String.eqb (Log.TransactionHash l) h) (logs v)
  || existsb (fun s => String.eqb (StateChange.TransactionHash s) h) (state_changes v)
  || existsb (fun a => String.eqb (AccessList.TransactionHash a) h) (access_lists v)
  || existsb (fun a => sql.Valid (Account.CreatorTxHash a)
                       && String.eqb (sql.String_ (Account.CreatorTxHash a)) h)
             (accounts v)
  || existsb (fun r => String.eqb (Receipt.TransactionHash r) h) (receipts v).

(** Rows that still point at a block number. *)
Definition references_block (v : Tables) (n : Z) : bool :=
  existsb (fun t => Transaction.BlockNumber t =? n) (transactions v)
  || existsb (fun l => Log.BlockNumber l =? n) (logs v)
  || existsb (fun s => StateChange.BlockNumber s =? n) (state_changes v)
  || existsb (fun r => Receipt.BlockNumber r =? n) (receipts v).

(** The constraint a statement would break on the rows [v] it sees:
    primary keys, [UNIQUE] and [REFERENCES] of [CreateTablesSQL].  Go
    strings are never NULL, so [NOT NULL] cannot fail; column widths are
    not modelled. *)
Definition check_stmt (v : Tables) (s : Stmt) : option sql_error :=
  match s with
  | InsertBlockQ b =>
      if has_block_number v (Block.Number b)
      then Some (UniqueViolation "blocks_pkey")
      else if has_block_hash v (Block.Hash b)
      then Some (UniqueViolation "blocks_hash_key")
      else None
  | InsertReceiptQ r =>
      if has_receipt_for v (Receipt.TransactionHash r)
      then Some (UniqueViolation "receipts_transaction_hash_key")
      else if negb (has_block_number v (Receipt.BlockNumber r))
      then Some (ForeignKeyViolation "receipts_block_number_fkey")
      else if negb (has_transaction v (Receipt.TransactionHash r))
      then Some (ForeignKeyViolation "receipts_transaction_hash_fkey")
      else None
  | InsertLogQ l =>
      if negb (has_transaction v (Log.TransactionHash l))
      then Some (ForeignKeyViolation "logs_transaction_hash_fkey")
      else if negb (has_block_number v (Log.BlockNumber l))
      then Some (ForeignKeyViolation "logs_block_number_fkey")
      else None
  | DeleteAccessListsQ _ | DeleteStateChangesQ _ | DeleteLogsQ _ => None
  | DeleteTransactionsQ n =>
      if existsb (fun t => tx_in_range n t && references_tx v (Transaction.Hash t))
                 (transactions v)
      then Some (ForeignKeyViolation "transactions")
      else None
  | DeleteBlocksQ n =>
      if existsb (fun b => block_in_range n b
                           && references_block v (Block.Number (row b)))
                 (blocks v)
      then Some (ForeignKeyViolation "blocks")
      else None
  end.

Section DeleteWhere.
Variable A : Type.
Variable eq_dec : forall a b : A, {a = b} + {a <> b}.
Variable P : A -> bool.

(** Deleting the rows that satisfy [P]: the committed ones still visible
    join the deletions, the transaction's own ones are dropped. *)
Definition delete_committed (c d : list A) : list A :=
  (d ++ filter P (minus eq_dec c d))%list.
Definition delete_own (i : list A) : list A :=
  filter (fun x => negb (P x)) i.
End DeleteWhere.

(** The write set of the transaction after a statement that passed
    [check_stmt]. *)
Definition apply_stmt (c : Tables) (t : TxState) (s : Stmt) : TxState :=
  let d := deleted t in
  let i := inserted t in
  match s with
  | InsertBlockQ b =>
      mkTx d (mkTables (blocks i ++ [mkBlockRow b false])%list (transactions i)
                       (logs i) (receipts i) (state_changes i) (access_lists i)
                       (accounts i)) false
  | InsertReceiptQ r =>
      mkTx d (mkTables (blocks i) (transactions i) (logs i)
                       (receipts i ++ [r])%list (state_changes i) (access_lists i)
                       (accounts i)) false
  | InsertLogQ l =>
      mkTx d (mkTables (blocks i) (transactions i) (logs i ++ [l])%list
                       (receipts i) (state_changes i) (access_lists i)
                       (accounts i)) false
  | DeleteAccessListsQ n =>
      let P := al_in_range (view c t) n in
      mkTx (mkTables (blocks d) (transactions d) (logs d) (receipts d)
                     (state_changes d)
                     (delete_committed AccessList_eq_dec P (access_lists c) (access_lists d))
                     (accounts d))
           (mkTables (blocks i) (transactions i) (logs i) (receipts i)
                     (state_changes i) (delete_own P (access_lists i)) (accounts i))
           false
  | DeleteStateChangesQ n =>
      let P := sc_in_range n in
      mkTx (mkTables (blocks d) (transactions d) (logs d) (receipts d)
                     (delete_committed StateChange_eq_dec P (state_changes c) (state_changes d))
                     (access_lists d) (accounts d))
           (mkTables (blocks i) (transactions i) (logs i) (receipts i)
                     (delete_own P (state_changes i)) (access_lists i) (accounts i))
           false
  | DeleteLogsQ n =>
      let P := log_in_range n in
      mkTx (mkTables (blocks d) (transactions d)
                     (delete_committed Log_eq_dec P (logs c) (logs d))
                     (receipts d) (state_changes d) (access_lists d) (accounts d))
           (mkTables (blocks i) (transactions i) (delete_own P (logs i))
                     (receipts i) (state_changes i) (access_lists i) (accounts i))
           false
  | DeleteTransactionsQ n =>
      let P := tx_in_range n in
      mkTx (mkTables (blocks d)
                     (delete_committed Transaction_eq_dec P (transactions c) (transactions d))
                     (logs d) (receipts d) (state_changes d) (access_lists d)
                     (accounts d))
           (mkTables (blocks i) (delete_own P (transactions i)) (logs i)
                     (receipts i) (state_changes i) (access_lists i) (accounts i))
           false
  | DeleteBlocksQ n =>
      let P := block_in_range n in
      mkTx (mkTables (delete_committed BlockRow_eq_dec P (blocks c) (blocks d))
                     (transactions d) (logs d) (receipts d) (state_changes d)
                     (access_lists d) (accounts d))
           (mkTables (delete_own P (blocks i)) (transactions i) (logs i)
                     (receipts i) (state_changes i) (access_lists i) (accounts i))
           false
  end.

(** ** The world a Go call runs in *)

Inductive Level := LvlInfo | LvlDebug | LvlError | LvlPrintf.

(** What the process does that an observer can see: log lines, and the
    calls it makes on the connection pool and on its transactions. *)
Inductive Event :=
| EvLog (lvl : Level) (msg : string)
| EvBegin (r : sql_error + nat)
| EvExec (tx : nat) (s : Stmt) (r : option sql_error)
| EvDbExec (s : DbStmt) (r : option sql_error)
| EvDbNamedExec (s : Stmt) (r : option sql_error)
| EvCommit (tx : nat) (r : option sql_error)
| EvRollback (tx : nat) (r : option sql_error)
| EvClose.

(** [refused] picks the statements the driver cannot send at all (an
    argument it has no encoding for): [database/sql] reports the error
    before anything reaches the server, and the transaction is left as it
    was.  The rest of the world is the server's committed rows, its open
    transactions, the next transaction handle, whether the pool is
    closed, and what has been observed so far. *)
Record World := mkWorld {
  refused : Stmt -> bool;
  committed : Tables;
  txs : list (nat * TxState);
  next_tx : nat;
  closed : bool;
  events : list Event
}.

(** A driver that can send every statement. *)
Definition sends_all : Stmt -> bool := fun _ => false.

Definition new_world (c : Tables) : World := mkWorld sends_all c [] 0 false [].

Fixpoint find_tx (id : nat) (l : list (nat * TxState)) : option TxState :=
  match l with
  | [] => None
  | (k, t) :: r => if Nat.eqb k id then Some t else find_tx id r
  end.

Fixpoint set_tx (id : nat) (t : TxState) (l : list (nat * TxState))
  : list (nat * TxState) :=
  match l with
  | [] => []
  | (k, u) :: r => if Nat.eqb k id then (k, t) :: r else (k, u) :: set_tx id t r
  end.

Fixpoint drop_tx (id : nat) (l : list (nat * TxState)) : list (nat * TxState) :=
  match l with
  | [] => []
  | (k, u) :: r => if Nat.eqb k id then r else (k, u) :: drop_tx id r
  end.

Definition emit (e : Event) (w : World) : World :=
  mkWorld (refused w) (committed w) (txs w) (next_tx w) (closed w) (events w ++ [e])%list.

(** ** Go computations: a result or a run-time panic, over the world *)

Inductive panic :=
| NilPointerDereference
| IndexOutOfRange
| Explicit (msg : string).

Inductive outcome (A : Type) :=
| Returned (a : A)
| Panicked (p : panic).
Arguments Panicked {A} p.

Definition Go (A : Type) : Type := World -> outcome A * World.

Definition ret {A} (a : A) : Go A := fun w => (Returned a, w).

Definition bind {A B} (m : Go A) (f : A -> Go B) : Go B :=
  fun w =>
    match m w with
    | (Returned a, w') => f a w'
    | (Panicked p, w') => (Panicked p, w')
    end.

Definition throw {A} (p : panic) : Go A := fun w => (Panicked p, w).

Notation "x <- m ;; k" := (bind m (fun x => k))
  (at level 61, m at next level, right associativity).
Notation "m ;;; k" := (bind m (fun _ => k))
  (at level 61, right associativity).

(** [defer d]: [d] runs when the body returns and also when it panics. *)
Definition defer {A} (d : Go unit) (body : Go A) : Go A :=
  fun w =>
    let (r, w') := body w in
    match d w' with
    | (Returned _, w'') => (r, w'')
    | (Panicked p, w'') => (Panicked p, w'')
    end.

(** Dereferencing a pointer. *)
Definition deref {A} (p : option A) : Go A :=
  match p with
  | Some a => ret a
  | None => throw NilPointerDereference
  end.

(** [s[0]]. *)
Definition index0 {A} (s : list A) : Go A :=
  match s with
  | a :: _ => ret a
  | [] => throw IndexOutOfRange
  end.

Definition log_Info (msg : string) : Go unit :=
  fun w => (Returned tt, emit (EvLog LvlInfo msg) w).
Definition log_Debug (msg : string) : Go unit :=
  fun w => (Returned tt, emit (EvLog LvlDebug msg) w).
Definition log_Error (msg : string) : Go unit :=
  fun w => (Returned tt, emit (EvLog LvlError msg) w).

(** ** database/sql over the model *)

(** [db.Beginx()]. *)
Definition Beginx : Go (sql_error + nat) :=
  fun w =>
    if closed w
    then (Returned (inl ErrDBClosed), emit (EvBegin (inl ErrDBClosed)) w)
    else
      let id := next_tx w in
      (Returned (inr id),
       emit (EvBegin (inr id))
            (mkWorld (refused w) (committed w) ((id, fresh_tx) :: txs w) (S id)
                     (closed w) (events w))).

(** The answer to a statement of transaction [t], and the write set
    afterwards.  A statement the driver refuses never reaches the server;
    an aborted transaction refuses every statement; a broken constraint
    aborts the transaction. *)
Definition exec_result (rf : Stmt -> bool) (c : Tables) (t : TxState) (s : Stmt)
  : option sql_error :=
  if rf s then Some ErrConvertingArgument
  else if failed t then Some ErrInFailedTransaction
  else check_stmt (view c t) s.

Definition tx_step (rf : Stmt -> bool) (c : Tables) (t : TxState) (s : Stmt)
  : TxState :=
  if rf s then t
  else if failed t then t
  else match check_stmt (view c t) s with
       | Some _ => mkTx (deleted t) (inserted t) true
       | None => apply_stmt c t s
       end.

(** [tx.Exec] and [tx.NamedExec]. *)
Definition tx_Exec (tx : nat) (s : Stmt) : Go (option sql_error) :=
  fun w =>
    match find_tx tx (txs w) with
    | None => (Returned (Some ErrTxDone), emit (EvExec tx s (Some ErrTxDone)) w)
    | Some t =>
        let r := exec_result (refused w) (committed w) t s in
        (Returned r,
         emit (EvExec tx s r)
              (mkWorld (refused w) (committed w)
                       (set_tx tx (tx_step (refused w) (committed w) t s) (txs w))
                       (next_tx w) (closed w) (events w)))
    end.

(** [tx.Commit()].  A transaction with a failed statement is rolled back
    and the driver reports [ErrInFailedTransaction]. *)
Definition tx_Commit (tx : nat) : Go (option sql_error) :=
  fun w =>
    match find_tx tx (txs w) with
    | None => (Returned (Some ErrTxDone), emit (EvCommit tx (Some ErrTxDone)) w)
    | Some t =>
        if failed t
        then (Returned (Some ErrInFailedTransaction),
              emit (EvCommit tx (Some ErrInFailedTransaction))
                   (mkWorld (refused w) (committed w) (drop_tx tx (txs w)) (next_tx w)
                            (closed w) (events w)))
        else (Returned None,
              emit (EvCommit tx None)
                   (mkWorld (refused w) (view (committed w) t) (drop_tx tx (txs w))
                            (next_tx w) (closed w) (events w)))
    end.

(** [tx.Rollback()]; after [Commit] or [Rollback] it only reports
    [ErrTxDone]. *)
Definition tx_Rollback (tx : nat) : Go (option sql_error) :=
  fun w =>
    match find_tx tx (txs w) with
    | None => (Returned (Some ErrTxDone), emit (EvRollback tx (Some ErrTxDone)) w)
    | Some _ =>
        (Returned None,
         emit (EvRollback tx None)
              (mkWorld (refused w) (committed w) (drop_tx tx (txs w)) (next_tx w)
                       (closed w) (events w)))
    end.

Definition set_finalized (n : Z) (b : BlockRow) : BlockRow :=
  if Block.Number (row b) =? n then mkBlockRow (row b) true else b.

Definition with_blocks (c : Tables) (bs : list BlockRow) : Tables :=
  mkTables bs (transactions c) (logs c) (receipts c) (state_changes c)
           (access_lists c) (accounts c).

(** A [uint64] argument that [database/sql] does not pass on: it converts
    the value itself, whatever the driver, and refuses one with the high
    bit set ("uint64 values with high bit set are not supported"). *)
Definition high_bit_set (n : Z) : bool := 2 ^ 63 <=? n.

(** [db.Exec] outside a transaction: the statement commits on its own.
    The [finalized] column is part of every row of the model, so adding
    it when missing changes nothing.  The UPDATE binds the block number,
    a [uint64]: with the high bit set it is refused before anything is
    sent, and no row changes. *)
Definition db_Exec (s : DbStmt) : Go (option sql_error) :=
  fun w =>
    if closed w
    then (Returned (Some ErrDBClosed), emit (EvDbExec s (Some ErrDBClosed)) w)
    else
      match s with
      | AlterAddFinalizedQ => (Returned None, emit (EvDbExec s None) w)
      | UpdateFinalizedQ n =>
          if high_bit_set n
          then (Returned (Some ErrConvertingArgument),
                emit (EvDbExec s (Some ErrConvertingArgument)) w)
          else
            (Returned None,
             emit (EvDbExec s None)
                  (mkWorld (refused w) (with_blocks (committed w)
                                        (map (set_finalized n) (blocks (committed w))))
                           (txs w) (next_tx w) (closed w) (events w)))
      end.

(** [db.NamedExec] outside a transaction: the statement is checked
    against the committed rows and commits on its own. *)
Definition db_NamedExec (s : Stmt) : Go (option sql_error) :=
  fun w =>
    if closed w
    then (Returned (Some ErrDBClosed), emit (EvDbNamedExec s (Some ErrDBClosed)) w)
    else
      match exec_result (refused w) (committed w) fresh_tx s with
      | Some e => (Returned (Some e), emit (EvDbNamedExec s (Some e)) w)
      | None =>
          (Returned None,
           emit (EvDbNamedExec s None)
                (mkWorld (refused w) (view (committed w) (apply_stmt (committed w) fresh_tx s))
                         (txs w) (next_tx w) (closed w) (events w)))
      end.

(** [db.Close()]: closes the pool; the transactions it still had open
    are gone with their connections.  Closing twice is allowed. *)
Definition db_Close : Go (option sql_error) :=
  fun w =>
    (Returned None,
     emit EvClose (mkWorld (refused w) (committed w) [] (next_tx w) true (events w))).

(** ** The storage gateway (core/db.go) *)

(** The [*sqlx.DB] of an [IndexerDB]: the one pool of the world. *)
Inductive sqlxDB := pool.

Module IndexerDB.
Record t := mk { db : sqlxDB }.
End IndexerDB.

(** [fmt.Errorf(msg + ": %v", err)] when [err] is not nil. *)
Definition wrap (msg : string) (r : option sql_error) : option error :=
  match r with
  | Some e => Some (Errorf msg (SqlError e))
  | None => None
  end.

(** [Close] dereferences its receiver to reach the pool. *)
Definition Close (idb : option IndexerDB.t) : Go (option sql_error) :=
  _ <- deref idb ;; db_Close.

Definition InsertBlockWithTx (idb : IndexerDB.t) (tx : nat) (block : Block.t)
  : Go (option error) :=
  r <- tx_Exec tx (InsertBlockQ block) ;;
  ret (wrap "error inserting block" r).

Definition InsertReceiptWithTx (idb : IndexerDB.t) (tx : nat) (receipt : Receipt.t)
  : Go (option error) :=
  r <- tx_Exec tx (InsertReceiptQ receipt) ;;
  ret (wrap "error inserting receipt" r).

Definition InsertLogWithTx (idb : IndexerDB.t) (tx : nat) (log : Log.t)
  : Go (option error) :=
  r <- tx_Exec tx (InsertLogQ log) ;;
  ret (wrap "error inserting log" r).

(** The five statements of [DeleteBlockAndDescendantsWithTx], in the
    order of its [deleteQueries]. *)
Definition deleteQueries (blockNumber : Z) : list Stmt :=
  [ DeleteAccessListsQ blockNumber;
    DeleteStateChangesQ blockNumber;
    DeleteLogsQ blockNumber;
    DeleteTransactionsQ blockNumber;
    DeleteBlocksQ blockNumber ].

Fixpoint exec_queries (tx : nat) (qs : list Stmt) : Go (option error) :=
  match qs with
  | [] => ret None
  | q :: rest =>
      r <- tx_Exec tx q ;;
      match r with
      | Some e => ret (Some (Errorf "error executing delete query" (SqlError e)))
      | None => exec_queries tx rest
      end
  end.

Definition DeleteBlockAndDescendantsWithTx (idb : IndexerDB.t) (tx : nat)
  (blockNumber : Z) : Go (option error) :=
  exec_queries tx (deleteQueries blockNumber).

Definition MarkBlockFinalized (idb : IndexerDB.t) (blockNumber : Z)
  : Go (option error) :=
  r <- db_Exec AlterAddFinalizedQ ;;
  match r with
  | Some e => ret (Some (Errorf "error adding finalized column" (SqlError e)))
  | None =>
      r' <- db_Exec (UpdateFinalizedQ blockNumber) ;;
      match r' with
      | Some e => ret (Some (Errorf "error marking block as finalized" (SqlError e)))
      | None => ret None
      end
  end.

Definition InsertBlock (idb : option IndexerDB.t) (block : Block.t)
  : Go (option error) :=
  _ <- deref idb ;;
  r <- db_NamedExec (InsertBlockQ block) ;;
  ret (wrap "error inserting block" r).

(** The loop of [DeleteBlockAndDescendants]: the first failure rolls the
    transaction back and leaves. *)
Fixpoint exec_queries_or_rollback (tx : nat) (qs : list Stmt) : Go (option error) :=
  match qs with
  | [] => r <- tx_Commit tx ;;
          ret (match r with Some e => Some (SqlError e) | None => None end)
  | q :: rest =>
      r <- tx_Exec tx q ;;
      match r with
      | Some e =>
          tx_Rollback tx ;;;
          ret (Some (Errorf "error executing delete query" (SqlError e)))
      | None => exec_queries_or_rollback tx rest
      end
  end.

Definition DeleteBlockAndDescendants (idb : option IndexerDB.t) (blockNumber : Z)
  : Go (option error) :=
  _ <- deref idb ;;
  r <- Beginx ;;
  match r with
  | inl e => ret (Some (Errorf "error starting transaction" (SqlError e)))
  | inr tx => exec_queries_or_rollback tx (deleteQueries blockNumber)
  end.

(** ** The indexer plugin (core/plugin.go) *)

(** [core.BlockChain] lies outside the indexer's files; a chain is taken
    as the function its [GetReceiptsByHash] computes. *)
Record BlockChain := mkBlockChain { GetReceiptsByHash : Hash -> Receipts }.

Module IndexerPlugin.
Record t := mk { db : option IndexerDB.t; chain : option BlockChain }.
End IndexerPlugin.

Definition NewIndexerPlugin (db : option IndexerDB.t) : Go IndexerPlugin.t :=
  match db with
  | None =>
      log_Info "Creating indexer plugin without database connection" ;;;
      ret (IndexerPlugin.mk None None)
  | Some d =>
      log_Info "Creating new indexer plugin with database connection" ;;;
      ret (IndexerPlugin.mk (Some d) None)
  end.

Definition OnInit (p : IndexerPlugin.t) (bc : BlockChain) : Go IndexerPlugin.t :=
  match IndexerPlugin.db p with
  | None =>
      log_Info "Initializing indexer plugin without database - indexing disabled" ;;;
      ret p
  | Some _ =>
      log_Info "Initializing indexer plugin" ;;;
      ret (IndexerPlugin.mk (IndexerPlugin.db p) (Some bc))
  end.

Definition zero_NullString : sql.NullString := sql.mkNullString "" false.

Definition is_some {A} (o : option A) : bool :=
  match o with Some _ => true | None => false end.

(** The [Block] literal of [OnHead].  [header.BaseFee.String()] and
    [header.Difficulty.String()] accept a nil [big.Int]; the blob-gas
    fields are read through [*ptr] and the two optional hashes through a
    value-receiver method, each of which dereferences the pointer before
    the [Valid] flag is computed. *)
Definition derive_block (header : Header.t) : Go Block.t :=
  blobGasUsed <- deref (Header.BlobGasUsed header) ;;
  excessBlobGas <- deref (Header.ExcessBlobGas header) ;;
  parentBeaconRoot <- deref (Header.ParentBeaconRoot header) ;;
  withdrawalsHash <- deref (Header.WithdrawalsHash header) ;;
  ret {|
    Block.Number := Uint64 (Header.Number header);
    Block.Hash := Header.hash header;
    Block.ParentHash := Header.ParentHash header;
    Block.Timestamp := int64_of_uint64 (Header.Time header);
    Block.Nonce := sprintf_d_bytes (Header.Nonce header);
    Block.BaseFeePerGas :=
      sql.mkNullString (BigInt_String (Header.BaseFee header))
                       (is_some (Header.BaseFee header));
    Block.BlobGasUsed :=
      sql.mkNullString (decimal blobGasUsed) (is_some (Header.BlobGasUsed header));
    Block.Difficulty := BigInt_String (Header.Difficulty header);
    Block.ExcessBlobGas :=
      sql.mkNullString (decimal excessBlobGas) (is_some (Header.ExcessBlobGas header));
    Block.ExtraData := hex0x (Header.Extra header);
    Block.GasLimit := decimal (Header.GasLimit header);
    Block.GasUsed := decimal (Header.GasUsed header);
    Block.LogsBloom := sql.mkNullString (hex0x (Header.Bloom header)) true;
    Block.Miner := Header.Coinbase header;
    Block.MixHash := Header.MixDigest header;
    Block.ParentBeaconBlockRoot :=
      sql.mkNullString parentBeaconRoot (is_some (Header.ParentBeaconRoot header));
    Block.ReceiptsRoot := Header.ReceiptHash header;
    Block.Sha3Uncles := Header.UncleHash header;
    Block.Size := "";
    Block.StateRoot := Header.Root header;
    Block.TotalDifficulty := zero_NullString;
    Block.TransactionsRoot := Header.TxHash header;
    Block.WithdrawalsRoot :=
      sql.mkNullString withdrawalsHash (is_some (Header.WithdrawalsHash header));
    Block.SealFields := [];
    Block.Transactions := [];
    Block.Uncles := [];
    Block.BlockReward := "";
    Block.UncleReward := ""
  |}.

Definition derive_receipt (header : Header.t) (i : Z) (receipt : GethReceipt.t)
  : Receipt.t :=
  {| Receipt.ID := 0;
     Receipt.BlockNumber := Uint64 (Header.Number header);
     Receipt.BlockHash := Header.hash header;
     Receipt.TransactionHash := GethReceipt.TxHash receipt;
     Receipt.TransactionIndex := i;
     Receipt.ContractAddress := GethReceipt.ContractAddress receipt;
     Receipt.GasUsed := GethReceipt.GasUsed receipt;
     Receipt.Status := GethReceipt.Status receipt |}.

Definition derive_log (header : Header.t) (txHash : string) (logEntry : GethLog.t)
  : Log.t :=
  {| Log.ID := 0;
     Log.TransactionHash := txHash;
     Log.BlockNumber := Uint64 (Header.Number header);
     Log.Address := GethLog.Address logEntry;
     Log.Topics := GethLog.Topics logEntry;
     Log.Data := hex0x (GethLog.Data logEntry);
     Log.LogIndex := GethLog.Index logEntry;
     Log.Removed := false |}.

(** The inner loop of [OnHead]: a log that fails to insert is reported
    and the loop goes on with the next one. *)
Fixpoint index_logs (idb : IndexerDB.t) (tx : nat) (header : Header.t)
  (txHash : string) (ls : list GethLog.t) : Go unit :=
  match ls with
  | [] => ret tt
  | logEntry :: rest =>
      err <- InsertLogWithTx idb tx (derive_log header txHash logEntry) ;;
      match err with
      | Some _ =>
          log_Error "Failed to index log" ;;;
          index_logs idb tx header txHash rest
      | None => index_logs idb tx header txHash rest
      end
  end.

(** The outer loop of [OnHead]: a receipt that fails to insert is
    reported, its logs are skipped, and the loop goes on. *)
Fixpoint index_receipts (idb : IndexerDB.t) (tx : nat) (header : Header.t)
  (rs : list GethReceipt.t) (i : Z) : Go unit :=
  match rs with
  | [] => ret tt
  | receipt :: rest =>
      let txHash := GethReceipt.TxHash receipt in
      err <- InsertReceiptWithTx idb tx (derive_receipt header i receipt) ;;
      match err with
      | Some _ =>
          log_Error "Failed to index receipt" ;;;
          index_receipts idb tx header rest (i + 1)
      | None =>
          index_logs idb tx header txHash (GethReceipt.Logs receipt) ;;;
          index_receipts idb tx header rest (i + 1)
      end
  end.

(** What [OnHead] does once its transaction is open and the rollback is
    deferred: lines 73 to 172 of plugin.go. *)
Definition head_under_tx (p : IndexerPlugin.t) (idb : IndexerDB.t) (tx : nat)
  (header : Header.t) : Go unit :=
  block <- derive_block header ;;
  err <- InsertBlockWithTx idb tx block ;;
  match err with
  | Some _ => log_Error "Failed to index block"
  | None =>
      chain <- deref (IndexerPlugin.chain p) ;;
      let receipts := GetReceiptsByHash chain (Header.hash header) in
      log_Debug "Processing receipts" ;;;
      index_receipts idb tx header (range_of receipts) 0 ;;;
      cerr <- tx_Commit tx ;;
      match cerr with
      | Some _ => log_Error "Failed to commit transaction"
      | None => log_Info "Successfully indexed block"
      end
  end.

Definition OnHead (p : IndexerPlugin.t) (header : Header.t) : Go unit :=
  match IndexerPlugin.db p with
  | None => ret tt
  | Some idb =>
      log_Info "Indexer processing new head block" ;;;
      r <- Beginx ;;
      match r with
      | inl _ => log_Error "Failed to begin transaction"
      | inr tx =>
          defer (tx_Rollback tx ;;; ret tt) (head_under_tx p idb tx header)
      end
  end.

Definition OnFinal (p : IndexerPlugin.t) (header : Header.t) : Go unit :=
  match IndexerPlugin.db p with
  | None => ret tt
  | Some idb =>
      log_Info "Indexer processing finalized block" ;;;
      err <- MarkBlockFinalized idb (Uint64 (Header.Number header)) ;;
      match err with
      | Some _ => log_Error "Failed to mark block as finalized"
      | None => log_Info "Successfully marked block as finalized"
      end
  end.

Definition OnClose (p : IndexerPlugin.t) : Go unit :=
  log_Info "Closing indexer plugin" ;;;
  err <- Close (IndexerPlugin.db p) ;;
  match err with
  | Some _ => log_Error "Failed to close database connection"
  | None => ret tt
  end.

(** The first loop of [OnReorg]; [false] when it left through [return]. *)
Fixpoint delete_old (idb : IndexerDB.t) (tx : nat) (oldHeaders : list Header.t)
  : Go bool :=
  match oldHeaders with
  | [] => ret true
  | header :: rest =>
      let blockNumber := Uint64 (Header.Number header) in
      err <- DeleteBlockAndDescendantsWithTx idb tx blockNumber ;;
      match err with
      | Some _ => log_Error "Failed to delete reorged block" ;;; ret false
      | None => delete_old idb tx rest
      end
  end.

(** The second loop of [OnReorg]: every new header goes through [OnHead]. *)
Fixpoint insert_new (p : IndexerPlugin.t) (newHeaders : list Header.t) : Go unit :=
  match newHeaders with
  | [] => ret tt
  | header :: rest => OnHead p header ;;; insert_new p rest
  end.

Definition OnReorg (p : IndexerPlugin.t) (oldHeaders newHeaders : list Header.t)
  : Go unit :=
  _ <- index0 oldHeaders ;;
  _ <- index0 newHeaders ;;
  log_Info "Indexer handling chain reorg" ;;;
  idb <- deref (IndexerPlugin.db p) ;;
  r <- Beginx ;;
  match r with
  | inl _ => log_Error "Failed to begin reorg transaction"
  | inr tx =>
      defer (tx_Rollback tx ;;; ret tt)
        (deleted_all <- delete_old idb tx oldHeaders ;;
         if deleted_all
         then
           insert_new p newHeaders ;;;
           cerr <- tx_Commit tx ;;
           match cerr with
           | Some _ => log_Error "Failed to commit reorg transaction"
           | None => ret tt
           end
         else ret tt)
  end.

(** ** The first plugin (package plugin) *)

Module GethPlugin.
Record t := mk { db : option IndexerDB.t }.
End GethPlugin.

Definition NewGethPlugin (db : option IndexerDB.t) : GethPlugin.t :=
  GethPlugin.mk db.

(** The [Block] literal of [GethPlugin.OnHead]: of the optional fields
    it reads the base fee only; the others keep their zero value. *)
Definition GethPlugin_block (header : Header.t) : Block.t :=
  {| Block.Number := Uint64 (Header.Number header);
     Block.Hash := Header.hash header;
     Block.ParentHash := Header.ParentHash header;
     Block.Timestamp := int64_of_uint64 (Header.Time header);
     Block.Nonce := sprintf_d_bytes (Header.Nonce header);
     Block.BaseFeePerGas :=
       sql.mkNullString (BigInt_String (Header.BaseFee header))
                        (is_some (Header.BaseFee header));
     Block.BlobGasUsed := zero_NullString;
     Block.Difficulty := BigInt_String (Header.Difficulty header);
     Block.ExcessBlobGas := zero_NullString;
     Block.ExtraData := hex0x (Header.Extra header);
     Block.GasLimit := decimal (Header.GasLimit header);
     Block.GasUsed := decimal (Header.GasUsed header);
     Block.LogsBloom := zero_NullString;
     Block.Miner := Header.Coinbase header;
     Block.MixHash := Header.MixDigest header;
     Block.ParentBeaconBlockRoot := zero_NullString;
     Block.ReceiptsRoot := Header.ReceiptHash header;
     Block.Sha3Uncles := Header.UncleHash header;
     Block.Size := "0";
     Block.StateRoot := Header.Root header;
     Block.TotalDifficulty := zero_NullString;
     Block.TransactionsRoot := Header.TxHash header;
     Block.WithdrawalsRoot := zero_NullString;
     Block.SealFields := [];
     Block.Transactions := [];
     Block.Uncles := [];
     Block.BlockReward := "0";
     Block.UncleReward := "0" |}.

Definition GethPlugin_OnHead (p : GethPlugin.t) (header : Header.t) : Go unit :=
  err <- InsertBlock (GethPlugin.db p) (GethPlugin_block header) ;;
  match err with
  | Some _ => throw (Explicit "Failed to index block")
  | None => ret tt
  end.

Definition GethPlugin_OnFinal (p : GethPlugin.t) (header : Header.t) : Go unit :=
  ret tt.

Definition GethPlugin_OnClose (p : GethPlugin.t) : Go unit := ret tt.

Fixpoint GethPlugin_delete_old (p : GethPlugin.t) (oldHeaders : list Header.t)
  : Go unit :=
  match oldHeaders with
  | [] => ret tt
  | header :: rest =>
      err <- DeleteBlockAndDescendants (GethPlugin.db p)
               (Uint64 (Header.Number header)) ;;
      match err with
      | Some _ =>
          (fun w => (Returned tt, emit (EvLog LvlPrintf "Failed to delete reorged block") w)) ;;;
          GethPlugin_delete_old p rest
      | None => GethPlugin_delete_old p rest
      end
  end.

Fixpoint GethPlugin_insert_new (p : GethPlugin.t) (newHeaders : list Header.t)
  : Go unit :=
  match newHeaders with
  | [] => ret tt
  | header :: rest => GethPlugin_OnHead p header ;;; GethPlugin_insert_new p rest
  end.

Definition GethPlugin_OnReorg (p : GethPlugin.t) (oldHeaders newHeaders : list Header.t)
  : Go unit :=
  GethPlugin_delete_old p oldHeaders ;;;
  GethPlugin_insert_new p newHeaders.

(** ** The receipt cache *)

Module lru.
(** Modelled from the spec: the generic cache type of the node's
    [common/lru] package is not among the indexer's files.  The spec
    asks for a bounded cache keyed by block hash with
    least-recently-used eviction; entries are kept most recently used
    first. *)
Record Cache (V : Type) := mkCache {
  capacity : nat;
  entries : list (Hash * V)
}.
Arguments mkCache {V} capacity entries.
Arguments capacity {V} c.
Arguments entries {V} c.

(** Modelled from the spec: [NewCache] of the missing cache type, an
    empty cache of the given capacity. *)
Definition NewCache {V} (cap : nat) : Cache V := mkCache cap [].

Fixpoint lookup {V} (k : Hash) (l : list (Hash * V)) : option V :=
  match l with
  | [] => None
  | (k', v) :: r => if String.eqb k' k then Some v else lookup k r
  end.

Definition remove_key {V} (k : Hash) (l : list (Hash * V)) : list (Hash * V) :=
  filter (fun e => negb (String.eqb (fst e) k)) l.

(** Modelled from the spec: [Get] of the missing cache type; a hit
    returns the cached value and makes the entry the most recently used. *)
Definition Get {V} (c : Cache V) (k : Hash) : option V * Cache V :=
  match lookup k (entries c) with
  | Some v => (Some v, mkCache (capacity c) ((k, v) :: remove_key k (entries c)))
  | None => (None, c)
  end.

(** Modelled from the spec: [Add] of the missing cache type; the entry
    becomes the most recently used one and a full cache first drops its
    least recently used entry. *)
Definition Add {V} (c : Cache V) (k : Hash) (v : V) : Cache V :=
  let rest := remove_key k (entries c) in
  let kept :=
    if Nat.leb (capacity c) (length rest)
    then firstn (capacity c - 1) rest
    else rest in
  mkCache (capacity c) ((k, v) :: kept).
End lru.

(** [var receiptsCache = lru.NewCache[common.Hash, types.Receipts](32)]:
    the package-level cache, threaded through every call. *)
Definition receiptsCache0 : lru.Cache Receipts := lru.NewCache 32.

Definition GetBlockReceipts (getReceipts : Hash -> Receipts) (hash : Hash)
  (number : Z) (receiptsCache : lru.Cache Receipts)
  : Receipts * lru.Cache Receipts :=
  match lru.Get receiptsCache hash with
  | (Some receipts, cache) => (receipts, cache)
  | (None, cache) =>
      let receipts := getReceipts hash in
      match receipts with
      | None => (None, cache)
      | Some _ => (receipts, lru.Add cache hash receipts)
      end
  end.

(** The cache after a sequence of calls, all fetching through
    [getReceipts]. *)
Fixpoint after_calls (getReceipts : Hash -> Receipts) (calls : list (Hash * Z))
  (c : lru.Cache Receipts) : lru.Cache Receipts :=
  match calls with
  | [] => c
  | (h, n) :: rest =>
      after_calls getReceipts rest (snd (GetBlockReceipts getReceipts h n c))
  end.

(** ** The write set of the head transaction, statement by statement *)

Fixpoint logs_steps (rf : Stmt -> bool) (c : Tables) (t : TxState)
  (header : Header.t) (txHash : string) (ls : list GethLog.t) : TxState :=
  match ls with
  | [] => t
  | logEntry :: rest =>
      logs_steps rf c
                 (tx_step rf c t (InsertLogQ (derive_log header txHash logEntry)))
                 header txHash rest
  end.

Fixpoint receipts_steps (rf : Stmt -> bool) (c : Tables) (t : TxState)
  (header : Header.t) (rs : list GethReceipt.t) (i : Z) : TxState :=
  match rs with
  | [] => t
  | receipt :: rest =>
      let q := InsertReceiptQ (derive_receipt header i receipt) in
      match exec_result rf c t q with
      | Some _ => receipts_steps rf c (tx_step rf c t q) header rest (i + 1)
      | None =>
          receipts_steps rf c
            (logs_steps rf c (tx_step rf c t q) header (GethReceipt.TxHash receipt)
                        (GethReceipt.Logs receipt))
            header rest (i + 1)
      end
  end.

(** The rows a head delivers: its block, one receipt row per receipt in
    order, and the log rows of each receipt in order. *)
Fixpoint receipt_rows (header : Header.t) (rs : list GethReceipt.t) (i : Z)
  : list Receipt.t :=
  match rs with
  | [] => []
  | receipt :: rest => derive_receipt header i receipt :: receipt_rows header rest (i + 1)
  end.

Definition log_rows (header : Header.t) (rs : list GethReceipt.t) : list Log.t :=
  flat_map (fun receipt =>
              map (derive_log header (GethReceipt.TxHash receipt))
                  (GethReceipt.Logs receipt)) rs.

Definition head_graph (block : Block.t) (header : Header.t)
  (rs : list GethReceipt.t) : Tables :=
  mkTables [mkBlockRow block false] [] (log_rows header rs)
           (receipt_rows header rs 0) [] [] [].

(** ** Sample chain data *)

Definition idb0 : IndexerDB.t := IndexerDB.mk pool.

(** The plugin [NewIndexerPlugin(nil)] returns. *)
Definition nil_plugin : IndexerPlugin.t := IndexerPlugin.mk None None.

(** A header of a block version that has every optional field. *)
Definition full_header (n : Z) (h parent : Hash) : Header.t :=
  {| Header.ParentHash := parent; Header.UncleHash := "0xuncles";
     Header.Coinbase := "0xminer"; Header.Root := "0xstate";
     Header.TxHash := "0xtxroot"; Header.ReceiptHash := "0xreceipts";
     Header.Bloom := []; Header.Difficulty := Some 0; Header.Number := n;
     Header.GasLimit := 30000000; Header.GasUsed := 21000;
     Header.Time := 1700000000 + n; Header.Extra := [];
     Header.MixDigest := "0xmix"; Header.Nonce := [];
     Header.BaseFee := Some 7; Header.WithdrawalsHash := Some "0xwithdrawals";
     Header.BlobGasUsed := Some 0; Header.ExcessBlobGas := Some 0;
     Header.ParentBeaconRoot := Some "0xbeacon"; Header.hash := h |}.

(** A header from before the fee market: no base fee, no withdrawals, no
    blob gas, no beacon root. *)
Definition legacy_header (n : Z) (h parent : Hash) : Header.t :=
  {| Header.ParentHash := parent; Header.UncleHash := "0xuncles";
     Header.Coinbase := "0xminer"; Header.Root := "0xstate";
     Header.TxHash := "0xtxroot"; Header.ReceiptHash := "0xreceipts";
     Header.Bloom := []; Header.Difficulty := Some 2; Header.Number := n;
     Header.GasLimit := 8000000; Header.GasUsed := 21000;
     Header.Time := 1500000000 + n; Header.Extra := [];
     Header.MixDigest := "0xmix"; Header.Nonce := [];
     Header.BaseFee := None; Header.WithdrawalsHash := None;
     Header.BlobGasUsed := None; Header.ExcessBlobGas := None;
     Header.ParentBeaconRoot := None; Header.hash := h |}.

(** The same block version with a base fee of zero. *)
Definition zero_fee_header (n : Z) (h parent : Hash) : Header.t :=
  {| Header.ParentHash := parent; Header.UncleHash := "0xuncles";
     Header.Coinbase := "0xminer"; Header.Root := "0xstate";
     Header.TxHash := "0xtxroot"; Header.ReceiptHash := "0xreceipts";
     Header.Bloom := []; Header.Difficulty := Some 0; Header.Number := n;
     Header.GasLimit := 30000000; Header.GasUsed := 21000;
     Header.Time := 1700000000 + n; Header.Extra := [];
     Header.MixDigest := "0xmix"; Header.Nonce := [];
     Header.BaseFee := Some 0; Header.WithdrawalsHash := Some "0xwithdrawals";
     Header.BlobGasUsed := Some 0; Header.ExcessBlobGas := Some 0;
     Header.ParentBeaconRoot := Some "0xbeacon"; Header.hash := h |}.

(** The row [OnHead] stores for [full_header n h parent]. *)
Definition full_block (n : Z) (h parent : Hash) : Block.t :=
  {| Block.Number := Uint64 n; Block.Hash := h; Block.ParentHash := parent;
     Block.Timestamp := int64_of_uint64 (1700000000 + n);
     Block.Nonce := "[]";
     Block.BaseFeePerGas := sql.mkNullString "7" true;
     Block.BlobGasUsed := sql.mkNullString "0" true;
     Block.Difficulty := "0";
     Block.ExcessBlobGas := sql.mkNullString "0" true;
     Block.ExtraData := "0x"; Block.GasLimit := "30000000";
     Block.GasUsed := "21000";
     Block.LogsBloom := sql.mkNullString "0x" true;
     Block.Miner := "0xminer"; Block.MixHash := "0xmix";
     Block.ParentBeaconBlockRoot := sql.mkNullString "0xbeacon" true;
     Block.ReceiptsRoot := "0xreceipts"; Block.Sha3Uncles := "0xuncles";
     Block.Size := ""; Block.StateRoot := "0xstate";
     Block.TotalDifficulty := zero_NullString;
     Block.TransactionsRoot := "0xtxroot";
     Block.WithdrawalsRoot := sql.mkNullString "0xwithdrawals" true;
     Block.SealFields := []; Block.Transactions := []; Block.Uncles := [];
     Block.BlockReward := ""; Block.UncleReward := "" |}.

Definition sample_transaction (h : Hash) (n : Z) : Transaction.t :=
  {| Transaction.Hash := h; Transaction.BlockNumber := n;
     Transaction.From := "0xfrom"; Transaction.To := sql.mkNullString "0xto" true;
     Transaction.Value := "1"; Transaction.Nonce := 0;
     Transaction.GasPrice := "1"; Transaction.GasLimit := 21000;
     Transaction.GasUsed := 21000; Transaction.Input := "0x";
     Transaction.Status := 1; Transaction.Type_ := 0;
     Transaction.MaxFeePerGas := zero_NullString;
     Transaction.MaxPriorityFee := zero_NullString;
     Transaction.BlobGasUsed := zero_NullString;
     Transaction.BlobGasPrice := zero_NullString;
     Transaction.Error := zero_NullString |}.

Definition sample_receipt (txHash : Hash) : GethReceipt.t :=
  {| GethReceipt.TxHash := txHash; GethReceipt.ContractAddress := "0x0";
     GethReceipt.GasUsed := 21000; GethReceipt.Status := 1;
     GethReceipt.Logs := [] |}.

Definition only_blocks (bs : list BlockRow) : Tables :=
  mkTables bs [] [] [] [] [] [].

(** ** Reading a trace *)

Inductive StmtKind :=
| InsertIntoBlocks | InsertIntoReceipts | InsertIntoLogs
| DeleteFromAccessLists | DeleteFromStateChanges | DeleteFromLogs
| DeleteFromTransactions | DeleteFromBlocks.

Definition kind_of (s : Stmt) : StmtKind :=
  match s with
  | InsertBlockQ _ => InsertIntoBlocks
  | InsertReceiptQ _ => InsertIntoReceipts
  | InsertLogQ _ => InsertIntoLogs
  | DeleteAccessListsQ _ => DeleteFromAccessLists
  | DeleteStateChangesQ _ => DeleteFromStateChanges
  | DeleteLogsQ _ => DeleteFromLogs
  | DeleteTransactionsQ _ => DeleteFromTransactions
  | DeleteBlocksQ _ => DeleteFromBlocks
  end.

(** The calls made on transactions, without their row values: which
    transaction, which statement, and whether the store accepted it. *)
Inductive Call :=
| Begin (tx : nat)
| Exec (tx : nat) (k : StmtKind) (ok : bool)
| Commit (tx : nat) (ok : bool)
| Rollback (tx : nat) (ok : bool).

Definition accepted (r : option sql_error) : bool :=
  match r with None => true | Some _ => false end.

Fixpoint calls (evs : list Event) : list Call :=
  match evs with
  | [] => []
  | EvBegin (inr tx) :: rest => Begin tx :: calls rest
  | EvExec tx s r :: rest => Exec tx (kind_of s) (accepted r) :: calls rest
  | EvCommit tx r :: rest => Commit tx (accepted r) :: calls rest
  | EvRollback tx r :: rest => Rollback tx (accepted r) :: calls rest
  | _ :: rest => calls rest
  end.

(** The numbers and hashes of the committed blocks. *)
Definition chain_of (c : Tables) : list (Z * string) :=
  map (fun b => (Block.Number (row b), Block.Hash (row b))) (blocks c).

(** ** Sample stores and deliveries *)

Definition stored (n : Z) (h parent : Hash) (fin : bool) : BlockRow :=
  mkBlockRow (full_block n h parent) fin.

(** Blocks 4 and 5, the latter finalized. *)
Definition finalized_store : Tables :=
  only_blocks [stored 4 "0x04" "0x03" false; stored 5 "0x05" "0x04" true].

(** Block 10 with one transaction and its receipt. *)
Definition receipt_store : Tables :=
  mkTables [stored 10 "0x0a" "0x09" false]
           [sample_transaction "0xt1" 10] []
           [derive_receipt (full_header 10 "0x0a" "0x09") 0 (sample_receipt "0xt1")]
           [] [] [].

(** Blocks 9 and 10; a reorg replaces block 10 by blocks 11' and 12',
    where 11' carries a receipt and 12' is empty. *)
Definition reorg_store : Tables :=
  only_blocks [stored 9 "0x09" "0x08" false; stored 10 "0x0a" "0x09" false].

Definition reorg_chain : BlockChain :=
  mkBlockChain (fun h => if String.eqb h "0x0b2"
                         then Some [sample_receipt "0xt9"] else None).

Definition reorg_plugin : IndexerPlugin.t :=
  IndexerPlugin.mk (Some idb0) (Some reorg_chain).

Definition reorg_old : list Header.t := [full_header 10 "0x0a" "0x09"].
Definition reorg_new : list Header.t :=
  [full_header 11 "0x0b2" "0x0a2"; full_header 12 "0x0c2" "0x0b2"].

(** Block 1 with transaction 0xt2; the head 2 carries receipts for 0xt1,
    which the transactions table does not have, and for 0xt2. *)
Definition head_store : Tables :=
  mkTables [stored 1 "0x01" "0x00" false] [sample_transaction "0xt2" 1]
           [] [] [] [] [].

Definition head_plugin : IndexerPlugin.t :=
  IndexerPlugin.mk (Some idb0)
    (Some (mkBlockChain (fun _ => Some [sample_receipt "0xt1"; sample_receipt "0xt2"]))).

(** A range delete in a transaction of its own, committed at once. *)
Definition delete_and_commit (n : Z) : Go (option error * option sql_error) :=
  r <- Beginx ;;
  match r with
  | inl e => ret (Some (SqlError e), Some e)
  | inr tx =>
      e <- DeleteBlockAndDescendantsWithTx idb0 tx n ;;
      c <- tx_Commit tx ;;
      ret (e, c)
  end.

(** ** The world after a transaction has moved on *)

(** [with_tx w tx t evs]: the world [w] where transaction [tx] has reached
    the write set [t] and the events [evs] have been added. *)
Definition with_tx (w : World) (tx : nat) (t : TxState) (evs : list Event) : World :=
  mkWorld (refused w) (committed w) (set_tx tx t (txs w)) (next_tx w) (closed w)
          (events w ++ evs)%list.

(** The committed tables after [OnHead] on an open pool, as a function
    of the committed tables before and of what the driver refuses. *)
Definition head_result (rf : Stmt -> bool) (p : IndexerPlugin.t)
  (header : Header.t) (c : Tables) : Tables :=
  match IndexerPlugin.db p with
  | None => c
  | Some _ =>
      match fst (derive_block header (new_world no_rows)) with
      | Panicked _ => c
      | Returned block =>
          match exec_result rf c fresh_tx (InsertBlockQ block) with
          | Some _ => c
          | None =>
              match IndexerPlugin.chain p with
              | None => c
              | Some chain =>
                  let t2 :=
                    receipts_steps rf c (tx_step rf c fresh_tx (InsertBlockQ block))
                      header
                      (range_of (GetReceiptsByHash chain (Header.hash header))) 0 in
                  if failed t2 then c else view c t2
              end
          end
      end
  end.

(** How [OnHead] ends on an open pool. *)
Definition head_outcome (rf : Stmt -> bool) (p : IndexerPlugin.t)
  (header : Header.t) (c : Tables) : outcome unit :=
  match IndexerPlugin.db p with
  | None => Returned tt
  | Some _ =>
      match fst (derive_block header (new_world no_rows)) with
      | Panicked pn => Panicked pn
      | Returned block =>
          match exec_result rf c fresh_tx (InsertBlockQ block) with
          | Some _ => Returned tt
          | None =>
              match IndexerPlugin.chain p with
              | None => Panicked NilPointerDereference
              | Some _ => Returned tt
              end
          end
      end
  end.

(** The first error among the statements [qs] sent in order on a
    transaction with write set [t], and the write set when the loop
    stops there. *)
Fixpoint queries_result (rf : Stmt -> bool) (c : Tables) (t : TxState)
  (qs : list Stmt) : option sql_error :=
  match qs with
  | [] => None
  | q :: rest =>
      match exec_result rf c t q with
      | Some e => Some e
      | None => queries_result rf c (tx_step rf c t q) rest
      end
  end.

Fixpoint queries_state (rf : Stmt -> bool) (c : Tables) (t : TxState)
  (qs : list Stmt) : TxState :=
  match qs with
  | [] => t
  | q :: rest =>
      match exec_result rf c t q with
      | Some _ => tx_step rf c t q
      | None => queries_state rf c (tx_step rf c t q) rest
      end
  end.

(** The rows a transaction has added beyond [t]. *)
Definition grown (t t' : TxState) (ls : list Log.t) (rs : list Receipt.t) : Prop :=
  deleted t' = deleted t
  /\ inserted t'
     = tables_plus (inserted t) (mkTables [] [] ls rs [] [] []).

(** Every cached entry is what a fetch of its key returns. *)
Definition fresh (getReceipts : Hash -> Receipts) (c : lru.Cache Receipts) : Prop :=
  forall k v, In (k, v) (lru.entries c) -> v = getReceipts k.

(** Block 1 with the transactions 0xt1 and 0xt2, and a driver that
    cannot send the receipt of 0xt1. *)
Definition two_tx_store : Tables :=
  mkTables [stored 1 "0x01" "0x00" false]
           [sample_transaction "0xt1" 1; sample_transaction "0xt2" 1]
           [] [] [] [] [].

Definition refuses_receipt_of (h : Hash) : Stmt -> bool :=
  fun s =>
    match s with
    | InsertReceiptQ r => String.eqb (Receipt.TransactionHash r) h
    | _ => false
    end.

Definition refusing_world : World :=
  mkWorld (refuses_receipt_of "0xt1") two_tx_store [] 0 false [].

(** ** The finalization watermark (core/db.go, lines 459 to 471) *)

(** What [db.Get] can answer besides a value: a value that does not fit
    the destination, or an error of the pool. *)
Inductive get_error :=
| ErrScan
| GetError (e : sql_error).

(** The [error] a read of the gateway returns: [fmt.Errorf(msg + ": %v",
    err)]. *)
Inductive read_error := ReadErrorf (msg : string) (cause : get_error).

Definition number_is (n : Z) (b : BlockRow) : bool := Block.Number (row b) =? n.

(** [MAX(number)] over the finalized rows; [None] is SQL's NULL. *)
Fixpoint max_finalized (bs : list BlockRow) : option Z :=
  match bs with
  | [] => None
  | b :: rest =>
      if finalized b
      then Some (match max_finalized rest with
                 | Some m => Z.max (Block.Number (row b)) m
                 | None => Block.Number (row b)
                 end)
      else max_finalized rest
  end.

(** [SELECT COALESCE(MAX(number), 0) FROM blocks WHERE finalized = true]
    scanned into a [uint64]: a negative value does not fit.  The
    [finalized] column is there, as it is after any [MarkBlockFinalized]. *)
Definition db_Get_latest_finalized : Go (get_error + Z) :=
  fun w =>
    if closed w then (Returned (inl (GetError ErrDBClosed)), w)
    else
      let v := match max_finalized (blocks (committed w)) with
               | Some m => m
               | None => 0
               end in
      if v <? 0 then (Returned (inl ErrScan), w)
      else (Returned (inr v), w).

Definition GetLatestFinalizedBlock (idb : IndexerDB.t)
  : Go (Z * option read_error) :=
  r <- db_Get_latest_finalized ;;
  match r with
  | inl e => ret (0, Some (ReadErrorf "error getting latest finalized block" e))
  | inr blockNumber => ret (blockNumber, None)
  end.

(** A block at height 10 that competes with the stored one. *)
Definition fork_header : Header.t := full_header 10 "0x0a_fork" "0x09".

(** The rows [v] hold nothing numbered [n] or higher in the four tables
    the range delete filters by block number. *)
Definition clear_from (n : Z) (v : Tables) : Prop :=
  (forall x, In x (transactions v) -> Transaction.BlockNumber x < n)
  /\ (forall x, In x (logs v) -> Log.BlockNumber x < n)
  /\ (forall x, In x (state_changes v) -> StateChange.BlockNumber x < n)
  /\ (forall x, In x (blocks v) -> Block.Number (row x) < n).

(** [receipts != nil]. *)
Definition not_nil (receipts : Receipts) : bool :=
  match receipts with
  | Some _ => true
  | None => false
  end.

(** The genesis block and its child, neither finalized. *)
Definition zero_store : Tables :=
  only_blocks [stored 0 "0x00" "0x" false; stored 1 "0x01" "0x00" false].

(** A head whose two receipts, for the stored transactions 0xt1 and
    0xt2, carry one log each. *)
Definition sample_log (i : Z) : GethLog.t :=
  {| GethLog.Address := "0xcontract"; GethLog.Topics := ["0xtopic"];
     GethLog.Data := []; GethLog.Index := i |}.

Definition logged_receipt (txHash : Hash) (i : Z) : GethReceipt.t :=
  {| GethReceipt.TxHash := txHash; GethReceipt.ContractAddress := "0x0";
     GethReceipt.GasUsed := 21000; GethReceipt.Status := 1;
     GethReceipt.Logs := [sample_log i] |}.

Definition graph_receipts : list GethReceipt.t :=
  [logged_receipt "0xt1" 0; logged_receipt "0xt2" 1].

Definition graph_plugin : IndexerPlugin.t :=
  IndexerPlugin.mk (Some idb0) (Some (mkBlockChain (fun _ => Some graph_receipts))).

(** The four pointers of the header that [OnHead] dereferences are all
    there. *)
Definition carries_optional_fields (header : Header.t) : bool :=
  is_some (Header.BlobGasUsed header)
  && is_some (Header.ExcessBlobGas header)
  && is_some (Header.ParentBeaconRoot header)
  && is_some (Header.WithdrawalsHash header).

(** Nothing of the range from [n] on in the two tables that point at
    blocks and transactions and that the range delete leaves alone or
    deletes last: no transaction row and no receipt row is numbered [n]
    or higher. *)
Definition range_is_free (n : Z) (v : Tables) : Prop :=
  (forall x, In x (transactions v) -> Transaction.BlockNumber x < n)
  /\ (forall r, In r (receipts v) -> Receipt.BlockNumber r < n).

(** The block is numbered below every number of [ns]. *)
Definition below_all (ns : list Z) (b : BlockRow) : bool :=
  forallb (fun n => Block.Number (row b) <? n) ns.

(** [header.Number.Uint64()] of every old header, in order. *)
Definition old_numbers (hs : list Header.t) : list Z :=
  map (fun h => Uint64 (Header.Number h)) hs.

(** No handle the pool has yet to hand out is in use. *)
Definition registry_fresh (w : World) : Prop :=
  forall id, (next_tx w <= id)%nat -> find_tx id (txs w) = None.

(** The header takes neither the number nor the hash of a stored block:
    its insert has no key in common with a row that an open transaction
    has deleted. *)
Definition takes_no_stored_key (c : Tables) (h : Header.t) : Prop :=
  has_block_number c (Uint64 (Header.Number h)) = false
  /\ has_block_hash c (Header.hash h) = false.

(** The write set of the reorg's transaction after the range deletes
    from the numbers [done]: it has inserted nothing and deleted no
    receipt, what it sees of the blocks are the committed ones below all
    of [done], and rows committed meanwhile are not in its way. *)
Definition reorg_inv (c : Tables) (t : TxState) (done : list Z) : Prop :=
  failed t = false
  /\ inserted t = no_rows
  /\ receipts (deleted t) = []
  /\ (forall x, In x (transactions (view c t)) -> In x (transactions c))
  /\ (forall a, minus BlockRow_eq_dec (blocks c ++ a) (blocks (deleted t))
                = (minus BlockRow_eq_dec (blocks c) (blocks (deleted t)) ++ a)%list)
  /\ minus BlockRow_eq_dec (blocks c) (blocks (deleted t))
     = filter (below_all done) (blocks c).

(** * Properties *)

Unset Implicit Arguments.

(** ** Receipt cache *)

Section CacheFacts.
Variable getReceipts : Hash -> Receipts.

Lemma lookup_in (k : Hash) (l : list (Hash * Receipts)) (v : Receipts) :
  lru.lookup k l = Some v -> In (k, v) l.
Proof.
  induction l as [|[k' v'] r IH]; simpl; [discriminate|].
  destruct (String.eqb_spec k' k) as [->|_].
  - intros [= ->]. now left.
  - intros H. right. now apply IH.
Qed.

Lemma in_remove_key (k k' : Hash) (v : Receipts) (l : list (Hash * Receipts)) :
  In (k', v) (lru.remove_key k l) -> In (k', v) l.
Proof. unfold lru.remove_key. intros H. now apply filter_In in H. Qed.

Lemma in_firstn (n : nat) (l : list (Hash * Receipts)) (e : Hash * Receipts) :
  In e (firstn n l) -> In e l.
Proof.
  intros H. rewrite <- (firstn_skipn n l). apply in_or_app. now left.
Qed.

Lemma fresh_new : fresh getReceipts receiptsCache0.
Proof. intros k v []. Qed.

Lemma fresh_Get (c : lru.Cache Receipts) (k : Hash) :
  fresh getReceipts c -> fresh getReceipts (snd (lru.Get c k)).
Proof.
  intros F. unfold lru.Get.
  destruct (lru.lookup k (lru.entries c)) as [v|] eqn:L; simpl; [|exact F].
  intros k' v' [E|I].
  - inversion E; subst. apply F. now apply lookup_in.
  - apply F. eapply in_remove_key; eassumption.
Qed.

Lemma fresh_Add (c : lru.Cache Receipts) (k : Hash) :
  fresh getReceipts c -> fresh getReceipts (lru.Add c k (getReceipts k)).
Proof.
  intros F k' v' [E|I].
  - now inversion E.
  - apply F. apply in_remove_key with (k := k).
    destruct (Nat.leb _ _) in I; [eapply in_firstn|]; eassumption.
Qed.

Lemma fresh_GetBlockReceipts (c : lru.Cache Receipts) (h : Hash) (n : Z) :
  fresh getReceipts c -> fresh getReceipts (snd (GetBlockReceipts getReceipts h n c)).
Proof.
  intros F. unfold GetBlockReceipts.
  pose proof (fresh_Get c h F) as FG.
  destruct (lru.Get c h) as [[v|] c'] eqn:G; simpl in *; [exact FG|].
  destruct (getReceipts h) eqn:R; simpl; [|exact FG].
  rewrite <- R. now apply fresh_Add.
Qed.

Lemma fresh_after_calls (calls : list (Hash * Z)) (c : lru.Cache Receipts) :
  fresh getReceipts c -> fresh getReceipts (after_calls getReceipts calls c).
Proof.
  revert c. induction calls as [|[h n] rest IH]; intros c F; simpl; [exact F|].
  apply IH. now apply fresh_GetBlockReceipts.
Qed.

Lemma GetBlockReceipts_fresh (c : lru.Cache Receipts) (h : Hash) (n : Z) :
  fresh getReceipts c -> fst (GetBlockReceipts getReceipts h n c) = getReceipts h.
Proof.
  intros F. unfold GetBlockReceipts, lru.Get.
  destruct (lru.lookup h (lru.entries c)) as [v|] eqn:L; simpl.
  - apply F. now apply lookup_in.
  - now destruct (getReceipts h).
Qed.

(** The cache never holds more than its capacity. *)
Lemma remove_key_length (k : Hash) (l : list (Hash * Receipts)) :
  (length (lru.remove_key k l) <= length l)%nat.
Proof. apply filter_length_le. Qed.
End CacheFacts.

(** C9.  With one fetch function throughout, [GetBlockReceipts] returns
    exactly what the fetch function returns for the hash, after any
    sequence of earlier calls, whether the answer comes out of the cache
    or is fetched. *)
Theorem GetBlockReceipts_never_stale :
  forall (getReceipts : Hash -> Receipts) (calls : list (Hash * Z))
         (hash : Hash) (number : Z),
    fst (GetBlockReceipts getReceipts hash number
           (after_calls getReceipts calls receiptsCache0))
    = getReceipts hash.
Proof.
  intros g calls h n. apply GetBlockReceipts_fresh.
  apply fresh_after_calls, fresh_new.
Qed.

(** ** Calls on a plugin without a database *)

Lemma NewIndexerPlugin_nil (w : World) :
  fst (NewIndexerPlugin None w) = Returned nil_plugin.
Proof. reflexivity. Qed.

Lemma OnInit_nil_plugin (bc : BlockChain) (w : World) :
  fst (OnInit nil_plugin bc w) = Returned nil_plugin.
Proof. reflexivity. Qed.

Lemma OnReorg_nil_plugin (old new : list Header.t) (w : World) :
  exists pn w', OnReorg nil_plugin old new w = (Panicked pn, w')
                /\ committed w' = committed w.
Proof.
  destruct old as [|o os]; [now exists IndexOutOfRange, w|].
  destruct new as [|n ns]; [now exists IndexOutOfRange, w|].
  now eexists NilPointerDereference, _.
Qed.

(** C10.  The plugin built without a database ignores heads and
    finalizations, leaving the world as it was, while [OnClose] and
    [OnReorg] reach for the database without a check and fault. *)
Theorem nil_database_guard_covers_head_and_final_only :
  (forall w, fst (NewIndexerPlugin None w) = Returned nil_plugin)
  /\ (forall header w, OnHead nil_plugin header w = (Returned tt, w))
  /\ (forall header w, OnFinal nil_plugin header w = (Returned tt, w))
  /\ (forall w, fst (OnClose nil_plugin w) = Panicked NilPointerDereference)
  /\ (forall o os n ns w,
         fst (OnReorg nil_plugin (o :: os) (n :: ns) w)
         = Panicked NilPointerDereference)
  /\ (forall old new w, exists pn w',
         OnReorg nil_plugin old new w = (Panicked pn, w')
         /\ committed w' = committed w).
Proof.
  repeat split; try reflexivity.
  intros old new w. apply OnReorg_nil_plugin.
Qed.

(** C8.  [OnClose] on the plugin that [NewIndexerPlugin(nil)] returns
    does not release anything: it faults on the nil database handle. *)
Theorem OnClose_without_database_faults :
  fst (NewIndexerPlugin None (new_world no_rows)) = Returned nil_plugin
  /\ OnClose nil_plugin (new_world no_rows)
     = (Panicked NilPointerDereference,
        emit (EvLog LvlInfo "Closing indexer plugin") (new_world no_rows)).
Proof. split; reflexivity. Qed.

(** With a database, closing is idempotent: the second [OnClose] returns
    and leaves the pool closed and the tables as they were. *)
Lemma OnClose_with_database (idb : IndexerDB.t) (c : option BlockChain) (w : World) :
  let p := IndexerPlugin.mk (Some idb) c in
  let w1 := snd (OnClose p w) in
  let w2 := snd (OnClose p w1) in
  fst (OnClose p w) = Returned tt /\ fst (OnClose p w1) = Returned tt
  /\ closed w1 = true /\ closed w2 = true
  /\ committed w1 = committed w /\ committed w2 = committed w.
Proof. repeat split; reflexivity. Qed.

(** ** Finalization *)

Lemma set_finalized_idem (n : Z) (b : BlockRow) :
  set_finalized n (set_finalized n b) = set_finalized n b.
Proof.
  unfold set_finalized. destruct (Block.Number (row b) =? n) eqn:E; simpl.
  - now rewrite E.
  - now rewrite E.
Qed.

Lemma set_finalized_absent (n : Z) (bs : list BlockRow) :
  existsb (fun b => Block.Number (row b) =? n) bs = false ->
  map (set_finalized n) bs = bs.
Proof.
  induction bs as [|b r IH]; simpl; [reflexivity|].
  intros H. apply orb_false_iff in H as [Hb Hr].
  unfold set_finalized at 1. rewrite Hb. now rewrite IH.
Qed.

Lemma set_finalized_sets (n : Z) (bs : list BlockRow) (b : BlockRow) :
  In b (map (set_finalized n) bs) -> Block.Number (row b) = n -> finalized b = true.
Proof.
  intros I E. apply in_map_iff in I as [b0 [<- _]].
  unfold set_finalized in *.
  destruct (Block.Number (row b0) =? n) eqn:T; [reflexivity|].
  apply Z.eqb_neq in T. contradiction.
Qed.

Lemma set_finalized_others (n : Z) (b : BlockRow) :
  Block.Number (row b) <> n -> set_finalized n b = b.
Proof. intros H. unfold set_finalized. now apply Z.eqb_neq in H as ->. Qed.

Lemma with_blocks_same (c : Tables) : with_blocks c (blocks c) = c.
Proof. now destruct c. Qed.

Lemma MarkBlockFinalized_open (idb : IndexerDB.t) (n : Z) (w : World) :
  closed w = false ->
  high_bit_set n = false ->
  MarkBlockFinalized idb n w
  = (Returned None,
     mkWorld (refused w)
             (with_blocks (committed w) (map (set_finalized n) (blocks (committed w))))
             (txs w) (next_tx w) false
             (events w ++ [EvDbExec AlterAddFinalizedQ None;
                           EvDbExec (UpdateFinalizedQ n) None])%list).
Proof.
  intros H B. destruct w as [rf c t nx cl ev]. simpl in H. subst cl.
  unfold MarkBlockFinalized, bind, db_Exec, emit, ret. simpl. rewrite B. simpl.
  now rewrite <- app_assoc.
Qed.

Lemma MarkBlockFinalized_refused (idb : IndexerDB.t) (n : Z) (w : World) :
  closed w = false ->
  high_bit_set n = true ->
  MarkBlockFinalized idb n w
  = (Returned (Some (Errorf "error marking block as finalized"
                       (SqlError ErrConvertingArgument))),
     mkWorld (refused w) (committed w) (txs w) (next_tx w) false
             (events w ++ [EvDbExec AlterAddFinalizedQ None;
                           EvDbExec (UpdateFinalizedQ n)
                                    (Some ErrConvertingArgument)])%list).
Proof.
  intros H B. destruct w as [rf c t nx cl ev]. simpl in H. subst cl.
  unfold MarkBlockFinalized, bind, db_Exec, emit, ret. simpl. rewrite B. simpl.
  now rewrite <- app_assoc.
Qed.

Lemma high_bit_clear (n : Z) : n < 2 ^ 63 -> high_bit_set n = false.
Proof. intros H. unfold high_bit_set. now apply Z.leb_gt. Qed.

Lemma high_bit_is_set (n : Z) : 2 ^ 63 <= n -> high_bit_set n = true.
Proof. intros H. unfold high_bit_set. now apply Z.leb_le. Qed.

Lemma OnFinal_open (idb : IndexerDB.t) (chain : option BlockChain)
  (header : Header.t) (w : World) :
  closed w = false ->
  let n := Uint64 (Header.Number header) in
  OnFinal (IndexerPlugin.mk (Some idb) chain) header w
  = if high_bit_set n
    then (Returned tt,
          mkWorld (refused w) (committed w) (txs w) (next_tx w) false
            (events w
             ++ [EvLog LvlInfo "Indexer processing finalized block";
                 EvDbExec AlterAddFinalizedQ None;
                 EvDbExec (UpdateFinalizedQ n) (Some ErrConvertingArgument);
                 EvLog LvlError "Failed to mark block as finalized"])%list)
    else (Returned tt,
          mkWorld (refused w)
            (with_blocks (committed w) (map (set_finalized n) (blocks (committed w))))
            (txs w) (next_tx w) false
            (events w
             ++ [EvLog LvlInfo "Indexer processing finalized block";
                 EvDbExec AlterAddFinalizedQ None;
                 EvDbExec (UpdateFinalizedQ n) None;
                 EvLog LvlInfo "Successfully marked block as finalized"])%list).
Proof.
  intros H n. unfold OnFinal. cbn [IndexerPlugin.db].
  unfold bind at 1. unfold log_Info at 1. unfold bind. fold n.
  destruct (high_bit_set n) eqn:B.
  - rewrite MarkBlockFinalized_refused by (exact H || exact B).
    unfold log_Error, emit. cbn. now rewrite <- !app_assoc.
  - rewrite MarkBlockFinalized_open by (exact H || exact B).
    unfold log_Info, emit. cbn. now rewrite <- !app_assoc.
Qed.

(** C7, as the code has it.  On an open pool and for a block number
    below 2^63, [MarkBlockFinalized] returns nil: it sets the flag on
    every row with the given number and on no other row, doing it again
    changes nothing, and when no block has the number the tables stay as
    they were, the call still reports success and [OnFinal] logs the
    finalization as done.  A number from 2^63 on never reaches the
    server: the call returns the conversion error, which is no NotFound
    either, and changes nothing. *)
Theorem MarkBlockFinalized_sets_flag_without_NotFound :
  forall (idb : IndexerDB.t) (n : Z) (w : World),
    closed w = false ->
    let w1 := snd (MarkBlockFinalized idb n w) in
    (n < 2 ^ 63 ->
     fst (MarkBlockFinalized idb n w) = Returned None
     /\ blocks (committed w1) = map (set_finalized n) (blocks (committed w))
     /\ committed w1 = with_blocks (committed w) (blocks (committed w1))
     /\ (forall b, In b (blocks (committed w1)) ->
                   Block.Number (row b) = n -> finalized b = true)
     /\ (forall b, Block.Number (row b) <> n -> set_finalized n b = b)
     /\ fst (MarkBlockFinalized idb n w1) = Returned None
     /\ committed (snd (MarkBlockFinalized idb n w1)) = committed w1
     /\ (has_block_number (committed w) n = false -> committed w1 = committed w)
     /\ (forall (chain : option BlockChain) (header : Header.t),
           Uint64 (Header.Number header) = n ->
           has_block_number (committed w) n = false ->
           OnFinal (IndexerPlugin.mk (Some idb) chain) header w
           = (Returned tt,
              mkWorld (refused w) (committed w) (txs w) (next_tx w) false
                (events w
                 ++ [EvLog LvlInfo "Indexer processing finalized block";
                     EvDbExec AlterAddFinalizedQ None;
                     EvDbExec (UpdateFinalizedQ n) None;
                     EvLog LvlInfo "Successfully marked block as finalized"])%list)))
    /\ (2 ^ 63 <= n ->
        fst (MarkBlockFinalized idb n w)
        = Returned (Some (Errorf "error marking block as finalized"
                            (SqlError ErrConvertingArgument)))
        /\ committed w1 = committed w).
Proof.
  intros idb n w H. cbv zeta. split.
  - intros L. pose proof (high_bit_clear n L) as B.
    rewrite (MarkBlockFinalized_open idb n w H B). cbn [fst snd committed].
    split; [reflexivity|]. split; [now destruct (committed w)|].
    split; [now destruct (committed w)|].
    split; [intros b I E; destruct (committed w); cbn in I;
            eapply set_finalized_sets; eassumption|].
    split; [apply set_finalized_others|].
    rewrite MarkBlockFinalized_open by (reflexivity || exact B).
    cbn [fst snd committed].
    split; [reflexivity|]. split; [|split].
    + destruct (committed w); unfold with_blocks; cbn.
      f_equal. rewrite map_map. apply map_ext, set_finalized_idem.
    + intros A. unfold has_block_number in A.
      rewrite set_finalized_absent by exact A. apply with_blocks_same.
    + intros chain header E A. rewrite (OnFinal_open idb chain header w H).
      cbv zeta. rewrite E, B.
      unfold has_block_number in A. rewrite set_finalized_absent by exact A.
      now rewrite with_blocks_same.
  - intros L. pose proof (high_bit_is_set n L) as B.
    rewrite (MarkBlockFinalized_refused idb n w H B). split; reflexivity.
Qed.

(** The theorem at work on a store that holds block 7: the call for 7
    returns nil, the call for 2^63 returns the conversion error. *)
Lemma MarkBlockFinalized_sets_flag_witness :
  closed (new_world (only_blocks [mkBlockRow (full_block 7 "0x07" "0x06") false])) = false
  /\ 7 < 2 ^ 63
  /\ fst (MarkBlockFinalized idb0 7
            (new_world (only_blocks [mkBlockRow (full_block 7 "0x07" "0x06") false])))
     = Returned None
  /\ fst (MarkBlockFinalized idb0 (2 ^ 63)
            (new_world (only_blocks [mkBlockRow (full_block 7 "0x07" "0x06") false])))
     = Returned (Some (Errorf "error marking block as finalized"
                         (SqlError ErrConvertingArgument))).
Proof.
  split; [reflexivity|]. split; [reflexivity|]. split.
  - exact (proj1 (proj1 (MarkBlockFinalized_sets_flag_without_NotFound idb0 7
                    (new_world (only_blocks [mkBlockRow (full_block 7 "0x07" "0x06") false]))
                    eq_refl) eq_refl)).
  - exact (proj1 (proj2 (MarkBlockFinalized_sets_flag_without_NotFound idb0 (2 ^ 63)
                    (new_world (only_blocks [mkBlockRow (full_block 7 "0x07" "0x06") false]))
                    eq_refl) (Z.le_refl (2 ^ 63)))).
Defined.

(** C7 as stated fails: finalizing a block that was never indexed is not
    an error.  On empty tables [MarkBlockFinalized(7)] returns nil and
    [OnFinal] logs success. *)
Lemma MarkBlockFinalized_absent_block_is_not_an_error :
  has_block_number no_rows 7 = false
  /\ fst (MarkBlockFinalized idb0 7 (new_world no_rows)) = Returned None
  /\ OnFinal (IndexerPlugin.mk (Some idb0) None) (full_header 7 "0x07" "0x06")
             (new_world no_rows)
     = (Returned tt,
        mkWorld sends_all no_rows [] 0 false
          [EvLog LvlInfo "Indexer processing finalized block";
           EvDbExec AlterAddFinalizedQ None;
           EvDbExec (UpdateFinalizedQ 7) None;
           EvLog LvlInfo "Successfully marked block as finalized"]).
Proof. repeat split; vm_compute; reflexivity. Qed.

(** ** Record derivation *)

Lemma derive_block_world (header : Header.t) (w : World) :
  derive_block header w = (fst (derive_block header (new_world no_rows)), w).
Proof.
  unfold derive_block.
  destruct (Header.BlobGasUsed header), (Header.ExcessBlobGas header),
    (Header.ParentBeaconRoot header), (Header.WithdrawalsHash header);
    reflexivity.
Qed.

Lemma derive_block_faults (header : Header.t) (w : World) :
  Header.BlobGasUsed header = None \/ Header.ExcessBlobGas header = None
  \/ Header.ParentBeaconRoot header = None \/ Header.WithdrawalsHash header = None ->
  derive_block header w = (Panicked NilPointerDereference, w).
Proof.
  unfold derive_block.
  destruct (Header.BlobGasUsed header), (Header.ExcessBlobGas header),
    (Header.ParentBeaconRoot header), (Header.WithdrawalsHash header);
    intros [H|[H|[H|H]]]; try discriminate; reflexivity.
Qed.

(** Where the derivation completes, the base fee keeps the difference
    between absent and zero. *)
Lemma derive_block_base_fee (header : Header.t) (w : World) (b : Block.t) :
  derive_block header w = (Returned b, w) ->
  Block.BaseFeePerGas b
  = sql.mkNullString (BigInt_String (Header.BaseFee header))
                     (is_some (Header.BaseFee header)).
Proof.
  unfold derive_block.
  destruct (Header.BlobGasUsed header), (Header.ExcessBlobGas header),
    (Header.ParentBeaconRoot header), (Header.WithdrawalsHash header);
    cbn; intros E; inversion E; reflexivity.
Qed.

(** C6.  A header from before the fee market, with its optional fields
    absent, makes the [Block] literal of [OnHead] fault: the blob-gas
    pointer is dereferenced before its [Valid] flag is looked at.  The
    transaction opened for the head is rolled back by the deferred call
    and nothing is stored.  A header that has the fields is derived. *)
Theorem OnHead_faults_on_absent_optional_fields :
  let p := IndexerPlugin.mk (Some idb0) (Some (mkBlockChain (fun _ => None))) in
  let header := legacy_header 100 "0xaa" "0x99" in
  Header.BaseFee header = None
  /\ fst (derive_block header (new_world no_rows)) = Panicked NilPointerDereference
  /\ OnHead p header (new_world no_rows)
     = (Panicked NilPointerDereference,
        mkWorld sends_all no_rows [] 1 false
          [EvLog LvlInfo "Indexer processing new head block";
           EvBegin (inr 0%nat);
           EvRollback 0 None])
  /\ fst (derive_block (full_header 100 "0xaa" "0x99") (new_world no_rows))
     = Returned (full_block 100 "0xaa" "0x99")
  /\ Block.BaseFeePerGas (full_block 100 "0xaa" "0x99") = sql.mkNullString "7" true.
Proof. repeat split; vm_compute; reflexivity. Qed.

(** ** Range delete, reorg and head on sample stores *)

(** C2 as stated fails: with block 5 finalized, the range delete from 5
    reports no error and removes the block, and a reorg whose old
    headers contain block 5 goes through and commits the removal. *)
Lemma finalized_block_is_deleted :
  existsb (fun b => block_in_range 5 b && finalized b) (blocks finalized_store) = true
  /\ fst (delete_and_commit 5 (new_world finalized_store)) = Returned (None, None)
  /\ chain_of (committed (snd (delete_and_commit 5 (new_world finalized_store))))
     = [(4, "0x04")]
  /\ fst (OnReorg reorg_plugin [full_header 5 "0x05" "0x04"]
                  [full_header 6 "0x06b" "0x05b"] (new_world finalized_store))
     = Returned tt
  /\ chain_of (committed (snd (OnReorg reorg_plugin [full_header 5 "0x05" "0x04"]
                                 [full_header 6 "0x06b" "0x05b"]
                                 (new_world finalized_store))))
     = [(4, "0x04"); (6, "0x06b")].
Proof. repeat split; vm_compute; reflexivity. Qed.

(** C3.  The range delete issues five statements and none of them
    touches [receipts].  With block 10 holding a transaction and its
    receipt, the delete of the transactions breaks the receipt's foreign
    key: the call fails, the transaction cannot commit, and block 10
    with its rows stays. *)
Theorem range_delete_misses_receipts :
  map kind_of (deleteQueries 10)
  = [DeleteFromAccessLists; DeleteFromStateChanges; DeleteFromLogs; DeleteFromTransactions; DeleteFromBlocks]
  /\ fst (delete_and_commit 10 (new_world receipt_store))
     = Returned (Some (Errorf "error executing delete query"
                         (SqlError (ForeignKeyViolation "transactions"))),
                 Some ErrInFailedTransaction)
  /\ calls (events (snd (delete_and_commit 10 (new_world receipt_store))))
     = [Begin 0; Exec 0 DeleteFromAccessLists true; Exec 0 DeleteFromStateChanges true;
        Exec 0 DeleteFromLogs true; Exec 0 DeleteFromTransactions false; Commit 0 false]
  /\ committed (snd (delete_and_commit 10 (new_world receipt_store))) = receipt_store.
Proof. repeat split; vm_compute; reflexivity. Qed.

(** C1.  [OnReorg] deletes in transaction 0 and hands every new header
    to [OnHead], which opens a transaction of its own (1, then 2) and
    commits it before transaction 0 commits.  When the receipt of block
    11' is refused, block 11' is dropped, block 12' is committed, and
    the old block 10 is deleted: neither the chain before the reorg nor
    the new chain. *)
Theorem reorg_is_not_one_transaction :
  chain_of reorg_store = [(9, "0x09"); (10, "0x0a")]
  /\ fst (OnReorg reorg_plugin reorg_old reorg_new (new_world reorg_store)) = Returned tt
  /\ calls (events (snd (OnReorg reorg_plugin reorg_old reorg_new (new_world reorg_store))))
     = [Begin 0;
        Exec 0 DeleteFromAccessLists true; Exec 0 DeleteFromStateChanges true;
        Exec 0 DeleteFromLogs true; Exec 0 DeleteFromTransactions true;
        Exec 0 DeleteFromBlocks true;
        Begin 1; Exec 1 InsertIntoBlocks true; Exec 1 InsertIntoReceipts false;
        Commit 1 false; Rollback 1 false;
        Begin 2; Exec 2 InsertIntoBlocks true; Commit 2 true; Rollback 2 false;
        Commit 0 true; Rollback 0 false]
  /\ chain_of (committed (snd (OnReorg reorg_plugin reorg_old reorg_new
                                 (new_world reorg_store))))
     = [(9, "0x09"); (12, "0x0c2")].
Proof. repeat split; vm_compute; reflexivity. Qed.

(** ** Transactions in the registry *)

Lemma find_set_tx (id : nat) (t t0 : TxState) (l : list (nat * TxState)) :
  find_tx id l = Some t0 -> find_tx id (set_tx id t l) = Some t.
Proof.
  induction l as [|[k u] r IH]; simpl; [discriminate|].
  destruct (Nat.eqb k id) eqn:E; simpl; rewrite E; auto.
Qed.

Lemma set_set_tx (id : nat) (t1 t2 : TxState) (l : list (nat * TxState)) :
  set_tx id t2 (set_tx id t1 l) = set_tx id t2 l.
Proof.
  induction l as [|[k u] r IH]; simpl; [reflexivity|].
  destruct (Nat.eqb k id) eqn:E; simpl; rewrite E; [reflexivity|now rewrite IH].
Qed.

Lemma set_tx_same (id : nat) (t : TxState) (l : list (nat * TxState)) :
  find_tx id l = Some t -> set_tx id t l = l.
Proof.
  induction l as [|[k u] r IH]; simpl; [reflexivity|].
  destruct (Nat.eqb k id) eqn:E.
  - now intros [= ->].
  - intros H. now rewrite IH.
Qed.

Lemma with_tx_nil (w : World) (tx : nat) (t : TxState) :
  find_tx tx (txs w) = Some t -> with_tx w tx t [] = w.
Proof.
  intros H. unfold with_tx. rewrite (set_tx_same _ _ _ H), app_nil_r.
  now destruct w.
Qed.

Lemma with_tx_twice (w : World) (tx : nat) (t1 t2 : TxState) (e1 e2 : list Event) :
  with_tx (with_tx w tx t1 e1) tx t2 e2 = with_tx w tx t2 (e1 ++ e2).
Proof. unfold with_tx; simpl. now rewrite set_set_tx, app_assoc. Qed.

Lemma with_tx_emit (w : World) (tx : nat) (t : TxState) (evs : list Event) (e : Event) :
  emit e (with_tx w tx t evs) = with_tx w tx t (evs ++ [e]).
Proof. unfold emit, with_tx; simpl. now rewrite app_assoc. Qed.

Lemma find_with_tx (w : World) (tx : nat) (t t0 : TxState) (evs : list Event) :
  find_tx tx (txs w) = Some t0 -> find_tx tx (txs (with_tx w tx t evs)) = Some t.
Proof. intros H. simpl. eapply find_set_tx; eassumption. Qed.

Lemma tx_Exec_found (tx : nat) (s : Stmt) (w : World) (t : TxState) :
  find_tx tx (txs w) = Some t ->
  tx_Exec tx s w
  = (Returned (exec_result (refused w) (committed w) t s),
     with_tx w tx (tx_step (refused w) (committed w) t s)
             [EvExec tx s (exec_result (refused w) (committed w) t s)]).
Proof. intros H. unfold tx_Exec. now rewrite H. Qed.

Lemma tx_Exec_done (tx : nat) (s : Stmt) (w : World) :
  find_tx tx (txs w) = None ->
  fst (tx_Exec tx s w) = Returned (Some ErrTxDone).
Proof. intros H. unfold tx_Exec. now rewrite H. Qed.

(** A transaction that has failed stays failed. *)
Lemma tx_step_failed (rf : Stmt -> bool) (c : Tables) (t : TxState) (s : Stmt) :
  failed t = true -> tx_step rf c t s = t.
Proof. intros H. unfold tx_step. rewrite H. now destruct (rf s). Qed.

Lemma exec_result_ok (rf : Stmt -> bool) (c : Tables) (t : TxState) (s : Stmt) :
  exec_result rf c t s = None ->
  rf s = false /\ failed t = false /\ check_stmt (view c t) s = None
  /\ tx_step rf c t s = apply_stmt c t s.
Proof.
  unfold exec_result, tx_step. destruct (rf s); [discriminate|].
  destruct (failed t); [discriminate|].
  intros H. now rewrite H.
Qed.

(** An error makes no difference to the rows of the write set: the
    statement was refused by the driver, or the transaction is aborted. *)
Lemma exec_result_err (rf : Stmt -> bool) (c : Tables) (t : TxState) (s : Stmt)
  (e : sql_error) :
  exec_result rf c t s = Some e ->
  deleted (tx_step rf c t s) = deleted t
  /\ inserted (tx_step rf c t s) = inserted t
  /\ (rf s = false -> failed (tx_step rf c t s) = true).
Proof.
  unfold exec_result, tx_step. destruct (rf s); [now intros _|].
  destruct (failed t) eqn:F; [now intros _|].
  intros ->. now cbn.
Qed.

(** ** Multiset difference *)

Section MultisetFacts.
Variable A : Type.
Variable eq_dec : forall a b : A, {a = b} + {a <> b}.
Variable P : A -> bool.

Lemma minus_nil (l : list A) : minus eq_dec l [] = l.
Proof. reflexivity. Qed.

Lemma minus_app (l a b : list A) :
  minus eq_dec l (a ++ b) = minus eq_dec (minus eq_dec l a) b.
Proof. unfold minus. apply fold_left_app. Qed.

Lemma minus_cons_kept (y : A) (dels r : list A) :
  P y = false -> Forall (fun d => P d = true) dels ->
  minus eq_dec (y :: r) dels = y :: minus eq_dec r dels.
Proof.
  intros Hy. revert r.
  induction dels as [|d ds IH]; intros r Hd; [reflexivity|].
  inversion Hd as [|? ? Pd Hds]; subst.
  unfold minus in *. simpl.
  destruct (eq_dec d y) as [->|_]; [congruence|].
  now apply IH.
Qed.

Lemma filter_all (m : list A) : Forall (fun d => P d = true) (filter P m).
Proof. apply Forall_forall. intros x H. now apply filter_In in H. Qed.

Lemma minus_filter (m : list A) :
  minus eq_dec m (filter P m) = filter (fun x => negb (P x)) m.
Proof.
  induction m as [|y r IH]; [reflexivity|]. simpl.
  destruct (P y) eqn:Py; simpl.
  - unfold minus in *. simpl. destruct (eq_dec y y); [exact IH|contradiction].
  - rewrite minus_cons_kept by (auto using filter_all). now rewrite IH.
Qed.

(** After a delete, no visible row satisfies the predicate. *)
Lemma delete_leaves_none (c d i : list A) (x : A) :
  In x (minus eq_dec c (delete_committed eq_dec P c d) ++ delete_own P i) ->
  P x = false.
Proof.
  unfold delete_committed, delete_own. rewrite minus_app, minus_filter.
  intros H. apply in_app_or in H as [H|H];
    apply filter_In in H as [_ H]; now apply negb_true_iff in H.
Qed.
End MultisetFacts.

(** ** The range delete *)

Lemma exec_queries_run (tx : nat) (qs : list Stmt) :
  forall (w : World) (t : TxState),
    find_tx tx (txs w) = Some t ->
    exists evs,
      exec_queries tx qs w
      = (Returned (wrap "error executing delete query"
                        (queries_result (refused w) (committed w) t qs)),
         with_tx w tx (queries_state (refused w) (committed w) t qs) evs).
Proof.
  induction qs as [|q r IH]; intros w t F; simpl.
  - exists []. unfold ret. now rewrite with_tx_nil.
  - unfold bind. rewrite (tx_Exec_found _ _ _ _ F).
    destruct (exec_result (refused w) (committed w) t q) as [e|] eqn:E.
    + eexists. reflexivity.
    + destruct (IH (with_tx w tx (tx_step (refused w) (committed w) t q)
                      [EvExec tx q None]) (tx_step (refused w) (committed w) t q))
        as [evs Hev].
      { eapply find_with_tx; eassumption. }
      rewrite Hev. rewrite with_tx_twice. eexists. reflexivity.
Qed.

(** No statement of the range delete touches the receipts of the write
    set. *)
Lemma delete_step_keeps_receipts (rf : Stmt -> bool) (c : Tables) (n : Z)
  (s : Stmt) (t : TxState) :
  In s (deleteQueries n) ->
  receipts (deleted (tx_step rf c t s)) = receipts (deleted t)
  /\ receipts (inserted (tx_step rf c t s)) = receipts (inserted t).
Proof.
  unfold deleteQueries. cbn [In].
  intros [<-|[<-|[<-|[<-|[<-|[]]]]]]; unfold tx_step;
    (destruct (rf _); [auto|]); (destruct (failed t); [auto|]);
    destruct (check_stmt _ _); auto.
Qed.

Lemma queries_state_keeps_receipts (rf : Stmt -> bool) (c : Tables) (n : Z)
  (qs : list Stmt) :
  incl qs (deleteQueries n) ->
  forall t : TxState,
    receipts (deleted (queries_state rf c t qs)) = receipts (deleted t)
    /\ receipts (inserted (queries_state rf c t qs)) = receipts (inserted t).
Proof.
  induction qs as [|q r IH]; intros I t; simpl; [auto|].
  assert (Iq : In q (deleteQueries n)) by (apply I; now left).
  assert (Ir : incl r (deleteQueries n)) by (intros x Hx; apply I; now right).
  destruct (delete_step_keeps_receipts rf c n q t Iq) as [D B].
  destruct (exec_result rf c t q); [auto|].
  destruct (IH Ir (tx_step rf c t q)) as [D' B']. split; congruence.
Qed.

(** Whatever the store holds, the range delete leaves the receipts the
    transaction sees exactly as they were, those of the deleted range
    included. *)
Lemma range_delete_keeps_receipts (idb : IndexerDB.t) (tx : nat) (n : Z)
  (w : World) (t : TxState) :
  find_tx tx (txs w) = Some t ->
  exists t',
    find_tx tx (txs (snd (DeleteBlockAndDescendantsWithTx idb tx n w))) = Some t'
    /\ receipts (view (committed w) t') = receipts (view (committed w) t).
Proof.
  intros F. unfold DeleteBlockAndDescendantsWithTx.
  destruct (exec_queries_run tx (deleteQueries n) w t F) as [evs ->].
  cbn [snd].
  exists (queries_state (refused w) (committed w) t (deleteQueries n)).
  split; [eapply find_with_tx; eassumption|].
  destruct (queries_state_keeps_receipts (refused w) (committed w) n
              (deleteQueries n) (incl_refl _) t) as [D B].
  unfold view, tables_plus, tables_minus. cbn [receipts]. now rewrite D, B.
Qed.

(** ** The head transaction *)

Lemma InsertLogWithTx_found (idb : IndexerDB.t) (tx : nat) (l : Log.t)
  (w : World) (t : TxState) :
  find_tx tx (txs w) = Some t ->
  InsertLogWithTx idb tx l w
  = (Returned (wrap "error inserting log"
                    (exec_result (refused w) (committed w) t (InsertLogQ l))),
     with_tx w tx (tx_step (refused w) (committed w) t (InsertLogQ l))
             [EvExec tx (InsertLogQ l) (exec_result (refused w) (committed w) t (InsertLogQ l))]).
Proof.
  intros F. unfold InsertLogWithTx, bind. now rewrite (tx_Exec_found _ _ _ _ F).
Qed.

Lemma InsertReceiptWithTx_found (idb : IndexerDB.t) (tx : nat) (r : Receipt.t)
  (w : World) (t : TxState) :
  find_tx tx (txs w) = Some t ->
  InsertReceiptWithTx idb tx r w
  = (Returned (wrap "error inserting receipt"
                    (exec_result (refused w) (committed w) t (InsertReceiptQ r))),
     with_tx w tx (tx_step (refused w) (committed w) t (InsertReceiptQ r))
             [EvExec tx (InsertReceiptQ r)
                     (exec_result (refused w) (committed w) t (InsertReceiptQ r))]).
Proof.
  intros F. unfold InsertReceiptWithTx, bind. now rewrite (tx_Exec_found _ _ _ _ F).
Qed.

Lemma InsertBlockWithTx_found (idb : IndexerDB.t) (tx : nat) (b : Block.t)
  (w : World) (t : TxState) :
  find_tx tx (txs w) = Some t ->
  InsertBlockWithTx idb tx b w
  = (Returned (wrap "error inserting block"
                    (exec_result (refused w) (committed w) t (InsertBlockQ b))),
     with_tx w tx (tx_step (refused w) (committed w) t (InsertBlockQ b))
             [EvExec tx (InsertBlockQ b) (exec_result (refused w) (committed w) t (InsertBlockQ b))]).
Proof.
  intros F. unfold InsertBlockWithTx, bind. now rewrite (tx_Exec_found _ _ _ _ F).
Qed.

Lemma index_logs_run (idb : IndexerDB.t) (tx : nat) (header : Header.t)
  (txHash : string) (ls : list GethLog.t) :
  forall (w : World) (t : TxState),
    find_tx tx (txs w) = Some t ->
    exists evs,
      index_logs idb tx header txHash ls w
      = (Returned tt,
         with_tx w tx (logs_steps (refused w) (committed w) t header txHash ls) evs).
Proof.
  induction ls as [|l rest IH]; intros w t F; simpl.
  - exists []. unfold ret. now rewrite with_tx_nil.
  - unfold bind at 1. rewrite (InsertLogWithTx_found idb _ _ _ _ F).
    set (t1 := tx_step (refused w) (committed w) t (InsertLogQ (derive_log header txHash l))).
    assert (F1 : forall evs, find_tx tx (txs (with_tx w tx t1 evs)) = Some t1)
      by (intros; eapply find_with_tx; eassumption).
    destruct (exec_result (refused w) (committed w) t _) as [e|]; cbn [wrap].
    + unfold bind, log_Error. rewrite with_tx_emit.
      destruct (IH _ _ (F1 ([EvExec tx (InsertLogQ (derive_log header txHash l)) (Some e)]
                              ++ [EvLog LvlError "Failed to index log"])%list))
        as [evs ->].
      rewrite with_tx_twice. eexists. reflexivity.
    + destruct (IH _ _ (F1 [EvExec tx (InsertLogQ (derive_log header txHash l)) None]))
        as [evs ->].
      rewrite with_tx_twice. eexists. reflexivity.
Qed.

Lemma index_receipts_run (idb : IndexerDB.t) (tx : nat) (header : Header.t)
  (rs : list GethReceipt.t) :
  forall (i : Z) (w : World) (t : TxState),
    find_tx tx (txs w) = Some t ->
    exists evs,
      index_receipts idb tx header rs i w
      = (Returned tt,
         with_tx w tx (receipts_steps (refused w) (committed w) t header rs i) evs).
Proof.
  induction rs as [|r rest IH]; intros i w t F; simpl.
  - exists []. unfold ret. now rewrite with_tx_nil.
  - unfold bind at 1. rewrite (InsertReceiptWithTx_found idb _ _ _ _ F).
    set (q := InsertReceiptQ (derive_receipt header i r)).
    set (t1 := tx_step (refused w) (committed w) t q).
    assert (F1 : forall evs, find_tx tx (txs (with_tx w tx t1 evs)) = Some t1)
      by (intros; eapply find_with_tx; eassumption).
    destruct (exec_result (refused w) (committed w) t q) as [e|]; cbn [wrap].
    + unfold bind, log_Error. rewrite with_tx_emit.
      destruct (IH (i + 1) _ _ (F1 ([EvExec tx q (Some e)]
                                      ++ [EvLog LvlError "Failed to index receipt"])%list))
        as [evs ->].
      rewrite with_tx_twice. eexists. reflexivity.
    + unfold bind.
      destruct (index_logs_run idb tx header (GethReceipt.TxHash r)
                  (GethReceipt.Logs r) _ _ (F1 [EvExec tx q None])) as [ev1 ->].
      rewrite with_tx_twice.
      set (t2 := logs_steps _ _ t1 _ _ _).
      assert (F2 : find_tx tx (txs (with_tx w tx t2 ([EvExec tx q None] ++ ev1)))
                   = Some t2) by (eapply find_with_tx; eassumption).
      destruct (IH (i + 1) _ _ F2) as [evs ->].
      rewrite with_tx_twice. eexists. reflexivity.
Qed.

Lemma tables_minus_none (c : Tables) : tables_minus c no_rows = c.
Proof. now destruct c. Qed.

Lemma tables_plus_none (c : Tables) : tables_plus c no_rows = c.
Proof. destruct c. unfold tables_plus. cbn. now rewrite !app_nil_r. Qed.

Lemma view_fresh (c : Tables) : view c fresh_tx = c.
Proof.
  unfold view, fresh_tx; cbn [deleted inserted].
  now rewrite tables_minus_none, tables_plus_none.
Qed.

Lemma logs_steps_failed (rf : Stmt -> bool) (c : Tables) (header : Header.t)
  (txHash : string) (ls : list GethLog.t) (t : TxState) :
  failed t = true -> logs_steps rf c t header txHash ls = t.
Proof.
  revert t. induction ls as [|l rest IH]; intros t F; simpl; [reflexivity|].
  rewrite tx_step_failed by exact F. now apply IH.
Qed.

Lemma receipts_steps_failed (rf : Stmt -> bool) (c : Tables) (header : Header.t)
  (rs : list GethReceipt.t) :
  forall (i : Z) (t : TxState),
    failed t = true -> receipts_steps rf c t header rs i = t.
Proof.
  induction rs as [|r rest IH]; intros i t F; simpl; [reflexivity|].
  rewrite tx_step_failed by exact F.
  destruct (exec_result rf c t _); [now apply IH|].
  rewrite logs_steps_failed by exact F. now apply IH.
Qed.





Lemma grown_refl (t : TxState) : grown t t [] [].
Proof. split; [reflexivity|]. symmetry. apply tables_plus_none. Qed.

Lemma grown_trans (t1 t2 t3 : TxState) (l1 l2 : list Log.t) (r1 r2 : list Receipt.t) :
  grown t1 t2 l1 r1 -> grown t2 t3 l2 r2 -> grown t1 t3 (l1 ++ l2) (r1 ++ r2).
Proof.
  intros [D1 I1] [D2 I2]. split; [congruence|].
  rewrite I2, I1. unfold tables_plus; cbn.
  now rewrite !app_nil_r, <- !app_assoc.
Qed.

(** ** When the driver sends every statement *)

Section NothingRefused.
Variable rf : Stmt -> bool.
Hypothesis sends : forall s, rf s = false.

Lemma step_log_ok (c : Tables) (t : TxState) (l : Log.t) :
  failed (tx_step rf c t (InsertLogQ l)) = false ->
  grown t (tx_step rf c t (InsertLogQ l)) [l] [].
Proof.
  unfold tx_step. rewrite sends. destruct (failed t) eqn:F; [congruence|].
  destruct (check_stmt _ _); [discriminate|]. intros _.
  split; [reflexivity|]. cbn. destruct (inserted t); unfold tables_plus; cbn.
  now rewrite ?app_nil_r.
Qed.

Lemma step_receipt_ok (c : Tables) (t : TxState) (r : Receipt.t) :
  failed (tx_step rf c t (InsertReceiptQ r)) = false ->
  grown t (tx_step rf c t (InsertReceiptQ r)) [] [r].
Proof.
  unfold tx_step. rewrite sends. destruct (failed t) eqn:F; [congruence|].
  destruct (check_stmt _ _); [discriminate|]. intros _.
  split; [reflexivity|]. cbn. destruct (inserted t); unfold tables_plus; cbn.
  now rewrite ?app_nil_r.
Qed.

Lemma logs_steps_ok (c : Tables) (header : Header.t) (txHash : string)
  (ls : list GethLog.t) :
  forall t : TxState,
    failed (logs_steps rf c t header txHash ls) = false ->
    grown t (logs_steps rf c t header txHash ls)
          (map (derive_log header txHash) ls) [].
Proof.
  induction ls as [|l rest IH]; intros t F; simpl in *; [apply grown_refl|].
  destruct (failed (tx_step rf c t (InsertLogQ (derive_log header txHash l)))) eqn:F1.
  - rewrite logs_steps_failed in F by exact F1. congruence.
  - apply (grown_trans t (tx_step rf c t (InsertLogQ (derive_log header txHash l))) _
             [derive_log header txHash l] _ [] []);
      [now apply step_log_ok|now apply IH].
Qed.

Lemma receipts_steps_ok (c : Tables) (header : Header.t) (rs : list GethReceipt.t) :
  forall (i : Z) (t : TxState),
    failed (receipts_steps rf c t header rs i) = false ->
    grown t (receipts_steps rf c t header rs i)
          (log_rows header rs) (receipt_rows header rs i).
Proof.
  induction rs as [|r rest IH]; intros i t F; simpl in *; [apply grown_refl|].
  set (q := InsertReceiptQ (derive_receipt header i r)) in *.
  destruct (exec_result rf c t q) as [e|] eqn:E.
  - apply exec_result_err in E as (_ & _ & E). specialize (E (sends q)).
    rewrite receipts_steps_failed in F by exact E. congruence.
  - destruct (failed (tx_step rf c t q)) eqn:F1.
    { rewrite logs_steps_failed, receipts_steps_failed in F by assumption.
      congruence. }
    destruct (failed (logs_steps rf c (tx_step rf c t q) header (GethReceipt.TxHash r)
                                 (GethReceipt.Logs r))) eqn:F2.
    { rewrite receipts_steps_failed in F by assumption. congruence. }
    pose proof (step_receipt_ok c t _ F1) as G1.
    pose proof (logs_steps_ok c header _ _ _ F2) as G2.
    pose proof (IH _ _ F) as G3.
    pose proof (grown_trans _ _ _ _ _ _ _ (grown_trans _ _ _ _ _ _ _ G1 G2) G3) as G.
    cbn in G. exact G.
Qed.
End NothingRefused.

(** ** What [OnHead] commits *)

Lemma defer_rollback (A : Type) (body : Go A) (tx : nat) (w : World) :
  fst (defer (tx_Rollback tx ;;; ret tt) body w) = fst (body w)
  /\ committed (snd (defer (tx_Rollback tx ;;; ret tt) body w))
     = committed (snd (body w))
  /\ closed (snd (defer (tx_Rollback tx ;;; ret tt) body w))
     = closed (snd (body w))
  /\ refused (snd (defer (tx_Rollback tx ;;; ret tt) body w))
     = refused (snd (body w))
  /\ next_tx (snd (defer (tx_Rollback tx ;;; ret tt) body w))
     = next_tx (snd (body w)).
Proof.
  unfold defer. destruct (body w) as [o w'].
  unfold bind, tx_Rollback, ret.
  destruct (find_tx tx (txs w')); simpl; auto.
Qed.

Lemma insert_block_accepted (rf : Stmt -> bool) (c : Tables) (b : Block.t) :
  exec_result rf c fresh_tx (InsertBlockQ b) = None ->
  tx_step rf c fresh_tx (InsertBlockQ b)
  = mkTx no_rows (only_blocks [mkBlockRow b false]) false.
Proof. intros E. apply exec_result_ok in E as (_ & _ & _ & ->). reflexivity. Qed.

Lemma head_under_tx_world (idb : IndexerDB.t) (chain : option BlockChain)
  (tx : nat) (header : Header.t) (w : World) :
  find_tx tx (txs w) = Some fresh_tx ->
  let p := IndexerPlugin.mk (Some idb) chain in
  exists l evs,
    head_under_tx p idb tx header w
    = (head_outcome (refused w) p header (committed w),
       mkWorld (refused w) (head_result (refused w) p header (committed w)) l
               (next_tx w) (closed w) (events w ++ evs)).
Proof.
  intros F p. unfold head_under_tx, head_outcome, head_result.
  cbn [IndexerPlugin.db IndexerPlugin.chain p].
  unfold bind at 1. rewrite derive_block_world.
  destruct (fst (derive_block header (new_world no_rows))) as [block|pn].
  2:{ exists (txs w), []. rewrite app_nil_r. now destruct w. }
  unfold bind at 1. rewrite (InsertBlockWithTx_found idb _ _ _ _ F).
  set (q := InsertBlockQ block).
  set (t1 := tx_step (refused w) (committed w) fresh_tx q).
  destruct (exec_result (refused w) (committed w) fresh_tx q) as [e|] eqn:E;
    cbn [wrap].
  - unfold log_Error. rewrite with_tx_emit. eexists _, _. reflexivity.
  - destruct chain as [ch|]; cbn [deref].
    2:{ unfold bind, throw. eexists _, _. reflexivity. }
    unfold bind at 1. unfold ret at 1.
    unfold bind at 1. unfold log_Debug. rewrite with_tx_emit.
    set (ev1 := ([EvExec tx q None] ++ [EvLog LvlDebug "Processing receipts"])%list).
    assert (F2 : find_tx tx (txs (with_tx w tx t1 ev1)) = Some t1)
      by (eapply find_with_tx; eassumption).
    unfold bind at 1.
    destruct (index_receipts_run idb tx header
                (range_of (GetReceiptsByHash ch (Header.hash header))) 0 _ _ F2)
      as [evs ->].
    rewrite with_tx_twice. cbn [committed refused with_tx].
    set (t2 := receipts_steps (refused w) (committed w) t1 header _ 0).
    assert (F3 : find_tx tx (txs (with_tx w tx t2 (ev1 ++ evs))) = Some t2)
      by (eapply find_with_tx; eassumption).
    unfold bind, tx_Commit. rewrite F3.
    destruct (failed t2); unfold log_Error, log_Info, emit, with_tx; simpl;
      rewrite <- !app_assoc; eexists _, _; reflexivity.
Qed.

Lemma head_under_tx_run (idb : IndexerDB.t) (chain : option BlockChain)
  (tx : nat) (header : Header.t) (w : World) :
  find_tx tx (txs w) = Some fresh_tx ->
  let p := IndexerPlugin.mk (Some idb) chain in
  fst (head_under_tx p idb tx header w)
  = head_outcome (refused w) p header (committed w)
  /\ committed (snd (head_under_tx p idb tx header w))
     = head_result (refused w) p header (committed w)
  /\ closed (snd (head_under_tx p idb tx header w)) = closed w
  /\ refused (snd (head_under_tx p idb tx header w)) = refused w
  /\ next_tx (snd (head_under_tx p idb tx header w)) = next_tx w.
Proof.
  intros F p. destruct (head_under_tx_world idb chain tx header w F) as (l & evs & E).
  fold p in E. rewrite E. auto.
Qed.

(** [OnHead] on an open pool with a database: how it ends, and what is
    committed afterwards. *)
Lemma OnHead_open (idb : IndexerDB.t) (chain : option BlockChain)
  (header : Header.t) (w : World) :
  closed w = false ->
  let p := IndexerPlugin.mk (Some idb) chain in
  fst (OnHead p header w) = head_outcome (refused w) p header (committed w)
  /\ committed (snd (OnHead p header w))
     = head_result (refused w) p header (committed w)
  /\ closed (snd (OnHead p header w)) = false
  /\ refused (snd (OnHead p header w)) = refused w
  /\ next_tx (snd (OnHead p header w)) = S (next_tx w).
Proof.
  intros C p. destruct w as [rf c l nx cl ev]. simpl in C. subst cl.
  set (w1 := mkWorld rf c ((nx, fresh_tx) :: l) (S nx) false
               ((ev ++ [EvLog LvlInfo "Indexer processing new head block"])
                  ++ [EvBegin (inr nx)])).
  assert (E : OnHead p header (mkWorld rf c l nx false ev)
              = defer (tx_Rollback nx ;;; ret tt) (head_under_tx p idb nx header) w1)
    by reflexivity.
  rewrite E.
  assert (F : find_tx nx (txs w1) = Some fresh_tx)
    by (simpl; now rewrite Nat.eqb_refl).
  destruct (defer_rollback unit (head_under_tx p idb nx header) nx w1)
    as (D1 & D2 & D3 & D4 & D5).
  destruct (head_under_tx_run idb chain nx header w1 F)
    as (H1 & H2 & H3 & H4 & H5).
  fold p in H1, H2, H3, H4, H5.
  rewrite D1, D2, D3, D4, D5, H1, H2, H3, H4, H5. auto.
Qed.

Lemma OnHead_closed (idb : IndexerDB.t) (chain : option BlockChain)
  (header : Header.t) (w : World) :
  closed w = true ->
  let p := IndexerPlugin.mk (Some idb) chain in
  fst (OnHead p header w) = Returned tt
  /\ committed (snd (OnHead p header w)) = committed w
  /\ closed (snd (OnHead p header w)) = true
  /\ refused (snd (OnHead p header w)) = refused w.
Proof.
  intros C p. destruct w as [rf c l nx cl ev]. simpl in C. subst cl.
  repeat split; reflexivity.
Qed.

(** What [OnHead] commits, for every plugin and every world. *)
Lemma OnHead_committed (p : IndexerPlugin.t) (header : Header.t) (w : World) :
  committed (snd (OnHead p header w))
  = if closed w then committed w
    else head_result (refused w) p header (committed w).
Proof.
  destruct p as [[idb|] chain].
  - destruct (closed w) eqn:C.
    + now apply OnHead_closed.
    + now apply OnHead_open.
  - unfold head_result. cbn. now destruct (closed w).
Qed.

Lemma OnHead_outcome (p : IndexerPlugin.t) (header : Header.t) (w : World) :
  fst (OnHead p header w)
  = if closed w then Returned tt
    else head_outcome (refused w) p header (committed w).
Proof.
  destruct p as [[idb|] chain].
  - destruct (closed w) eqn:C.
    + now apply OnHead_closed.
    + now apply OnHead_open.
  - unfold head_outcome. cbn. now destruct (closed w).
Qed.


(** [OnHead] always takes a transaction handle of its own from the pool,
    whatever transactions its caller has open. *)
Lemma OnHead_opens_its_own_transaction (idb : IndexerDB.t)
  (chain : option BlockChain) (header : Header.t) (w : World) :
  closed w = false ->
  next_tx (snd (OnHead (IndexerPlugin.mk (Some idb) chain) header w))
  = S (next_tx w).
Proof. intros C. now apply OnHead_open. Qed.

Lemma block_refused_when_present (rf : Stmt -> bool) (c : Tables) (b : Block.t) :
  has_block_number c (Block.Number b) = true ->
  exists e, exec_result rf c fresh_tx (InsertBlockQ b) = Some e.
Proof.
  intros H. unfold exec_result. destruct (rf _); [eauto|].
  cbn [failed fresh_tx].
  change (mkTx no_rows no_rows false) with fresh_tx. rewrite view_fresh.
  cbn [check_stmt]. rewrite H. eauto.
Qed.

(** Either [OnHead] commits nothing, or it returns normally and the
    block of the head is among the committed blocks. *)
Lemma head_result_cases (rf : Stmt -> bool) (p : IndexerPlugin.t)
  (header : Header.t) (c : Tables) :
  head_result rf p header c = c
  \/ exists chain block,
      IndexerPlugin.chain p = Some chain
      /\ fst (derive_block header (new_world no_rows)) = Returned block
      /\ head_outcome rf p header c = Returned tt
      /\ exec_result rf c fresh_tx (InsertBlockQ block) = None
      /\ failed (receipts_steps rf c (tx_step rf c fresh_tx (InsertBlockQ block))
                   header
                   (range_of (GetReceiptsByHash chain (Header.hash header))) 0)
         = false
      /\ head_result rf p header c
         = view c (receipts_steps rf c (tx_step rf c fresh_tx (InsertBlockQ block))
                     header
                     (range_of (GetReceiptsByHash chain (Header.hash header))) 0).
Proof.
  unfold head_result, head_outcome.
  destruct p as [[idb|] chain]; cbn [IndexerPlugin.db IndexerPlugin.chain];
    [|now left].
  destruct (fst (derive_block header (new_world no_rows))) as [block|pn];
    [|now left].
  destruct (exec_result rf c fresh_tx (InsertBlockQ block)) eqn:E; [now left|].
  destruct chain as [chain|]; [|now left].
  destruct (failed (receipts_steps rf c _ header _ 0)) eqn:F2; [now left|].
  right. exists chain, block. repeat split; assumption.
Qed.



(** While the driver sends every statement, an unfailed head transaction
    commits the whole graph of the head on top of what was there. *)
Lemma head_commit_is_whole_graph (rf : Stmt -> bool) (c : Tables) (block : Block.t)
  (header : Header.t) (rs : list GethReceipt.t) :
  (forall s, rf s = false) ->
  exec_result rf c fresh_tx (InsertBlockQ block) = None ->
  failed (receipts_steps rf c (tx_step rf c fresh_tx (InsertBlockQ block)) header rs 0)
  = false ->
  view c (receipts_steps rf c (tx_step rf c fresh_tx (InsertBlockQ block)) header rs 0)
  = tables_plus c (head_graph block header rs).
Proof.
  intros S E F2. destruct (receipts_steps_ok rf S c header rs 0 _ F2) as [D I].
  unfold view. rewrite D, I, (insert_block_accepted rf c block E).
  cbn [deleted inserted]. rewrite tables_minus_none. reflexivity.
Qed.

(** X1.  As long as no statement is refused on the driver's side, the
    tables committed after [OnHead] are either the tables from before, or
    those with the block, every receipt and every log of the head added:
    when the server refuses a statement it also refuses the commit. *)
Lemma OnHead_all_or_nothing_when_all_sent (p : IndexerPlugin.t)
  (header : Header.t) (w : World) :
  (forall s, refused w s = false) ->
  committed (snd (OnHead p header w)) = committed w
  \/ exists chain block,
      IndexerPlugin.chain p = Some chain
      /\ fst (derive_block header w) = Returned block
      /\ fst (OnHead p header w) = Returned tt
      /\ committed (snd (OnHead p header w))
         = tables_plus (committed w)
             (head_graph block header
                (range_of (GetReceiptsByHash chain (Header.hash header)))).
Proof.
  intros S. rewrite OnHead_committed, OnHead_outcome.
  destruct (closed w); [now left|].
  destruct (head_result_cases (refused w) p header (committed w))
    as [E|(chain & block & Hc & Hb & Ho & Ha & Hf & E)]; [now left|].
  right. exists chain, block. rewrite derive_block_world. cbn [fst].
  repeat split; try assumption.
  rewrite E. now apply head_commit_is_whole_graph.
Qed.

Lemma derive_block_returns (header : Header.t) (w : World) :
  carries_optional_fields header = true ->
  exists block, fst (derive_block header w) = Returned block.
Proof.
  unfold carries_optional_fields, derive_block.
  destruct (Header.BlobGasUsed header), (Header.ExcessBlobGas header),
    (Header.ParentBeaconRoot header), (Header.WithdrawalsHash header);
    try discriminate.
  intros _. eexists. reflexivity.
Qed.





(** C4.  [OnHead] goes on after a failed insert.  When the server
    refuses the receipt of 0xt1 (no such transaction), the engine still
    sends the receipt of 0xt2 and then [Commit]; the aborted transaction
    cannot commit and the whole head is lost.  When the failure is on
    the driver's side, so that the transaction stays usable, the engine
    again sends the next receipt and [Commit], and block 2 becomes
    visible with one of its two receipts. *)
Theorem OnHead_continues_after_failed_insert :
  calls (events (snd (OnHead head_plugin (full_header 2 "0x02" "0x01")
                        (new_world head_store))))
  = [Begin 0; Exec 0 InsertIntoBlocks true;
     Exec 0 InsertIntoReceipts false; Exec 0 InsertIntoReceipts false;
     Commit 0 false; Rollback 0 false]
  /\ committed (snd (OnHead head_plugin (full_header 2 "0x02" "0x01")
                       (new_world head_store))) = head_store
  /\ calls (events (snd (OnHead head_plugin (full_header 2 "0x02" "0x01")
                           refusing_world)))
     = [Begin 0; Exec 0 InsertIntoBlocks true;
        Exec 0 InsertIntoReceipts false; Exec 0 InsertIntoReceipts true;
        Commit 0 true; Rollback 0 false]
  /\ chain_of (committed (snd (OnHead head_plugin (full_header 2 "0x02" "0x01")
                                 refusing_world)))
     = [(1, "0x01"); (2, "0x02")]
  /\ map Receipt.TransactionHash
         (receipts (committed (snd (OnHead head_plugin (full_header 2 "0x02" "0x01")
                                      refusing_world))))
     = ["0xt2"]
  /\ map Receipt.TransactionHash
         (receipt_rows (full_header 2 "0x02" "0x01")
                       [sample_receipt "0xt1"; sample_receipt "0xt2"] 0)
     = ["0xt1"; "0xt2"].
Proof. repeat split; vm_compute; reflexivity. Qed.

(** ** The first plugin's derivation *)

(** [GethPlugin.OnHead] builds its row for every header without a fault:
    it never reads the blob-gas, withdrawals and beacon-root pointers and
    stores them as NULL, whether the header has them or not. *)
Lemma GethPlugin_block_optional_fields (header : Header.t) :
  Block.BaseFeePerGas (GethPlugin_block header)
  = sql.mkNullString (BigInt_String (Header.BaseFee header))
                     (is_some (Header.BaseFee header))
  /\ Block.BlobGasUsed (GethPlugin_block header) = zero_NullString
  /\ Block.ExcessBlobGas (GethPlugin_block header) = zero_NullString
  /\ Block.WithdrawalsRoot (GethPlugin_block header) = zero_NullString
  /\ Block.ParentBeaconBlockRoot (GethPlugin_block header) = zero_NullString.
Proof. repeat split. Qed.

Lemma GethPlugin_OnHead_legacy_header :
  GethPlugin_OnHead (NewGethPlugin (Some idb0)) (legacy_header 100 "0xaa" "0x99")
                    (new_world no_rows)
  = (Returned tt,
     mkWorld sends_all
             (only_blocks
                [mkBlockRow (GethPlugin_block (legacy_header 100 "0xaa" "0x99")) false])
             [] 0 false
             [EvDbNamedExec
                (InsertBlockQ (GethPlugin_block (legacy_header 100 "0xaa" "0x99")))
                None])
  /\ Block.BaseFeePerGas (GethPlugin_block (legacy_header 100 "0xaa" "0x99"))
     = sql.mkNullString "<nil>" false
  /\ Block.BaseFeePerGas (GethPlugin_block (zero_fee_header 100 "0xaa" "0x99"))
     = sql.mkNullString "0" true.
Proof. repeat split; vm_compute; reflexivity. Qed.

(** Whatever the plugin and the store, a header that lacks one of the
    four pointers makes [OnHead] fault once its transaction is open, and
    nothing is committed. *)
Lemma OnHead_faults_without_optional_field (idb : IndexerDB.t)
  (chain : option BlockChain) (header : Header.t) (w : World) :
  closed w = false ->
  Header.BlobGasUsed header = None \/ Header.ExcessBlobGas header = None
  \/ Header.ParentBeaconRoot header = None \/ Header.WithdrawalsHash header = None ->
  fst (OnHead (IndexerPlugin.mk (Some idb) chain) header w)
  = Panicked NilPointerDereference
  /\ committed (snd (OnHead (IndexerPlugin.mk (Some idb) chain) header w))
     = committed w.
Proof.
  intros C A. rewrite OnHead_outcome, OnHead_committed, C.
  unfold head_outcome, head_result. cbn [IndexerPlugin.db].
  rewrite (derive_block_faults header (new_world no_rows) A). now split.
Qed.

(** ** The finalization watermark *)

Lemma row_set_finalized (n : Z) (b : BlockRow) : row (set_finalized n b) = row b.
Proof. unfold set_finalized. now destruct (_ =? _). Qed.

Lemma max_finalized_mark (n : Z) (bs : list BlockRow) :
  max_finalized (map (set_finalized n) bs)
  = if existsb (number_is n) bs
    then Some (match max_finalized bs with
               | Some m => Z.max m n
               | None => n
               end)
    else max_finalized bs.
Proof.
  induction bs as [|b r IH]; [reflexivity|].
  cbn [map max_finalized existsb]. rewrite IH. clear IH.
  unfold set_finalized, number_is.
  destruct (Block.Number (row b) =? n) eqn:E; cbn [orb finalized row].
  - apply Z.eqb_eq in E. rewrite E.
    destruct (existsb _ r), (finalized b), (max_finalized r); f_equal; lia.
  - destruct (existsb _ r), (finalized b), (max_finalized r);
      try reflexivity; f_equal; lia.
Qed.

Lemma GetLatestFinalizedBlock_answer (idb : IndexerDB.t) (w : World) (v : Z) :
  fst (GetLatestFinalizedBlock idb w) = Returned (v, None) ->
  closed w = false /\ 0 <= v
  /\ v = match max_finalized (blocks (committed w)) with
         | Some m => m
         | None => 0
         end.
Proof.
  unfold GetLatestFinalizedBlock, bind, db_Get_latest_finalized, ret.
  destruct (closed w); [discriminate|].
  destruct (_ <? 0) eqn:L; [discriminate|].
  cbn. intros [= <-]. apply Z.ltb_ge in L. auto.
Qed.

(** X2.  The watermark only moves forward.  When the latest finalized
    number reads [v], finalizing block [n] makes it read [max v n] if a
    block [n] is stored, and leaves it at [v] if none is; a number from
    2^63 on is refused before the UPDATE is sent and leaves it at [v] as
    well. *)
Theorem finalizing_moves_the_watermark_forward :
  forall (idb : IndexerDB.t) (n : Z) (w : World) (v : Z),
    0 <= n ->
    fst (GetLatestFinalizedBlock idb w) = Returned (v, None) ->
    fst (GetLatestFinalizedBlock idb (snd (MarkBlockFinalized idb n w)))
    = Returned (if high_bit_set n then v
                else if has_block_number (committed w) n then Z.max v n else v,
                None).
Proof.
  intros idb n w v Hn Hv.
  destruct (GetLatestFinalizedBlock_answer idb w v Hv) as (C & V0 & V).
  destruct (high_bit_set n) eqn:B.
  { rewrite (MarkBlockFinalized_refused idb n w C B).
    unfold GetLatestFinalizedBlock, bind, db_Get_latest_finalized, ret.
    cbn [snd closed committed fst]. rewrite <- V.
    destruct (v <? 0) eqn:L; [apply Z.ltb_lt in L; lia|]. reflexivity. }
  rewrite (MarkBlockFinalized_open idb n w C B).
  unfold GetLatestFinalizedBlock, bind, db_Get_latest_finalized, ret.
  cbn [snd closed committed fst]. unfold has_block_number.
  destruct (committed w) as [bs ? ? ? ? ? ?].
  cbn [blocks with_blocks] in *.
  rewrite max_finalized_mark. unfold number_is.
  destruct (existsb _ bs).
  - destruct (max_finalized bs) as [m|].
    + subst v. destruct (Z.max m n <? 0) eqn:L; [apply Z.ltb_lt in L; lia|].
      reflexivity.
    + subst v. destruct (n <? 0) eqn:L; [apply Z.ltb_lt in L; lia|].
      cbn. f_equal. f_equal. lia.
  - rewrite <- V. destruct (v <? 0) eqn:L; [apply Z.ltb_lt in L; lia|].
    reflexivity.
Qed.

Lemma finalizing_moves_the_watermark_forward_witness :
  0 <= 4
  /\ fst (GetLatestFinalizedBlock idb0 (new_world finalized_store))
     = Returned (5, None)
  /\ fst (GetLatestFinalizedBlock idb0
            (snd (MarkBlockFinalized idb0 4 (new_world finalized_store))))
     = Returned (5, None).
Proof.
  split; [lia|]. split; [reflexivity|].
  exact (finalizing_moves_the_watermark_forward idb0 4 (new_world finalized_store) 5
           ltac:(lia) eq_refl).
Defined.

Lemma max_finalized_none (bs : list BlockRow) :
  (forall b, In b bs -> finalized b = false) -> max_finalized bs = None.
Proof.
  induction bs as [|b r IH]; intros H; [reflexivity|]. cbn.
  rewrite (H b) by now left. apply IH. intros x Hx. apply H. now right.
Qed.

(** X3.  The answer 0 does not tell whether anything is finalized.
    On a store with no finalized block, the watermark reads 0 after
    block 0 has been finalized, and it reads 0 just as well after the
    finalization of a block that is not stored, which finalizes
    nothing. *)
Theorem watermark_zero_is_ambiguous :
  forall (idb : IndexerDB.t) (absent : Z) (w : World),
    closed w = false ->
    (forall b, In b (blocks (committed w)) -> finalized b = false) ->
    has_block_number (committed w) absent = false ->
    fst (GetLatestFinalizedBlock idb (snd (MarkBlockFinalized idb 0 w)))
    = Returned (0, None)
    /\ fst (GetLatestFinalizedBlock idb (snd (MarkBlockFinalized idb absent w)))
       = Returned (0, None).
Proof.
  intros idb n w C H A.
  assert (K : forall m,
             (has_block_number (committed w) m = false \/ m = 0) ->
             fst (GetLatestFinalizedBlock idb (snd (MarkBlockFinalized idb m w)))
             = Returned (0, None)).
  { intros m Hm. destruct (high_bit_set m) eqn:B.
    - rewrite (MarkBlockFinalized_refused idb m w C B).
      unfold GetLatestFinalizedBlock, bind, db_Get_latest_finalized, ret.
      cbn [snd closed committed fst]. now rewrite (max_finalized_none _ H).
    - rewrite (MarkBlockFinalized_open idb m w C B).
      unfold GetLatestFinalizedBlock, bind, db_Get_latest_finalized, ret.
      cbn [snd closed committed fst]. unfold has_block_number in Hm.
      destruct (committed w) as [bs ? ? ? ? ? ?]. cbn [blocks with_blocks] in *.
      rewrite max_finalized_mark, (max_finalized_none _ H). unfold number_is.
      destruct Hm as [->| ->]; [reflexivity|].
      destruct (existsb _ bs); reflexivity. }
  split; apply K; auto.
Qed.

Lemma watermark_zero_is_ambiguous_witness :
  closed (new_world zero_store) = false
  /\ has_block_number (committed (new_world zero_store)) 7 = false
  /\ fst (GetLatestFinalizedBlock idb0
            (snd (MarkBlockFinalized idb0 0 (new_world zero_store))))
     = Returned (0, None)
  /\ map finalized (blocks (committed
                              (snd (MarkBlockFinalized idb0 0 (new_world zero_store)))))
     = [true; false]
  /\ map finalized (blocks (committed
                              (snd (MarkBlockFinalized idb0 7 (new_world zero_store)))))
     = [false; false].
Proof.
  split; [reflexivity|]. split; [reflexivity|].
  split; [|split; reflexivity].
  refine (proj1 (watermark_zero_is_ambiguous idb0 7 (new_world zero_store)
                   eq_refl _ eq_refl)).
  intros b [<-|[<-|[]]]; reflexivity.
Defined.

(** X4.  [OnFinal] never faults and touches nothing but the flag: the
    blocks keep their columns and their order, and every other table is
    what it was, for every plugin, header and world. *)
Theorem OnFinal_changes_the_flag_only :
  forall (p : IndexerPlugin.t) (header : Header.t) (w : World),
    fst (OnFinal p header w) = Returned tt
    /\ map row (blocks (committed (snd (OnFinal p header w))))
       = map row (blocks (committed w))
    /\ with_blocks (committed (snd (OnFinal p header w))) []
       = with_blocks (committed w) [].
Proof.
  intros [[idb|] chain] header w; [|repeat split].
  destruct (closed w) eqn:C.
  { destruct w as [rf c t nx cl ev]. cbn in C. subst cl. repeat split. }
  rewrite (OnFinal_open idb chain header w C). cbv zeta.
  destruct (high_bit_set (Uint64 (Header.Number header))); [repeat split|].
  cbn [fst snd committed]. destruct (committed w) as [bs ? ? ? ? ? ?]. cbn.
  repeat split. rewrite map_map. apply map_ext. intros b.
  apply row_set_finalized.
Qed.

(** ** Heads *)

Lemma derive_block_keys (header : Header.t) (w : World) (b : Block.t) :
  fst (derive_block header w) = Returned b ->
  Block.Number b = Uint64 (Header.Number header)
  /\ Block.Hash b = Header.hash header.
Proof.
  unfold derive_block.
  destruct (Header.BlobGasUsed header), (Header.ExcessBlobGas header),
    (Header.ParentBeaconRoot header), (Header.WithdrawalsHash header);
    cbn; intros E; inversion E; auto.
Qed.

(** X5.  [OnHead] never replaces a stored block: when a block of the
    header's number is already committed, whatever its hash, the head is
    dropped and the committed tables stay as they were. *)
Theorem OnHead_keeps_the_stored_block :
  forall (p : IndexerPlugin.t) (header : Header.t) (w : World),
    has_block_number (committed w) (Uint64 (Header.Number header)) = true ->
    committed (snd (OnHead p header w)) = committed w.
Proof.
  intros p header w H. rewrite OnHead_committed.
  destruct (closed w); [reflexivity|].
  unfold head_result. destruct (IndexerPlugin.db p); [|reflexivity].
  destruct (fst (derive_block header (new_world no_rows))) as [b|] eqn:D;
    [|reflexivity].
  destruct (derive_block_keys header _ b D) as [N _]. rewrite <- N in H.
  now destruct (block_refused_when_present (refused w) _ b H) as [e ->].
Qed.

Lemma OnHead_keeps_the_stored_block_witness :
  has_block_number (committed (new_world reorg_store))
                   (Uint64 (Header.Number fork_header)) = true
  /\ chain_of (committed (snd (OnHead reorg_plugin fork_header
                                 (new_world reorg_store))))
     = [(9, "0x09"); (10, "0x0a")].
Proof.
  split; [reflexivity|].
  rewrite (OnHead_keeps_the_stored_block reorg_plugin fork_header
             (new_world reorg_store) eq_refl).
  reflexivity.
Defined.

(** Whatever is refused, receipts and logs only ever add receipt and log
    rows to the write set. *)
Lemma step_log_grows (rf : Stmt -> bool) (c : Tables) (t : TxState) (l : Log.t) :
  exists ls, grown t (tx_step rf c t (InsertLogQ l)) ls [].
Proof.
  unfold tx_step. destruct (rf _); [exists []; apply grown_refl|].
  destruct (failed t) eqn:F; [exists []; apply grown_refl|].
  destruct (check_stmt _ _).
  - exists []. split; [reflexivity|]. cbn. symmetry. apply tables_plus_none.
  - exists [l]. split; [reflexivity|]. cbn.
    destruct (inserted t); unfold tables_plus; cbn. now rewrite ?app_nil_r.
Qed.

Lemma step_receipt_grows (rf : Stmt -> bool) (c : Tables) (t : TxState)
  (r : Receipt.t) :
  exists rs, grown t (tx_step rf c t (InsertReceiptQ r)) [] rs.
Proof.
  unfold tx_step. destruct (rf _); [exists []; apply grown_refl|].
  destruct (failed t) eqn:F; [exists []; apply grown_refl|].
  destruct (check_stmt _ _).
  - exists []. split; [reflexivity|]. cbn. symmetry. apply tables_plus_none.
  - exists [r]. split; [reflexivity|]. cbn.
    destruct (inserted t); unfold tables_plus; cbn. now rewrite ?app_nil_r.
Qed.

Lemma logs_steps_grows (rf : Stmt -> bool) (c : Tables) (header : Header.t)
  (txHash : string) (ls : list GethLog.t) :
  forall t : TxState,
    exists added, grown t (logs_steps rf c t header txHash ls) added [].
Proof.
  induction ls as [|l rest IH]; intros t; simpl.
  - exists []. apply grown_refl.
  - destruct (step_log_grows rf c t (derive_log header txHash l)) as [a1 G1].
    destruct (IH (tx_step rf c t (InsertLogQ (derive_log header txHash l))))
      as [a2 G2].
    exists (a1 ++ a2)%list. exact (grown_trans _ _ _ _ _ [] [] G1 G2).
Qed.

Lemma receipts_steps_grows (rf : Stmt -> bool) (c : Tables) (header : Header.t)
  (rs : list GethReceipt.t) :
  forall (i : Z) (t : TxState),
    exists ls rows, grown t (receipts_steps rf c t header rs i) ls rows.
Proof.
  induction rs as [|r rest IH]; intros i t; simpl.
  - exists [], []. apply grown_refl.
  - set (q := InsertReceiptQ (derive_receipt header i r)).
    destruct (step_receipt_grows rf c t (derive_receipt header i r)) as [r1 G1].
    fold q in G1.
    destruct (exec_result rf c t q).
    + destruct (IH (i + 1) (tx_step rf c t q)) as (l2 & r2 & G2).
      exists ([] ++ l2)%list, (r1 ++ r2)%list. exact (grown_trans _ _ _ _ _ _ _ G1 G2).
    + destruct (logs_steps_grows rf c header (GethReceipt.TxHash r)
                  (GethReceipt.Logs r) (tx_step rf c t q)) as [l1 G1'].
      destruct (IH (i + 1) (logs_steps rf c (tx_step rf c t q) header
                              (GethReceipt.TxHash r) (GethReceipt.Logs r)))
        as (l2 & r2 & G2).
      exists (([] ++ l1) ++ l2)%list, ((r1 ++ []) ++ r2)%list.
      exact (grown_trans _ _ _ _ _ _ _ (grown_trans _ _ _ _ _ _ _ G1 G1') G2).
Qed.

(** X6.  [OnHead] only ever adds: for every plugin, header and world,
    refusing driver or not, the committed tables afterwards are the
    tables before with at most one block, some receipts and some logs
    appended; no committed row is removed or changed and no other table
    is written. *)
Theorem OnHead_only_adds_rows :
  forall (p : IndexerPlugin.t) (header : Header.t) (w : World),
    exists (bs : list BlockRow) (ls : list Log.t) (rs : list Receipt.t),
      committed (snd (OnHead p header w))
      = tables_plus (committed w) (mkTables bs [] ls rs [] [] [])
      /\ (length bs <= 1)%nat.
Proof.
  intros p header w. rewrite OnHead_committed.
  assert (Same : exists bs ls rs,
             committed w = tables_plus (committed w) (mkTables bs [] ls rs [] [] [])
             /\ (length bs <= 1)%nat).
  { exists [], [], []. split; [symmetry; apply tables_plus_none|cbn; lia]. }
  destruct (closed w); [exact Same|].
  destruct (head_result_cases (refused w) p header (committed w))
    as [->|(chain & block & Hc & Hb & Ho & Ha & Hf & ->)]; [exact Same|].
  destruct (receipts_steps_grows (refused w) (committed w) header
              (range_of (GetReceiptsByHash chain (Header.hash header))) 0
              (tx_step (refused w) (committed w) fresh_tx (InsertBlockQ block)))
    as (ls & rs & D & I).
  exists [mkBlockRow block false], ls, rs. split; [|cbn; lia].
  unfold view. rewrite D, I, (insert_block_accepted _ _ _ Ha).
  cbn [deleted inserted]. now rewrite tables_minus_none.
Qed.

(** The all-or-nothing lemma at work on a head with two receipts and
    two logs: on the store that has their transactions the whole graph
    is committed, block, receipts and logs; on the store that lacks
    transaction 0xt1 the server refuses the first receipt and nothing of
    the head is committed, the block included. *)
Lemma OnHead_all_or_nothing_witness :
  calls (events (snd (OnHead graph_plugin (full_header 2 "0x02" "0x01")
                        (new_world two_tx_store))))
  = [Begin 0; Exec 0 InsertIntoBlocks true;
     Exec 0 InsertIntoReceipts true; Exec 0 InsertIntoLogs true;
     Exec 0 InsertIntoReceipts true; Exec 0 InsertIntoLogs true;
     Commit 0 true; Rollback 0 false]
  /\ committed (snd (OnHead graph_plugin (full_header 2 "0x02" "0x01")
                       (new_world two_tx_store)))
     = tables_plus two_tx_store
         (head_graph (full_block 2 "0x02" "0x01") (full_header 2 "0x02" "0x01")
                     graph_receipts)
  /\ length (receipt_rows (full_header 2 "0x02" "0x01") graph_receipts 0) = 2%nat
  /\ length (log_rows (full_header 2 "0x02" "0x01") graph_receipts) = 2%nat
  /\ calls (events (snd (OnHead graph_plugin (full_header 2 "0x02" "0x01")
                           (new_world head_store))))
     = [Begin 0; Exec 0 InsertIntoBlocks true;
        Exec 0 InsertIntoReceipts false; Exec 0 InsertIntoReceipts false;
        Commit 0 false; Rollback 0 false]
  /\ committed (snd (OnHead graph_plugin (full_header 2 "0x02" "0x01")
                       (new_world head_store)))
     = head_store.
Proof.
  split; [vm_compute; reflexivity|]. split.
  { destruct (OnHead_all_or_nothing_when_all_sent graph_plugin
                (full_header 2 "0x02" "0x01") (new_world two_tx_store)
                (fun s => eq_refl))
      as [E|(chain & block & Hc & Hb & _ & E)].
    - vm_compute in E. discriminate E.
    - injection Hc as <-. vm_compute in Hb. injection Hb as <-.
      rewrite E. vm_compute. reflexivity. }
  split; [reflexivity|]. split; [reflexivity|].
  split; [vm_compute; reflexivity|].
  destruct (OnHead_all_or_nothing_when_all_sent graph_plugin
              (full_header 2 "0x02" "0x01") (new_world head_store)
              (fun s => eq_refl))
    as [E|(chain & block & Hc & Hb & _ & E)].
  - exact E.
  - vm_compute. reflexivity.
Defined.

(** ** Reorgs *)

(** X7.  [OnReorg] reads the first old and the first new header for its
    log line before anything else: with either list empty it faults on
    the index, for every plugin, before a transaction is opened or a
    line is logged.  A reorg that only removes blocks cannot be
    delivered. *)
Theorem OnReorg_faults_on_an_empty_list :
  forall (p : IndexerPlugin.t) (headers : list Header.t) (w : World),
    OnReorg p [] headers w = (Panicked IndexOutOfRange, w)
    /\ OnReorg p headers [] w = (Panicked IndexOutOfRange, w).
Proof.
  intros p headers w. split; [reflexivity|].
  now destruct headers.
Qed.

Lemma delete_result_after_begin (idb : IndexerDB.t) (n : Z) (w : World) :
  closed w = false ->
  fst (DeleteBlockAndDescendantsWithTx idb (next_tx w) n (snd (Beginx w)))
  = Returned (wrap "error executing delete query"
                (queries_result (refused w) (committed w) fresh_tx (deleteQueries n))).
Proof.
  intros C. unfold DeleteBlockAndDescendantsWithTx.
  assert (F : find_tx (next_tx w) (txs (snd (Beginx w))) = Some fresh_tx).
  { unfold Beginx. rewrite C. cbn. now rewrite Nat.eqb_refl. }
  destruct (exec_queries_run (next_tx w) (deleteQueries n) _ _ F) as [evs ->].
  cbn [fst]. unfold Beginx. rewrite C. reflexivity.
Qed.

(** X8.  When the range delete of the first old header fails, [OnReorg]
    stops there: it returns, no new header is handed to [OnHead] (the
    reorg's own transaction is the only one opened), and the deferred
    rollback leaves the committed tables as they were. *)
Theorem OnReorg_stops_when_the_delete_fails :
  forall (idb : IndexerDB.t) (chain : option BlockChain)
         (o : Header.t) (os : list Header.t) (n : Header.t) (ns : list Header.t)
         (w : World) (e : error),
    closed w = false ->
    fst (DeleteBlockAndDescendantsWithTx idb (next_tx w)
           (Uint64 (Header.Number o)) (snd (Beginx w))) = Returned (Some e) ->
    fst (OnReorg (IndexerPlugin.mk (Some idb) chain) (o :: os) (n :: ns) w)
    = Returned tt
    /\ committed (snd (OnReorg (IndexerPlugin.mk (Some idb) chain)
                         (o :: os) (n :: ns) w)) = committed w
    /\ next_tx (snd (OnReorg (IndexerPlugin.mk (Some idb) chain)
                       (o :: os) (n :: ns) w)) = S (next_tx w).
Proof.
  intros idb chain o os n ns w e C H.
  rewrite (delete_result_after_begin idb _ w C) in H.
  destruct w as [rf c l nx cl ev]. cbn in C. subst cl.
  cbn [refused committed] in H.
  set (p := IndexerPlugin.mk (Some idb) chain).
  set (w1 := mkWorld rf c ((nx, fresh_tx) :: l) (S nx) false
               ((ev ++ [EvLog LvlInfo "Indexer handling chain reorg"])
                  ++ [EvBegin (inr nx)])).
  set (body :=
         deleted_all <- delete_old idb nx (o :: os) ;;
         if deleted_all
         then
           insert_new p (n :: ns) ;;;
           cerr <- tx_Commit nx ;;
           match cerr with
           | Some _ => log_Error "Failed to commit reorg transaction"
           | None => ret tt
           end
         else ret tt).
  assert (E : OnReorg p (o :: os) (n :: ns) (mkWorld rf c l nx false ev)
              = defer (tx_Rollback nx ;;; ret tt) body w1) by reflexivity.
  rewrite E.
  destruct (defer_rollback unit body nx w1) as (D1 & D2 & _ & _ & D5).
  rewrite D1, D2, D5.
  assert (F : find_tx nx (txs w1) = Some fresh_tx)
    by (simpl; now rewrite Nat.eqb_refl).
  assert (B : exists evs T, body w1 = (Returned tt, with_tx w1 nx T evs)).
  { unfold body, bind at 1. cbn [delete_old]. unfold bind at 1.
    unfold DeleteBlockAndDescendantsWithTx.
    destruct (exec_queries_run nx (deleteQueries (Uint64 (Header.Number o)))
                w1 _ F) as [evs ->].
    cbn [refused committed w1].
    destruct (queries_result rf c fresh_tx _) as [se|]; [|discriminate].
    cbn [wrap]. unfold bind, log_Error, ret. rewrite with_tx_emit.
    eexists _, _. reflexivity. }
  destruct B as (evs & T & ->). cbn. auto.
Qed.

Lemma OnReorg_stops_when_the_delete_fails_witness :
  closed (new_world receipt_store) = false
  /\ fst (OnReorg reorg_plugin reorg_old reorg_new (new_world receipt_store))
     = Returned tt
  /\ committed (snd (OnReorg reorg_plugin reorg_old reorg_new
                       (new_world receipt_store))) = receipt_store.
Proof.
  split; [reflexivity|].
  destruct (OnReorg_stops_when_the_delete_fails idb0 (Some reorg_chain)
              (full_header 10 "0x0a" "0x09") []
              (full_header 11 "0x0b2" "0x0a2") [full_header 12 "0x0c2" "0x0b2"]
              (new_world receipt_store)
              (Errorf "error executing delete query"
                 (SqlError (ForeignKeyViolation "transactions")))
              eq_refl eq_refl) as (A & B & _).
  split; [exact A|exact B].
Defined.

(** X9.  After [OnClose] the plugin is inert: every later [OnHead],
    [OnFinal] and [OnReorg] finds the pool closed, logs the failure and
    returns, and the committed tables stay what they were at the close. *)
Theorem events_after_close_change_nothing :
  forall (idb : IndexerDB.t) (chain : option BlockChain) (header : Header.t)
         (o : Header.t) (os : list Header.t) (n : Header.t) (ns : list Header.t)
         (w : World),
    let p := IndexerPlugin.mk (Some idb) chain in
    let w1 := snd (OnClose p w) in
    committed w1 = committed w
    /\ fst (OnHead p header w1) = Returned tt
    /\ committed (snd (OnHead p header w1)) = committed w
    /\ fst (OnFinal p header w1) = Returned tt
    /\ committed (snd (OnFinal p header w1)) = committed w
    /\ fst (OnReorg p (o :: os) (n :: ns) w1) = Returned tt
    /\ committed (snd (OnReorg p (o :: os) (n :: ns) w1)) = committed w.
Proof. intros. destruct w. repeat split. Qed.

Lemma events_after_close_change_nothing_witness :
  fst (OnClose reorg_plugin (new_world reorg_store)) = Returned tt
  /\ committed (snd (OnReorg reorg_plugin reorg_old reorg_new
                       (snd (OnClose reorg_plugin (new_world reorg_store)))))
     = reorg_store.
Proof.
  split; [reflexivity|].
  exact (proj2 (proj2 (proj2 (proj2 (proj2 (proj2
           (events_after_close_change_nothing idb0 (Some reorg_chain)
              (full_header 11 "0x0b2" "0x0a2")
              (full_header 10 "0x0a" "0x09") []
              (full_header 11 "0x0b2" "0x0a2") [full_header 12 "0x0c2" "0x0b2"]
              (new_world reorg_store)))))))).
Defined.

(** ** The first plugin *)

Lemma InsertBlock_run (idb : IndexerDB.t) (b : Block.t) (w : World) :
  let r := if closed w then Some ErrDBClosed
           else exec_result (refused w) (committed w) fresh_tx (InsertBlockQ b) in
  fst (InsertBlock (Some idb) b w) = Returned (wrap "error inserting block" r)
  /\ closed (snd (InsertBlock (Some idb) b w)) = closed w
  /\ refused (snd (InsertBlock (Some idb) b w)) = refused w
  /\ committed (snd (InsertBlock (Some idb) b w))
     = match r with
       | Some _ => committed w
       | None => view (committed w)
                      (apply_stmt (committed w) fresh_tx (InsertBlockQ b))
       end.
Proof.
  unfold InsertBlock, bind, deref, ret, db_NamedExec.
  destruct (closed w) eqn:C; [cbn; rewrite ?C; auto|].
  destruct (exec_result (refused w) (committed w) fresh_tx (InsertBlockQ b));
    cbn; rewrite ?C; auto.
Qed.

Lemma GethPlugin_OnHead_run (idb : IndexerDB.t) (header : Header.t) (w : World) :
  fst (GethPlugin_OnHead (GethPlugin.mk (Some idb)) header w)
  = match fst (InsertBlock (Some idb) (GethPlugin_block header) w) with
    | Returned (Some _) => Panicked (Explicit "Failed to index block")
    | Returned None => Returned tt
    | Panicked pn => Panicked pn
    end
  /\ snd (GethPlugin_OnHead (GethPlugin.mk (Some idb)) header w)
     = snd (InsertBlock (Some idb) (GethPlugin_block header) w).
Proof.
  unfold GethPlugin_OnHead, bind. cbn [GethPlugin.db].
  destruct (InsertBlock (Some idb) (GethPlugin_block header) w) as [[[e|]|pn] w'];
    split; reflexivity.
Qed.

(** X10.  [GethPlugin.OnHead] is not idempotent: whatever the first
    delivery of a head did, a second delivery of the same head ends in a
    panic and stores nothing more. *)
Theorem GethPlugin_second_delivery_panics :
  forall (p : GethPlugin.t) (header : Header.t) (w : World),
    exists pn,
      fst (GethPlugin_OnHead p header (snd (GethPlugin_OnHead p header w)))
      = Panicked pn
      /\ committed (snd (GethPlugin_OnHead p header
                           (snd (GethPlugin_OnHead p header w))))
         = committed (snd (GethPlugin_OnHead p header w)).
Proof.
  intros [[idb|]] header w; [|eexists; split; reflexivity].
  destruct (GethPlugin_OnHead_run idb header w) as [_ W1]. rewrite W1.
  destruct (GethPlugin_OnHead_run idb header
              (snd (InsertBlock (Some idb) (GethPlugin_block header) w)))
    as [O2 W2].
  rewrite O2, W2.
  remember (GethPlugin_block header) as b eqn:Hb. clear Hb O2 W2 W1.
  destruct (InsertBlock_run idb b w) as (_ & C1 & R1 & T1).
  destruct (InsertBlock_run idb b (snd (InsertBlock (Some idb) b w)))
    as (O & _ & _ & T2).
  rewrite O, T2, C1, R1. clear O T2.
  destruct (closed w); [eexists; split; reflexivity|].
  cbv zeta in T1. rewrite T1.
  destruct (exec_result (refused w) (committed w) fresh_tx (InsertBlockQ b))
    as [e|] eqn:E.
  - rewrite E. eexists; split; reflexivity.
  - assert (P : has_block_number
                  (view (committed w)
                        (apply_stmt (committed w) fresh_tx (InsertBlockQ b)))
                  (Block.Number b) = true).
    { unfold has_block_number, view. cbn. rewrite existsb_app. cbn.
      rewrite Z.eqb_refl. now rewrite orb_true_r. }
    destruct (block_refused_when_present (refused w) _ b P) as [e' ->].
    eexists; split; reflexivity.
Qed.

(** ** What the range delete leaves *)

Lemma queries_state_accepted (rf : Stmt -> bool) (c : Tables) (qs : list Stmt) :
  forall t : TxState,
    queries_result rf c t qs = None ->
    queries_state rf c t qs = fold_left (apply_stmt c) qs t.
Proof.
  induction qs as [|q r IH]; intros t H; simpl in *; [reflexivity|].
  destruct (exec_result rf c t q) eqn:E; [discriminate|].
  apply exec_result_ok in E as (_ & _ & _ & E). rewrite E in *. now apply IH.
Qed.

Lemma range_delete_accepted (idb : IndexerDB.t) (tx : nat) (n : Z) (w : World) :
  fst (DeleteBlockAndDescendantsWithTx idb tx n w) = Returned None ->
  exists t,
    find_tx tx (txs w) = Some t
    /\ queries_result (refused w) (committed w) t (deleteQueries n) = None
    /\ committed (snd (DeleteBlockAndDescendantsWithTx idb tx n w)) = committed w
    /\ find_tx tx (txs (snd (DeleteBlockAndDescendantsWithTx idb tx n w)))
       = Some (fold_left (apply_stmt (committed w)) (deleteQueries n) t).
Proof.
  unfold DeleteBlockAndDescendantsWithTx.
  destruct (find_tx tx (txs w)) as [t|] eqn:F.
  - destruct (exec_queries_run tx (deleteQueries n) w t F) as [evs ->].
    cbn [fst snd]. intros R. exists t.
    assert (Q : queries_result (refused w) (committed w) t (deleteQueries n) = None)
      by (destruct (queries_result _ _ _ _); [discriminate|reflexivity]).
    repeat split; [exact Q|].
    rewrite <- (queries_state_accepted _ _ _ _ Q).
    eapply find_with_tx; eassumption.
  - unfold deleteQueries. cbn [exec_queries]. unfold bind.
    pose proof (tx_Exec_done tx (DeleteAccessListsQ n) w F) as D.
    destruct (tx_Exec tx (DeleteAccessListsQ n) w) as [r w1].
    cbn in D. subst r. cbn. discriminate.
Qed.

(** What the five statements of [deleteQueries] leave, when all of them
    are applied. *)
Lemma deleted_range_is_clear (c : Tables) (t : TxState) (n : Z) :
  clear_from n (view c (fold_left (apply_stmt c) (deleteQueries n) t))
  /\ receipts (view c (fold_left (apply_stmt c) (deleteQueries n) t))
     = receipts (view c t).
Proof.
  unfold deleteQueries, clear_from. cbn [fold_left].
  repeat split.
  - intros x I. cbn in I. apply delete_leaves_none in I.
    unfold tx_in_range in I. now apply Z.leb_gt in I.
  - intros x I. cbn in I. apply delete_leaves_none in I.
    unfold log_in_range in I. now apply Z.leb_gt in I.
  - intros x I. cbn in I. apply delete_leaves_none in I.
    unfold sc_in_range in I. now apply Z.leb_gt in I.
  - intros x I. cbn in I. apply delete_leaves_none in I.
    unfold block_in_range in I. now apply Z.leb_gt in I.
Qed.

(** X11.  When the range delete returns nil, the transaction sees no
    transaction, log, state change or block numbered [fromNumber] or
    higher any more, while the receipts it sees are the very rows it saw
    before. *)
Theorem range_delete_clears_the_range :
  forall (idb : IndexerDB.t) (tx : nat) (fromNumber : Z) (w : World),
    fst (DeleteBlockAndDescendantsWithTx idb tx fromNumber w) = Returned None ->
    exists t t',
      find_tx tx (txs w) = Some t
      /\ find_tx tx (txs (snd (DeleteBlockAndDescendantsWithTx idb tx fromNumber w)))
         = Some t'
      /\ (forall x, In x (transactions (view (committed w) t')) ->
                    Transaction.BlockNumber x < fromNumber)
      /\ (forall x, In x (logs (view (committed w) t')) ->
                    Log.BlockNumber x < fromNumber)
      /\ (forall x, In x (state_changes (view (committed w) t')) ->
                    StateChange.BlockNumber x < fromNumber)
      /\ (forall x, In x (blocks (view (committed w) t')) ->
                    Block.Number (row x) < fromNumber)
      /\ receipts (view (committed w) t') = receipts (view (committed w) t).
Proof.
  intros idb tx n w H.
  destruct (range_delete_accepted idb tx n w H) as (t & F & _ & _ & F').
  exists t, (fold_left (apply_stmt (committed w)) (deleteQueries n) t).
  split; [exact F|]. split; [exact F'|].
  destruct (deleted_range_is_clear (committed w) t n) as [(Ct & Cl & Cs & Cb) R].
  repeat split; assumption.
Qed.

Lemma range_delete_clears_the_range_witness :
  fst (DeleteBlockAndDescendantsWithTx idb0 0 10
         (snd (Beginx (new_world reorg_store)))) = Returned None
  /\ exists t',
      find_tx 0 (txs (snd (DeleteBlockAndDescendantsWithTx idb0 0 10
                             (snd (Beginx (new_world reorg_store)))))) = Some t'
      /\ forall x, In x (blocks (view reorg_store t')) -> Block.Number (row x) < 10.
Proof.
  split; [vm_compute; reflexivity|].
  destruct (range_delete_clears_the_range idb0 0 10
              (snd (Beginx (new_world reorg_store))) eq_refl)
    as (t & t' & _ & F & _ & _ & _ & B & _).
  exists t'. split; [exact F|exact B].
Defined.

(** ** Deleting twice *)

Lemma filter_nothing (A : Type) (P : A -> bool) (l : list A) :
  (forall x, In x l -> P x = false) -> filter P l = [].
Proof.
  induction l as [|a r IH]; intros H; [reflexivity|]. cbn.
  rewrite (H a) by now left. apply IH. intros x Hx. apply H. now right.
Qed.

Lemma filter_everything (A : Type) (P : A -> bool) (l : list A) :
  (forall x, In x l -> P x = false) -> filter (fun x => negb (P x)) l = l.
Proof.
  induction l as [|a r IH]; intros H; [reflexivity|]. cbn.
  rewrite (H a) by now left. cbn. f_equal. apply IH.
  intros x Hx. apply H. now right.
Qed.

Lemma existsb_nothing (A : Type) (P : A -> bool) (l : list A) :
  (forall x, In x l -> P x = false) -> existsb P l = false.
Proof.
  induction l as [|a r IH]; intros H; [reflexivity|]. cbn.
  rewrite (H a) by now left. apply IH. intros x Hx. apply H. now right.
Qed.

(** Deleting what is not there leaves the write set as it is. *)
Lemma delete_nothing (A : Type) (eq_dec : forall a b : A, {a = b} + {a <> b})
  (P : A -> bool) (c d i : list A) :
  (forall x, In x (minus eq_dec c d ++ i) -> P x = false) ->
  delete_committed eq_dec P c d = d /\ delete_own P i = i.
Proof.
  intros H. unfold delete_committed, delete_own. split.
  - rewrite filter_nothing; [apply app_nil_r|].
    intros x Hx. apply H, in_or_app. now left.
  - apply filter_everything. intros x Hx. apply H, in_or_app. now right.
Qed.

Lemma tx_eta (t : TxState) :
  failed t = false ->
  mkTx (mkTables (blocks (deleted t)) (transactions (deleted t)) (logs (deleted t))
                 (receipts (deleted t)) (state_changes (deleted t))
                 (access_lists (deleted t)) (accounts (deleted t)))
       (mkTables (blocks (inserted t)) (transactions (inserted t))
                 (logs (inserted t)) (receipts (inserted t))
                 (state_changes (inserted t)) (access_lists (inserted t))
                 (accounts (inserted t)))
       false
  = t.
Proof. destruct t as [[] [] f]. cbn. now intros ->. Qed.

Lemma delete_step_on_clear (rf : Stmt -> bool) (c : Tables) (t : TxState)
  (n m : Z) (q : Stmt) :
  n <= m -> failed t = false -> clear_from n (view c t) ->
  In q (deleteQueries m) ->
  tx_step rf c t q = t /\ (rf q = false -> exec_result rf c t q = None).
Proof.
  intros L F (Ct & Cl & Cs & Cb) I.
  assert (Pt : forall x, In x (transactions (view c t)) -> tx_in_range m x = false).
  { intros x Hx. apply Z.leb_gt. specialize (Ct x Hx). lia. }
  assert (Pl : forall x, In x (logs (view c t)) -> log_in_range m x = false).
  { intros x Hx. apply Z.leb_gt. specialize (Cl x Hx). lia. }
  assert (Ps : forall x, In x (state_changes (view c t)) -> sc_in_range m x = false).
  { intros x Hx. apply Z.leb_gt. specialize (Cs x Hx). lia. }
  assert (Pb : forall x, In x (blocks (view c t)) -> block_in_range m x = false).
  { intros x Hx. apply Z.leb_gt. specialize (Cb x Hx). lia. }
  assert (Pa : forall a, al_in_range (view c t) m a = false).
  { intros a. unfold al_in_range. apply existsb_nothing.
    intros x Hx. now rewrite (Pt x Hx). }
  assert (Chk : check_stmt (view c t) q = None).
  { unfold deleteQueries in I. cbn [In] in I.
    destruct I as [<-|[<-|[<-|[<-|[<-|[]]]]]]; cbn [check_stmt]; try reflexivity.
    - rewrite existsb_nothing; [reflexivity|].
      intros x Hx. now rewrite (Pt x Hx).
    - rewrite existsb_nothing; [reflexivity|].
      intros x Hx. now rewrite (Pb x Hx). }
  assert (App : apply_stmt c t q = t).
  { unfold deleteQueries in I. cbn [In] in I.
    destruct I as [<-|[<-|[<-|[<-|[<-|[]]]]]]; cbn [apply_stmt].
    - destruct (delete_nothing _ AccessList_eq_dec (al_in_range (view c t) m)
                  (access_lists c) (access_lists (deleted t))
                  (access_lists (inserted t))) as [-> ->];
        [intros; apply Pa|now apply tx_eta].
    - destruct (delete_nothing _ StateChange_eq_dec (sc_in_range m)
                  (state_changes c) (state_changes (deleted t))
                  (state_changes (inserted t)) Ps) as [-> ->].
      now apply tx_eta.
    - destruct (delete_nothing _ Log_eq_dec (log_in_range m)
                  (logs c) (logs (deleted t)) (logs (inserted t)) Pl) as [-> ->].
      now apply tx_eta.
    - destruct (delete_nothing _ Transaction_eq_dec (tx_in_range m)
                  (transactions c) (transactions (deleted t))
                  (transactions (inserted t)) Pt) as [-> ->].
      now apply tx_eta.
    - destruct (delete_nothing _ BlockRow_eq_dec (block_in_range m)
                  (blocks c) (blocks (deleted t)) (blocks (inserted t)) Pb)
        as [-> ->].
      now apply tx_eta. }
  unfold tx_step, exec_result. rewrite F, Chk, App.
  split; [now destruct (rf q)|now intros ->].
Qed.

Lemma queries_on_clear (rf : Stmt -> bool) (c : Tables) (t : TxState) (n m : Z)
  (qs : list Stmt) :
  n <= m -> failed t = false -> clear_from n (view c t) ->
  incl qs (deleteQueries m) ->
  queries_state rf c t qs = t
  /\ ((forall s, rf s = false) -> queries_result rf c t qs = None).
Proof.
  intros L F Cl. induction qs as [|q r IH]; intros I; [now split|].
  assert (Iq : In q (deleteQueries m)) by (apply I; now left).
  assert (Ir : incl r (deleteQueries m)) by (intros x Hx; apply I; now right).
  destruct (delete_step_on_clear rf c t n m q L F Cl Iq) as [S R].
  destruct (IH Ir) as [IS IR].
  cbn [queries_state queries_result]. rewrite S. split.
  - now destruct (exec_result rf c t q).
  - intros A. rewrite (R (A q)). now apply IR.
Qed.

(** X12.  Range deletes absorb each other.  Once a delete from
    [fromNumber] has returned nil, a delete from a number not below it in
    the same transaction changes nothing the transaction holds, and it
    returns nil again when the driver sends its statements: in
    [OnReorg], whose old headers come in ascending order, only the first
    delete has an effect. *)
Theorem later_range_delete_changes_nothing :
  forall (idb : IndexerDB.t) (tx : nat) (fromNumber later : Z) (w : World),
    fromNumber <= later ->
    fst (DeleteBlockAndDescendantsWithTx idb tx fromNumber w) = Returned None ->
    let w1 := snd (DeleteBlockAndDescendantsWithTx idb tx fromNumber w) in
    let w2 := snd (DeleteBlockAndDescendantsWithTx idb tx later w1) in
    find_tx tx (txs w2) = find_tx tx (txs w1)
    /\ committed w2 = committed w
    /\ ((forall s, refused w s = false) ->
        fst (DeleteBlockAndDescendantsWithTx idb tx later w1) = Returned None).
Proof.
  intros idb tx n m w L H w1 w2.
  destruct (range_delete_accepted idb tx n w H) as (t & F & Q & C1 & F1).
  destruct (deleted_range_is_clear (committed w) t n) as [(Ct & Cl & Cs & Cb) _].
  fold w1 in C1, F1.
  set (T := fold_left (apply_stmt (committed w)) (deleteQueries n) t) in *.
  assert (FT : failed T = false) by reflexivity.
  assert (R1 : refused w1 = refused w).
  { unfold w1, DeleteBlockAndDescendantsWithTx.
    destruct (exec_queries_run tx (deleteQueries n) w t F) as [evs ->].
    reflexivity. }
  unfold w2, DeleteBlockAndDescendantsWithTx.
  destruct (exec_queries_run tx (deleteQueries m) w1 T F1) as [evs ->].
  cbn [fst snd]. rewrite C1, R1.
  destruct (queries_on_clear (refused w) (committed w) T n m (deleteQueries m)
              L FT (conj Ct (conj Cl (conj Cs Cb))) (incl_refl _)) as [S R].
  rewrite S. repeat split.
  - cbn [txs with_tx]. rewrite F1. eapply find_set_tx. exact F1.
  - exact C1.
  - intros A. now rewrite (R A).
Qed.

Lemma later_range_delete_changes_nothing_witness :
  9 <= 10
  /\ fst (DeleteBlockAndDescendantsWithTx idb0 0 9
            (snd (Beginx (new_world reorg_store)))) = Returned None
  /\ committed (snd (DeleteBlockAndDescendantsWithTx idb0 0 10
                       (snd (DeleteBlockAndDescendantsWithTx idb0 0 9
                               (snd (Beginx (new_world reorg_store)))))))
     = reorg_store
  /\ fst (DeleteBlockAndDescendantsWithTx idb0 0 10
            (snd (DeleteBlockAndDescendantsWithTx idb0 0 9
                    (snd (Beginx (new_world reorg_store))))))
     = Returned None.
Proof.
  split; [lia|]. split; [vm_compute; reflexivity|].
  destruct (later_range_delete_changes_nothing idb0 0 9 10
              (snd (Beginx (new_world reorg_store))) ltac:(lia) eq_refl)
    as (_ & C & R).
  split; [exact C|exact (R (fun s => eq_refl))].
Defined.

(** ** The range delete in a transaction of its own *)

Lemma apply_stmt_not_failed (c : Tables) (t : TxState) (s : Stmt) :
  failed (apply_stmt c t s) = false.
Proof. now destruct s. Qed.

Lemma drop_set_tx (id : nat) (t : TxState) (l : list (nat * TxState)) :
  drop_tx id (set_tx id t l) = drop_tx id l.
Proof.
  induction l as [|[k u] r IH]; simpl; [reflexivity|].
  destruct (Nat.eqb k id) eqn:E; simpl; rewrite E; [reflexivity|now rewrite IH].
Qed.

Lemma exec_queries_or_rollback_cons (tx : nat) (q : Stmt) (r : list Stmt)
  (w : World) (t : TxState) :
  find_tx tx (txs w) = Some t ->
  exec_queries_or_rollback tx (q :: r) w
  = match exec_result (refused w) (committed w) t q with
    | Some e =>
        (Returned (Some (Errorf "error executing delete query" (SqlError e))),
         emit (EvRollback tx None)
              (mkWorld (refused w) (committed w)
                 (drop_tx tx (set_tx tx (tx_step (refused w) (committed w) t q)
                                (txs w)))
                 (next_tx w) (closed w)
                 (events w ++ [EvExec tx q (Some e)])))
    | None =>
        exec_queries_or_rollback tx r
          (with_tx w tx (tx_step (refused w) (committed w) t q) [EvExec tx q None])
    end.
Proof.
  intros F. cbn [exec_queries_or_rollback]. unfold bind at 1.
  rewrite (tx_Exec_found tx q w t F).
  destruct (exec_result (refused w) (committed w) t q) as [e|]; [|reflexivity].
  unfold bind, tx_Rollback, ret.
  rewrite (find_with_tx w tx _ t _ F). reflexivity.
Qed.

(** The loop of [DeleteBlockAndDescendants] on an open transaction: the
    transaction is gone afterwards, and the committed tables are those
    from before, or the transaction's view once every statement is
    applied. *)
Lemma exec_queries_or_rollback_run (tx : nat) (qs : list Stmt) :
  forall (w : World) (t : TxState),
    find_tx tx (txs w) = Some t ->
    failed t = false ->
    txs (snd (exec_queries_or_rollback tx qs w)) = drop_tx tx (txs w)
    /\ match queries_result (refused w) (committed w) t qs with
       | Some e =>
           fst (exec_queries_or_rollback tx qs w)
           = Returned (Some (Errorf "error executing delete query" (SqlError e)))
           /\ committed (snd (exec_queries_or_rollback tx qs w)) = committed w
       | None =>
           fst (exec_queries_or_rollback tx qs w) = Returned None
           /\ committed (snd (exec_queries_or_rollback tx qs w))
              = view (committed w) (fold_left (apply_stmt (committed w)) qs t)
       end.
Proof.
  induction qs as [|q r IH]; intros w t F FT.
  - cbn [exec_queries_or_rollback queries_result fold_left].
    unfold bind, tx_Commit, ret. rewrite F, FT. cbn. auto.
  - rewrite (exec_queries_or_rollback_cons tx q r w t F).
    cbn [queries_result fold_left].
    destruct (exec_result (refused w) (committed w) t q) as [e|] eqn:E.
    + cbn. rewrite drop_set_tx. auto.
    + apply exec_result_ok in E as (_ & _ & _ & ->).
      set (w1 := with_tx w tx (apply_stmt (committed w) t q) [EvExec tx q None]).
      destruct (IH w1 (apply_stmt (committed w) t q)
                  (find_with_tx w tx _ t _ F)
                  (apply_stmt_not_failed (committed w) t q)) as [T R].
      split.
      * rewrite T. unfold w1. cbn [txs with_tx]. apply drop_set_tx.
      * exact R.
Qed.

(** X13.  [DeleteBlockAndDescendants] is all or nothing and leaves no
    transaction behind.  For every store and block number the open
    transactions afterwards are those from before, and either an error is
    returned and the committed tables are untouched, or nil is returned
    and the committed tables hold no transaction, log, state change or
    block numbered [blockNumber] or higher, with the receipts as they
    were. *)
Theorem DeleteBlockAndDescendants_all_or_nothing :
  forall (idb : IndexerDB.t) (blockNumber : Z) (w : World),
    let r := DeleteBlockAndDescendants (Some idb) blockNumber w in
    txs (snd r) = txs w
    /\ ((exists e, fst r = Returned (Some e) /\ committed (snd r) = committed w)
        \/ (fst r = Returned None
            /\ clear_from blockNumber (committed (snd r))
            /\ receipts (committed (snd r)) = receipts (committed w))).
Proof.
  intros idb n w. cbn zeta.
  set (w1 := emit (EvBegin (inr (next_tx w)))
               (mkWorld (refused w) (committed w)
                  ((next_tx w, fresh_tx) :: txs w) (S (next_tx w)) (closed w)
                  (events w))).
  assert (E : DeleteBlockAndDescendants (Some idb) n w
              = if closed w
                then (Returned (Some (Errorf "error starting transaction"
                                        (SqlError ErrDBClosed))),
                      emit (EvBegin (inl ErrDBClosed)) w)
                else exec_queries_or_rollback (next_tx w) (deleteQueries n) w1).
  { unfold DeleteBlockAndDescendants, w1. cbn [deref]. unfold bind, ret, Beginx.
    destruct (closed w); reflexivity. }
  rewrite E. clear E.
  destruct (closed w) eqn:C.
  - cbn. split; [reflexivity|]. left. eexists. split; reflexivity.
  - assert (F : find_tx (next_tx w) (txs w1) = Some fresh_tx)
      by (cbn; now rewrite Nat.eqb_refl).
    destruct (exec_queries_or_rollback_run (next_tx w) (deleteQueries n) w1
                fresh_tx F eq_refl) as [T R].
    split.
    + rewrite T. cbn. now rewrite Nat.eqb_refl.
    + change (refused w1) with (refused w) in R.
      change (committed w1) with (committed w) in R.
      destruct (queries_result (refused w) (committed w) fresh_tx (deleteQueries n))
        as [e|].
      * left. destruct R as [R1 R2]. eexists. split; [exact R1|exact R2].
      * right. destruct R as [R1 R2]. split; [exact R1|]. rewrite R2.
        destruct (deleted_range_is_clear (committed w) fresh_tx n) as [K ->].
        split; [exact K|]. now rewrite view_fresh.
Qed.

Lemma DeleteBlockAndDescendants_all_or_nothing_witness :
  fst (DeleteBlockAndDescendants (Some idb0) 10 (new_world reorg_store))
  = Returned None
  /\ chain_of (committed (snd (DeleteBlockAndDescendants (Some idb0) 10
                                 (new_world reorg_store))))
     = [(9, "0x09")]
  /\ txs (snd (DeleteBlockAndDescendants (Some idb0) 10 (new_world reorg_store)))
     = [].
Proof.
  split; [vm_compute; reflexivity|]. split; [vm_compute; reflexivity|].
  exact (proj1 (DeleteBlockAndDescendants_all_or_nothing idb0 10
                  (new_world reorg_store))).
Defined.

(** ** What the receipt cache holds *)

Lemma lookup_hit (k : Hash) (v : Receipts) (l : list (Hash * Receipts)) :
  lru.lookup k ((k, v) :: l) = Some v.
Proof. cbn. now rewrite String.eqb_refl. Qed.

Lemma Get_entries (c : lru.Cache Receipts) (k : Hash) (e : Hash * Receipts) :
  In e (lru.entries (snd (lru.Get c k))) -> In e (lru.entries c).
Proof.
  unfold lru.Get.
  destruct (lru.lookup k (lru.entries c)) as [v|] eqn:L; cbn; [|auto].
  intros [<-|I].
  - now apply lookup_in.
  - unfold lru.remove_key in I. now apply filter_In in I.
Qed.

Lemma Add_entries (c : lru.Cache Receipts) (k : Hash) (v : Receipts)
  (e : Hash * Receipts) :
  In e (lru.entries (lru.Add c k v)) -> e = (k, v) \/ In e (lru.entries c).
Proof.
  cbn. intros [<-|I]; [now left|right].
  assert (J : In e (lru.remove_key k (lru.entries c))).
  { destruct (Nat.leb _ _) in I; [|exact I].
    rewrite <- (firstn_skipn (lru.capacity c - 1) (lru.remove_key k (lru.entries c))).
    apply in_or_app. now left. }
  unfold lru.remove_key in J. now apply filter_In in J.
Qed.

Lemma GetBlockReceipts_entries (g : Hash -> Receipts) (h : Hash) (n : Z)
  (c : lru.Cache Receipts) (e : Hash * Receipts) :
  In e (lru.entries (snd (GetBlockReceipts g h n c))) ->
  not_nil (snd e) = true \/ In e (lru.entries c).
Proof.
  unfold GetBlockReceipts.
  pose proof (Get_entries c h e) as G.
  destruct (lru.Get c h) as [[v|] c']; cbn [snd] in *; [auto|].
  destruct (g h) as [rs|]; cbn [snd]; [|auto].
  intros I. apply Add_entries in I as [->|I]; [now left|auto].
Qed.

(** X14.  A nil answer is never cached.  After any sequence of calls,
    with whatever fetch function, every entry of the package's cache is a
    non-nil receipt list: a block the chain has no receipts for is asked
    of the chain again on every call. *)
Theorem nil_receipts_are_never_cached :
  forall (getReceipts : Hash -> Receipts) (calls : list (Hash * Z)),
    forallb (fun e => not_nil (snd e))
            (lru.entries (after_calls getReceipts calls receiptsCache0))
    = true.
Proof.
  intros g calls.
  assert (K : forall c,
             forallb (fun e => not_nil (snd e)) (lru.entries c) = true ->
             forallb (fun e => not_nil (snd e))
                     (lru.entries (after_calls g calls c)) = true).
  { induction calls as [|[h n] rest IH]; intros c H; cbn [after_calls]; [exact H|].
    apply IH. apply forallb_forall. intros e I.
    apply GetBlockReceipts_entries in I as [I|I]; [exact I|].
    rewrite forallb_forall in H. now apply H. }
  now apply K.
Qed.

(** X15.  The cache is keyed by the hash alone.  Once a call has
    answered a hash with a non-nil list, the next call for that hash
    returns the same list whatever fetch function and block number it is
    given: the second fetch function is not called. *)
Theorem GetBlockReceipts_repeats_its_answer :
  forall (first second : Hash -> Receipts) (hash : Hash) (number number' : Z)
         (cache : lru.Cache Receipts),
    not_nil (fst (GetBlockReceipts first hash number cache)) = true ->
    fst (GetBlockReceipts second hash number'
           (snd (GetBlockReceipts first hash number cache)))
    = fst (GetBlockReceipts first hash number cache).
Proof.
  intros g1 g2 h n n' c H.
  destruct (GetBlockReceipts g1 h n c) as [r c1] eqn:E. cbn [fst snd] in *.
  assert (L : lru.lookup h (lru.entries c1) = Some r).
  { unfold GetBlockReceipts, lru.Get in E.
    destruct (lru.lookup h (lru.entries c)) as [v|].
    - injection E as <- <-. apply lookup_hit.
    - destruct (g1 h) as [rs|]; injection E as <- <-;
        [apply lookup_hit|discriminate H]. }
  unfold GetBlockReceipts, lru.Get. now rewrite L.
Qed.

Lemma GetBlockReceipts_repeats_its_answer_witness :
  fst (GetBlockReceipts (fun _ => None) "0xaa" 7
         (snd (GetBlockReceipts (fun _ => Some []) "0xaa" 7 receiptsCache0)))
  = Some [].
Proof.
  exact (GetBlockReceipts_repeats_its_answer (fun _ => Some []) (fun _ => None)
           "0xaa" 7 7 receiptsCache0 eq_refl).
Defined.

(** ** Transactions left open *)

(** Under its transaction, [OnHead] touches no other entry of the
    registry: its own transaction is still there, or it is gone. *)
Lemma head_under_tx_txs (idb : IndexerDB.t) (chain : option BlockChain)
  (tx : nat) (header : Header.t) (w : World) :
  find_tx tx (txs w) = Some fresh_tx ->
  let p := IndexerPlugin.mk (Some idb) chain in
  (exists T, txs (snd (head_under_tx p idb tx header w)) = set_tx tx T (txs w))
  \/ txs (snd (head_under_tx p idb tx header w)) = drop_tx tx (txs w).
Proof.
  intros F p.
  pose (ok := fun l : list (nat * TxState) =>
                (exists T, l = set_tx tx T (txs w)) \/ l = drop_tx tx (txs w)).
  change (ok (txs (snd (head_under_tx p idb tx header w)))).
  unfold head_under_tx.
  cbn [IndexerPlugin.db IndexerPlugin.chain p].
  unfold bind at 1. rewrite derive_block_world.
  destruct (fst (derive_block header (new_world no_rows))) as [block|pn].
  2:{ left. exists fresh_tx. cbn [snd]. symmetry. now apply set_tx_same. }
  unfold bind at 1. rewrite (InsertBlockWithTx_found idb _ _ _ _ F).
  set (q := InsertBlockQ block).
  set (t1 := tx_step (refused w) (committed w) fresh_tx q).
  destruct (exec_result (refused w) (committed w) fresh_tx q) as [e|] eqn:E;
    cbn [wrap].
  - unfold log_Error. rewrite with_tx_emit. left. eexists. reflexivity.
  - destruct chain as [ch|]; cbn [deref].
    2:{ unfold bind, throw. left. eexists. reflexivity. }
    unfold bind at 1. unfold ret at 1.
    unfold bind at 1. unfold log_Debug. rewrite with_tx_emit.
    set (ev1 := ([EvExec tx q None] ++ [EvLog LvlDebug "Processing receipts"])%list).
    assert (F2 : find_tx tx (txs (with_tx w tx t1 ev1)) = Some t1)
      by (eapply find_with_tx; eassumption).
    unfold bind at 1.
    destruct (index_receipts_run idb tx header
                (range_of (GetReceiptsByHash ch (Header.hash header))) 0 _ _ F2)
      as [evs ->].
    rewrite with_tx_twice. cbn [committed refused with_tx].
    set (t2 := receipts_steps (refused w) (committed w) t1 header _ 0).
    assert (F3 : find_tx tx (txs (with_tx w tx t2 (ev1 ++ evs))) = Some t2)
      by (eapply find_with_tx; eassumption).
    unfold bind, tx_Commit. rewrite F3. right.
    destruct (failed t2); unfold log_Error, log_Info, emit, with_tx; cbn;
      apply drop_set_tx.
Qed.

(** X16.  [OnHead] leaves no transaction open.  However it ends, with
    a fault on an absent header field included, the open transactions
    afterwards are exactly those from before, as long as the handle the
    pool hands out next is not in use. *)
Theorem OnHead_leaves_no_transaction_open :
  forall (p : IndexerPlugin.t) (header : Header.t) (w : World),
    find_tx (next_tx w) (txs w) = None ->
    txs (snd (OnHead p header w)) = txs w.
Proof.
  intros [[idb|] chain] header w N; [|reflexivity].
  destruct w as [rf c l nx cl ev]. cbn [next_tx txs] in N.
  destruct cl; [reflexivity|].
  set (w1 := mkWorld rf c ((nx, fresh_tx) :: l) (S nx) false
               ((ev ++ [EvLog LvlInfo "Indexer processing new head block"])
                  ++ [EvBegin (inr nx)])).
  assert (E : OnHead (IndexerPlugin.mk (Some idb) chain) header
                (mkWorld rf c l nx false ev)
              = defer (tx_Rollback nx ;;; ret tt)
                  (head_under_tx (IndexerPlugin.mk (Some idb) chain) idb nx header)
                  w1)
    by reflexivity.
  rewrite E. clear E.
  assert (F : find_tx nx (txs w1) = Some fresh_tx)
    by (cbn; now rewrite Nat.eqb_refl).
  pose proof (head_under_tx_txs idb chain nx header w1 F) as H. cbn zeta in H.
  unfold defer.
  destruct (head_under_tx (IndexerPlugin.mk (Some idb) chain) idb nx header w1)
    as [o w2].
  cbn [snd] in H. unfold bind, tx_Rollback, ret.
  destruct H as [[T H]|H].
  - assert (G : find_tx nx (txs w2) = Some T).
    { rewrite H. eapply find_set_tx. exact F. }
    rewrite G. cbn. rewrite H. cbn. rewrite Nat.eqb_refl. cbn.
    now rewrite Nat.eqb_refl.
  - assert (G : txs w2 = l) by (rewrite H; cbn; now rewrite Nat.eqb_refl).
    rewrite G, N. cbn. exact G.
Qed.

Lemma OnHead_leaves_no_transaction_open_witness :
  find_tx (next_tx (snd (Beginx (new_world head_store))))
          (txs (snd (Beginx (new_world head_store)))) = None
  /\ txs (snd (OnHead head_plugin (legacy_header 2 "0x02" "0x01")
                 (snd (Beginx (new_world head_store)))))
     = [(0%nat, fresh_tx)].
Proof.
  split; [reflexivity|].
  exact (OnHead_leaves_no_transaction_open head_plugin
           (legacy_header 2 "0x02" "0x01")
           (snd (Beginx (new_world head_store))) eq_refl).
Defined.

(** ** A plugin that was never initialised *)

Lemma derive_block_panic (header : Header.t) (w : World) (pn : panic) :
  fst (derive_block header w) = Panicked pn -> pn = NilPointerDereference.
Proof.
  unfold derive_block.
  destruct (Header.BlobGasUsed header), (Header.ExcessBlobGas header),
    (Header.ParentBeaconRoot header), (Header.WithdrawalsHash header);
    cbn; intros E; inversion E; reflexivity.
Qed.

(** X17.  [NewIndexerPlugin] leaves the chain unset, and the plugin it
    returns stores no head as it is: for every database, header and
    world, [OnHead] on the new plugin leaves the committed tables as they
    were, and it either returns or faults on a nil pointer (an absent
    header field, or the chain it asks for the receipts). *)
Theorem heads_before_OnInit_store_nothing :
  forall (db : option IndexerDB.t) (header : Header.t) (w0 w : World),
    exists p : IndexerPlugin.t,
      fst (NewIndexerPlugin db w0) = Returned p
      /\ committed (snd (OnHead p header w)) = committed w
      /\ (fst (OnHead p header w) = Returned tt
          \/ fst (OnHead p header w) = Panicked NilPointerDereference).
Proof.
  intros [d|] header w0 w; eexists; (split; [reflexivity|]);
    rewrite OnHead_committed, OnHead_outcome;
    (destruct (closed w); [auto|]);
    unfold head_result, head_outcome;
    cbn [IndexerPlugin.db IndexerPlugin.chain]; [|auto].
  destruct (fst (derive_block header (new_world no_rows))) as [b|pn] eqn:D.
  - destruct (exec_result (refused w) (committed w) fresh_tx (InsertBlockQ b)); auto.
  - apply derive_block_panic in D. subst pn. auto.
Qed.

(** ** Finality and the range delete *)

Lemma view_after_delete (A : Type) (eq_dec : forall a b : A, {a = b} + {a <> b})
  (P : A -> bool) (c d i : list A) :
  (minus eq_dec c (delete_committed eq_dec P c d) ++ delete_own P i)%list
  = filter (fun x => negb (P x)) (minus eq_dec c d ++ i).
Proof.
  unfold delete_committed, delete_own.
  now rewrite minus_app, minus_filter, filter_app.
Qed.

Lemma exec_result_sent (rf : Stmt -> bool) (c : Tables) (t : TxState) (q : Stmt) :
  rf q = false -> failed t = false -> check_stmt (view c t) q = None ->
  exec_result rf c t q = None /\ tx_step rf c t q = apply_stmt c t q.
Proof.
  intros R F C. unfold exec_result, tx_step. now rewrite R, F, C.
Qed.

(** What the first four statements of the range delete leave for the
    fifth: nothing of the range in the three tables it checks besides
    the receipts, and the receipts and blocks as they were. *)
Lemma four_deletes_clear (c : Tables) (t : TxState) (n : Z) :
  let t4 := apply_stmt c
              (apply_stmt c
                 (apply_stmt c (apply_stmt c t (DeleteAccessListsQ n))
                    (DeleteStateChangesQ n))
                 (DeleteLogsQ n))
              (DeleteTransactionsQ n) in
  (forall x, In x (transactions (view c t4)) -> Transaction.BlockNumber x < n)
  /\ (forall x, In x (logs (view c t4)) -> Log.BlockNumber x < n)
  /\ (forall x, In x (state_changes (view c t4)) -> StateChange.BlockNumber x < n)
  /\ receipts (view c t4) = receipts (view c t)
  /\ blocks (view c t4) = blocks (view c t).
Proof.
  cbv zeta. repeat split.
  - intros x I. cbn in I. apply delete_leaves_none in I.
    unfold tx_in_range in I. now apply Z.leb_gt in I.
  - intros x I. cbn in I. apply delete_leaves_none in I.
    unfold log_in_range in I. now apply Z.leb_gt in I.
  - intros x I. cbn in I. apply delete_leaves_none in I.
    unfold sc_in_range in I. now apply Z.leb_gt in I.
Qed.

(** The five statements all pass on a transaction that has not failed,
    when the driver sends them and no transaction or receipt row of the
    range is there.  No step looks at a [finalized] flag. *)
Lemma range_delete_sent (rf : Stmt -> bool) (c : Tables) (t : TxState) (n : Z) :
  failed t = false ->
  (forall q, In q (deleteQueries n) -> rf q = false) ->
  range_is_free n (view c t) ->
  queries_result rf c t (deleteQueries n) = None.
Proof.
  intros F S [Ht Hr].
  assert (S1 : rf (DeleteAccessListsQ n) = false) by (apply S; cbn; auto).
  assert (S2 : rf (DeleteStateChangesQ n) = false) by (apply S; cbn; auto).
  assert (S3 : rf (DeleteLogsQ n) = false) by (apply S; cbn; auto).
  assert (S4 : rf (DeleteTransactionsQ n) = false) by (apply S; cbn; auto 6).
  assert (S5 : rf (DeleteBlocksQ n) = false) by (apply S; cbn; auto 7).
  unfold deleteQueries. cbn [queries_result].
  destruct (exec_result_sent rf c t _ S1 F eq_refl) as [-> ->].
  set (t1 := apply_stmt c t (DeleteAccessListsQ n)).
  destruct (exec_result_sent rf c t1 _ S2 (apply_stmt_not_failed _ _ _) eq_refl)
    as [-> ->].
  set (t2 := apply_stmt c t1 (DeleteStateChangesQ n)).
  destruct (exec_result_sent rf c t2 _ S3 (apply_stmt_not_failed _ _ _) eq_refl)
    as [-> ->].
  set (t3 := apply_stmt c t2 (DeleteLogsQ n)).
  assert (C4 : check_stmt (view c t3) (DeleteTransactionsQ n) = None).
  { cbn [check_stmt]. rewrite existsb_nothing; [reflexivity|].
    intros x Hx. specialize (Ht x Hx). unfold tx_in_range.
    replace (n <=? Transaction.BlockNumber x) with false
      by (symmetry; apply Z.leb_gt; lia).
    reflexivity. }
  destruct (exec_result_sent rf c t3 _ S4 (apply_stmt_not_failed _ _ _) C4)
    as [-> ->].
  set (t4 := apply_stmt c t3 (DeleteTransactionsQ n)).
  destruct (four_deletes_clear c t n) as (Kt & Kl & Ks & Kr & _).
  fold t1 t2 t3 t4 in Kt, Kl, Ks, Kr.
  assert (C5 : check_stmt (view c t4) (DeleteBlocksQ n) = None).
  { cbn [check_stmt]. rewrite existsb_nothing; [reflexivity|].
    intros b Hb. unfold block_in_range.
    destruct (n <=? Block.Number (row b)) eqn:R; [|reflexivity].
    apply Z.leb_le in R. cbn [andb]. unfold references_block.
    rewrite (existsb_nothing _ _ (transactions (view c t4)))
      by (intros x Hx; specialize (Kt x Hx); apply Z.eqb_neq; lia).
    rewrite (existsb_nothing _ _ (logs (view c t4)))
      by (intros x Hx; specialize (Kl x Hx); apply Z.eqb_neq; lia).
    rewrite (existsb_nothing _ _ (state_changes (view c t4)))
      by (intros x Hx; specialize (Ks x Hx); apply Z.eqb_neq; lia).
    rewrite (existsb_nothing _ _ (receipts (view c t4)))
      by (intros x Hx; rewrite Kr in Hx; specialize (Hr x Hx);
          apply Z.eqb_neq; lia).
    reflexivity. }
  now destruct (exec_result_sent rf c t4 _ S5 (apply_stmt_not_failed _ _ _) C5)
    as [-> _].
Qed.

(** The blocks a transaction sees after the five statements are those it
    saw before that are numbered below the range. *)
Lemma blocks_after_range_delete (c : Tables) (t : TxState) (n : Z) :
  blocks (view c (fold_left (apply_stmt c) (deleteQueries n) t))
  = filter (fun b => negb (block_in_range n b)) (blocks (view c t)).
Proof.
  unfold deleteQueries. cbn [fold_left]. cbn. apply view_after_delete.
Qed.

Lemma transactions_after_range_delete (c : Tables) (t : TxState) (n : Z) :
  transactions (view c (fold_left (apply_stmt c) (deleteQueries n) t))
  = filter (fun x => negb (tx_in_range n x)) (transactions (view c t)).
Proof.
  unfold deleteQueries. cbn [fold_left]. cbn. apply view_after_delete.
Qed.

Lemma minus_app_filter (A : Type) (eq_dec : forall a b : A, {a = b} + {a <> b})
  (P : A -> bool) (m a : list A) :
  minus eq_dec (m ++ a) (filter P m)
  = (filter (fun x => negb (P x)) m ++ a)%list.
Proof.
  induction m as [|y r IH]; [reflexivity|]. cbn [app filter].
  destruct (P y) eqn:Py; cbn [negb].
  - unfold minus in *. cbn. destruct (eq_dec y y); [exact IH|contradiction].
  - rewrite (minus_cons_kept _ eq_dec P) by (auto using filter_all).
    cbn. now rewrite IH.
Qed.

Lemma filter_filter (A : Type) (f g : A -> bool) (l : list A) :
  filter f (filter g l) = filter (fun x => g x && f x) l.
Proof.
  induction l as [|a r IH]; [reflexivity|]. cbn.
  destruct (g a); cbn; [destruct (f a)|]; now rewrite IH.
Qed.

Lemma find_set_tx_none (id k : nat) (t : TxState) (l : list (nat * TxState)) :
  find_tx id l = None -> find_tx id (set_tx k t l) = None.
Proof.
  induction l as [|[k' u] r IH]; cbn; [auto|].
  destruct (Nat.eqb k' id) eqn:E; [discriminate|]. intros H.
  destruct (Nat.eqb k' k); cbn; rewrite E; auto.
Qed.

Lemma below_all_app (done : list Z) (n : Z) (b : BlockRow) :
  below_all (done ++ [n])%list b = below_all done b && negb (block_in_range n b).
Proof.
  unfold below_all, block_in_range. rewrite forallb_app. cbn.
  rewrite andb_true_r. f_equal. apply Z.ltb_antisym.
Qed.

(** One range delete of the reorg's transaction: it passes, and the
    transaction stays as the next delete and the commit need it. *)
Lemma reorg_step (rf : Stmt -> bool) (c : Tables) (t : TxState) (done : list Z)
  (n : Z) :
  reorg_inv c t done ->
  (forall q, In q (deleteQueries n) -> rf q = false) ->
  range_is_free n c ->
  queries_result rf c t (deleteQueries n) = None
  /\ reorg_inv c (fold_left (apply_stmt c) (deleteQueries n) t) (done ++ [n])%list.
Proof.
  intros (F & Hi & Hr & Hsub & Happ & Hbl) S [Ft Fr].
  assert (Free : range_is_free n (view c t)).
  { split.
    - intros x Hx. apply Ft, Hsub, Hx.
    - intros r Hx. apply Fr. unfold view in Hx. cbn [receipts tables_plus
        tables_minus] in Hx. rewrite Hr, Hi in Hx. cbn in Hx.
      now rewrite app_nil_r in Hx. }
  split; [now apply range_delete_sent|].
  unfold reorg_inv. split; [reflexivity|].
  split.
  { unfold deleteQueries. cbn [fold_left]. cbn. now rewrite Hi. }
  split; [exact Hr|]. split.
  { intros x Hx. apply Hsub. rewrite transactions_after_range_delete in Hx.
    now apply filter_In in Hx. }
  assert (D : blocks (deleted (fold_left (apply_stmt c) (deleteQueries n) t))
              = delete_committed BlockRow_eq_dec (block_in_range n) (blocks c)
                                 (blocks (deleted t))) by reflexivity.
  rewrite D. unfold delete_committed. split.
  - intros a. rewrite !minus_app, Happ, minus_app_filter, minus_filter.
    reflexivity.
  - rewrite minus_app, minus_filter, Hbl, filter_filter.
    apply filter_ext. intros b. symmetry. apply below_all_app.
Qed.

Lemma filter_always (A : Type) (f : A -> bool) (l : list A) :
  (forall x, f x = true) -> filter f l = l.
Proof.
  intros H. induction l as [|a r IH]; [reflexivity|]. cbn.
  now rewrite H, IH.
Qed.

Lemma reorg_inv_fresh (c : Tables) : reorg_inv c fresh_tx [].
Proof.
  unfold reorg_inv, fresh_tx. cbn. repeat split; auto.
  - intros x Hx. now rewrite app_nil_r in Hx.
  - symmetry. now apply filter_always.
Qed.

(** The first loop of [OnReorg] on a store whose ranges are free: every
    delete passes. *)
Lemma delete_old_run (idb : IndexerDB.t) (tx : nat) (hs : list Header.t) :
  forall (w : World) (t : TxState) (done : list Z),
    find_tx tx (txs w) = Some t ->
    reorg_inv (committed w) t done ->
    (forall n q, In q (deleteQueries n) -> refused w q = false) ->
    Forall (fun h => range_is_free (Uint64 (Header.Number h)) (committed w)) hs ->
    exists T evs,
      delete_old idb tx hs w = (Returned true, with_tx w tx T evs)
      /\ reorg_inv (committed w) T (done ++ old_numbers hs)%list.
Proof.
  induction hs as [|h rest IH]; intros w t done F I S Fr.
  - exists t, []. cbn. unfold ret. rewrite (with_tx_nil w tx t F), app_nil_r.
    now split.
  - inversion Fr as [|? ? Fh Frest]; subst.
    destruct (reorg_step (refused w) (committed w) t done _ I (S _) Fh) as [Q I1].
    cbn [delete_old]. unfold bind at 1. unfold DeleteBlockAndDescendantsWithTx.
    destruct (exec_queries_run tx (deleteQueries (Uint64 (Header.Number h))) w t F)
      as [evs ->].
    rewrite Q. cbn [wrap]. rewrite (queries_state_accepted _ _ _ _ Q).
    set (T1 := fold_left (apply_stmt (committed w)) _ t) in *.
    destruct (IH (with_tx w tx T1 evs) T1 (done ++ [Uint64 (Header.Number h)])%list
                (find_with_tx w tx T1 t evs F) I1 S Frest)
      as (T & evs' & E & I2).
    rewrite E, with_tx_twice. exists T, (evs ++ evs')%list. split; [reflexivity|].
    cbn [old_numbers map]. now rewrite <- app_assoc in I2.
Qed.

(** What [OnHead] does to the registry of open transactions on a pool
    whose unissued handles are free: nothing, and they stay free. *)
Lemma OnHead_registry (p : IndexerPlugin.t) (header : Header.t) (w : World) :
  registry_fresh w ->
  txs (snd (OnHead p header w)) = txs w
  /\ registry_fresh (snd (OnHead p header w)).
Proof.
  intros R.
  assert (T : txs (snd (OnHead p header w)) = txs w).
  { destruct p as [[idb|] chain]; [|reflexivity].
    pose proof (R (next_tx w) (Nat.le_refl _)) as N.
    destruct w as [rf c l nx cl ev]. cbn [next_tx txs] in N.
    destruct cl; [reflexivity|].
    set (w1 := mkWorld rf c ((nx, fresh_tx) :: l) (S nx) false
                 ((ev ++ [EvLog LvlInfo "Indexer processing new head block"])
                    ++ [EvBegin (inr nx)])).
    assert (E : OnHead (IndexerPlugin.mk (Some idb) chain) header
                  (mkWorld rf c l nx false ev)
                = defer (tx_Rollback nx ;;; ret tt)
                    (head_under_tx (IndexerPlugin.mk (Some idb) chain) idb nx header)
                    w1)
      by reflexivity.
    rewrite E. clear E.
    assert (F : find_tx nx (txs w1) = Some fresh_tx)
      by (cbn; now rewrite Nat.eqb_refl).
    pose proof (head_under_tx_txs idb chain nx header w1 F) as H. cbn zeta in H.
    unfold defer.
    destruct (head_under_tx (IndexerPlugin.mk (Some idb) chain) idb nx header w1)
      as [o w2].
    cbn [snd] in H. unfold bind, tx_Rollback, ret.
    destruct H as [[T H]|H].
    - assert (G : find_tx nx (txs w2) = Some T).
      { rewrite H. eapply find_set_tx. exact F. }
      rewrite G. cbn. rewrite H. cbn. rewrite Nat.eqb_refl. cbn.
      now rewrite Nat.eqb_refl.
    - assert (G : txs w2 = l) by (rewrite H; cbn; now rewrite Nat.eqb_refl).
      rewrite G, N. cbn. exact G. }
  split; [exact T|].
  intros id L. rewrite T. apply R.
  destruct p as [[idb|] chain]; [|exact L].
  destruct (closed w) eqn:C.
  - destruct w as [rf c l nx cl ev]. cbn in C. subst cl. exact L.
  - destruct (OnHead_open idb chain header w C) as (_ & _ & _ & _ & X).
    rewrite X in L. lia.
Qed.

(** The blocks [OnHead] commits are the blocks from before and at most
    the head's own row, which is not finalized. *)
Lemma head_result_blocks (rf : Stmt -> bool) (p : IndexerPlugin.t)
  (header : Header.t) (c : Tables) :
  exists bs,
    blocks (head_result rf p header c) = (blocks c ++ bs)%list
    /\ Forall (fun b => finalized b = false) bs.
Proof.
  destruct (head_result_cases rf p header c)
    as [->|(chain & block & Hc & Hb & Ho & Ha & Hf & ->)].
  { exists []. now rewrite app_nil_r. }
  destruct (receipts_steps_grows rf c header
              (range_of (GetReceiptsByHash chain (Header.hash header))) 0
              (tx_step rf c fresh_tx (InsertBlockQ block)))
    as (ls & rs & D & I).
  exists [mkBlockRow block false]. split; [|now repeat constructor].
  unfold view. rewrite D, I, (insert_block_accepted _ _ _ Ha).
  cbn [deleted inserted]. now rewrite tables_minus_none.
Qed.

(** One head of the reorg's second loop, on a plugin with its chain. *)
Lemma OnHead_in_reorg (idb : IndexerDB.t) (ch : BlockChain) (header : Header.t)
  (w : World) :
  let p := IndexerPlugin.mk (Some idb) (Some ch) in
  closed w = false ->
  registry_fresh w ->
  carries_optional_fields header = true ->
  fst (OnHead p header w) = Returned tt
  /\ txs (snd (OnHead p header w)) = txs w
  /\ closed (snd (OnHead p header w)) = false
  /\ registry_fresh (snd (OnHead p header w))
  /\ exists bs,
      blocks (committed (snd (OnHead p header w)))
      = (blocks (committed w) ++ bs)%list
      /\ Forall (fun b => finalized b = false) bs.
Proof.
  intros p C R F.
  destruct (OnHead_open idb (Some ch) header w C) as (O & M & Cl & _ & _).
  destruct (OnHead_registry p header w R) as [T R'].
  fold p in O, M, Cl.
  split; [|split; [exact T|split; [exact Cl|split; [exact R'|]]]].
  - rewrite O. unfold head_outcome. cbn [IndexerPlugin.db IndexerPlugin.chain p].
    destruct (derive_block_returns header (new_world no_rows) F) as [b ->].
    now destruct (exec_result _ _ _ _).
  - rewrite M. apply head_result_blocks.
Qed.

(** The second loop of [OnReorg]: every head returns, the registry is
    left alone, and the committed blocks only grow, by rows that are not
    finalized. *)
Lemma insert_new_run (idb : IndexerDB.t) (ch : BlockChain) (hs : list Header.t) :
  let p := IndexerPlugin.mk (Some idb) (Some ch) in
  forall w : World,
    closed w = false ->
    registry_fresh w ->
    Forall (fun h => carries_optional_fields h = true) hs ->
    fst (insert_new p hs w) = Returned tt
    /\ txs (snd (insert_new p hs w)) = txs w
    /\ closed (snd (insert_new p hs w)) = false
    /\ exists bs,
        blocks (committed (snd (insert_new p hs w)))
        = (blocks (committed w) ++ bs)%list
        /\ Forall (fun b => finalized b = false) bs.
Proof.
  intros p. induction hs as [|h rest IH]; intros w C R F.
  - cbn. repeat split; [exact C|]. exists []. now rewrite app_nil_r.
  - inversion F as [|? ? Fh Frest]; subst.
    destruct (OnHead_in_reorg idb ch h w C R Fh) as (O & T & C1 & R1 & bs & B & U).
    fold p in O, T, C1, R1, B.
    cbn [insert_new]. unfold bind.
    destruct (OnHead p h w) as [o w1]. cbn [fst snd] in *. subst o.
    destruct (IH w1 C1 R1 Frest) as (O2 & T2 & C2 & bs2 & B2 & U2).
    split; [exact O2|]. split; [now rewrite T2|]. split; [exact C2|].
    exists (bs ++ bs2)%list. split.
    + now rewrite B2, B, app_assoc.
    + apply Forall_app. now split.
Qed.

(** [OnReorg] on an open pool, for a plugin with its chain: when the
    ranges of the old headers are free and the new headers carry their
    optional fields, it returns, and the blocks committed afterwards are
    the stored blocks numbered below every old header, followed by what
    the new heads added. *)
Lemma OnReorg_commits_the_removal (idb : IndexerDB.t) (ch : BlockChain)
  (o : Header.t) (os : list Header.t) (n : Header.t) (ns : list Header.t)
  (w : World) :
  let p := IndexerPlugin.mk (Some idb) (Some ch) in
  closed w = false ->
  registry_fresh w ->
  (forall m q, In q (deleteQueries m) -> refused w q = false) ->
  Forall (fun h => range_is_free (Uint64 (Header.Number h)) (committed w)) (o :: os) ->
  Forall (fun h => carries_optional_fields h = true) (n :: ns) ->
  fst (OnReorg p (o :: os) (n :: ns) w) = Returned tt
  /\ exists added,
      blocks (committed (snd (OnReorg p (o :: os) (n :: ns) w)))
      = (filter (below_all (old_numbers (o :: os))) (blocks (committed w)) ++ added)%list
      /\ Forall (fun b => finalized b = false) added.
Proof.
  intros p C R Sd Fr Fc.
  destruct w as [rf c l nx cl ev]. cbn in C. subst cl.
  cbn [refused committed] in Sd, Fr.
  set (w1 := mkWorld rf c ((nx, fresh_tx) :: l) (S nx) false
               ((ev ++ [EvLog LvlInfo "Indexer handling chain reorg"])
                  ++ [EvBegin (inr nx)])).
  set (body :=
         deleted_all <- delete_old idb nx (o :: os) ;;
         if deleted_all
         then
           insert_new p (n :: ns) ;;;
           cerr <- tx_Commit nx ;;
           match cerr with
           | Some _ => log_Error "Failed to commit reorg transaction"
           | None => ret tt
           end
         else ret tt).
  assert (E : OnReorg p (o :: os) (n :: ns) (mkWorld rf c l nx false ev)
              = defer (tx_Rollback nx ;;; ret tt) body w1) by reflexivity.
  rewrite E. cbn [committed].
  destruct (defer_rollback unit body nx w1) as (D1 & D2 & _).
  rewrite D1, D2. clear D1 D2 E.
  assert (F : find_tx nx (txs w1) = Some fresh_tx)
    by (cbn; now rewrite Nat.eqb_refl).
  assert (B : exists added w3,
             body w1 = (Returned tt, w3)
             /\ blocks (committed w3)
                = (filter (below_all (old_numbers (o :: os))) (blocks c) ++ added)%list
             /\ Forall (fun b => finalized b = false) added).
  { unfold body, bind at 1.
    destruct (delete_old_run idb nx (o :: os) w1 fresh_tx [] F
                (reorg_inv_fresh c) Sd Fr) as (T & evs & -> & I).
    cbn [app] in I. destruct I as (FT & Hi & _ & _ & Happ & Hbl).
    set (w2 := with_tx w1 nx T evs).
    assert (R2 : registry_fresh w2).
    { intros id L. cbn in L. cbn [txs w2 with_tx w1].
      apply find_set_tx_none. cbn.
      destruct (Nat.eqb nx id) eqn:Q; [apply Nat.eqb_eq in Q; lia|].
      apply R. cbn. lia. }
    destruct (insert_new_run idb ch (n :: ns) w2 eq_refl R2 Fc)
      as (O3 & T3 & C3 & bs & B3 & U3).
    fold p in O3, T3, C3, B3.
    unfold bind at 1.
    destruct (insert_new p (n :: ns) w2) as [o3 w3]. cbn [fst snd] in *. subst o3.
    assert (F3 : find_tx nx (txs w3) = Some T).
    { rewrite T3. unfold w2. eapply find_with_tx. exact F. }
    unfold bind, tx_Commit, ret. rewrite F3, FT. cbn.
    exists bs. eexists. split; [reflexivity|]. split; [|exact U3].
    cbn. rewrite B3, Hi. cbn. rewrite Happ, Hbl. now rewrite app_nil_r. }
  destruct B as (added & w3 & -> & B & U). cbn [fst snd].
  split; [reflexivity|]. exists added. now split.
Qed.

(** C2, as the code has it.  Neither the range delete nor [OnReorg]
    looks at the [finalized] flag, and no FinalizedBlockProtected error
    exists.  In a transaction that has not failed, for a number below
    2^63, when the driver sends the five statements and no transaction or
    receipt row of the range is there, [DeleteBlockAndDescendantsWithTx]
    returns nil and the transaction sees exactly the blocks numbered
    below [fromNumber] that it saw before: every block of the range is
    gone, the finalized ones with the others.  [OnReorg] on such a store,
    with an open pool, a plugin that has its chain, and new headers that
    carry their optional fields and take no key of a stored block,
    returns and commits the removal: the blocks afterwards are the stored
    blocks numbered below every old header, followed by rows of the new
    heads that are not finalized, so every finalized block at or above an
    old header's number is gone. *)
Theorem range_delete_ignores_finality :
  (forall (idb : IndexerDB.t) (tx : nat) (fromNumber : Z) (w : World) (t : TxState),
      find_tx tx (txs w) = Some t ->
      failed t = false ->
      fromNumber < 2 ^ 63 ->
      (forall q, In q (deleteQueries fromNumber) -> refused w q = false) ->
      range_is_free fromNumber (view (committed w) t) ->
      let w' := snd (DeleteBlockAndDescendantsWithTx idb tx fromNumber w) in
      fst (DeleteBlockAndDescendantsWithTx idb tx fromNumber w) = Returned None
      /\ committed w' = committed w
      /\ exists t',
          find_tx tx (txs w') = Some t' /\ failed t' = false
          /\ blocks (view (committed w) t')
             = filter (fun b => negb (block_in_range fromNumber b))
                      (blocks (view (committed w) t))
          /\ forall b, In b (blocks (view (committed w) t)) ->
                       finalized b = true ->
                       fromNumber <= Block.Number (row b) ->
                       ~ In b (blocks (view (committed w) t')))
  /\ (forall (idb : IndexerDB.t) (ch : BlockChain)
             (o : Header.t) (os : list Header.t)
             (n : Header.t) (ns : list Header.t) (w : World),
         let p := IndexerPlugin.mk (Some idb) (Some ch) in
         let w' := snd (OnReorg p (o :: os) (n :: ns) w) in
         closed w = false ->
         registry_fresh w ->
         Forall (fun h => Uint64 (Header.Number h) < 2 ^ 63) (o :: os) ->
         (forall m q, In q (deleteQueries m) -> refused w q = false) ->
         Forall (fun h => range_is_free (Uint64 (Header.Number h)) (committed w))
                (o :: os) ->
         Forall (fun h => carries_optional_fields h = true) (n :: ns) ->
         Forall (takes_no_stored_key (committed w)) (n :: ns) ->
         fst (OnReorg p (o :: os) (n :: ns) w) = Returned tt
         /\ (exists added,
                blocks (committed w')
                = (filter (below_all (old_numbers (o :: os))) (blocks (committed w))
                   ++ added)%list
                /\ Forall (fun b => finalized b = false) added)
         /\ forall b, In b (blocks (committed w)) ->
                      finalized b = true ->
                      (exists h, In h (o :: os)
                                 /\ Uint64 (Header.Number h) <= Block.Number (row b)) ->
                      ~ In b (blocks (committed w'))).
Proof.
  split.
  - intros idb tx n w t F FT _ S Free. cbv zeta.
    pose proof (range_delete_sent (refused w) (committed w) t n FT S Free) as Q.
    unfold DeleteBlockAndDescendantsWithTx.
    destruct (exec_queries_run tx (deleteQueries n) w t F) as [evs ->].
    cbn [fst snd committed with_tx]. rewrite Q.
    split; [reflexivity|]. split; [reflexivity|].
    rewrite (queries_state_accepted _ _ _ _ Q).
    exists (fold_left (apply_stmt (committed w)) (deleteQueries n) t).
    split; [eapply find_set_tx; exact F|]. split; [reflexivity|].
    split; [apply blocks_after_range_delete|].
    intros b _ _ L I. rewrite blocks_after_range_delete in I.
    apply filter_In in I as [_ I]. unfold block_in_range in I.
    apply negb_true_iff, Z.leb_gt in I. lia.
  - intros idb ch o os n ns w p w' C R _ S Fr Fc _.
    destruct (OnReorg_commits_the_removal idb ch o os n ns w C R S Fr Fc)
      as (O & added & B & U).
    fold p in O, B. fold w' in B.
    split; [exact O|]. split; [exists added; now split|].
    intros b _ Fin (h & Ih & L) I. rewrite B in I.
    apply in_app_or in I as [I|I].
    + apply filter_In in I as [_ I]. unfold below_all in I.
      rewrite forallb_forall in I.
      specialize (I (Uint64 (Header.Number h))
                    (in_map (fun h => Uint64 (Header.Number h)) _ _ Ih)).
      apply Z.ltb_lt in I. lia.
    + rewrite Forall_forall in U. rewrite (U b I) in Fin. discriminate.
Qed.

(** The theorem at work on the store whose block 5 is finalized: the
    range delete from 5 returns nil, and the reorg of old block 5 to a
    new block 6 returns and leaves no finalized block 5. *)
Lemma range_delete_ignores_finality_witness :
  fst (DeleteBlockAndDescendantsWithTx idb0 0 5
         (snd (Beginx (new_world finalized_store)))) = Returned None
  /\ fst (OnReorg reorg_plugin [full_header 5 "0x05" "0x04"]
            [full_header 6 "0x06b" "0x05b"] (new_world finalized_store))
     = Returned tt
  /\ ~ In (stored 5 "0x05" "0x04" true)
          (blocks (committed (snd (OnReorg reorg_plugin [full_header 5 "0x05" "0x04"]
                                     [full_header 6 "0x06b" "0x05b"]
                                     (new_world finalized_store))))).
Proof.
  destruct range_delete_ignores_finality as [A B].
  split.
  - refine (proj1 (A idb0 0%nat 5 (snd (Beginx (new_world finalized_store)))
                     fresh_tx eq_refl eq_refl eq_refl (fun q _ => eq_refl) _)).
    split; intros x [].
  - assert (Fb : Forall (fun h => Uint64 (Header.Number h) < 2 ^ 63)
                        [full_header 5 "0x05" "0x04"]).
    { constructor; [reflexivity|constructor]. }
    assert (Fr : Forall (fun h => range_is_free (Uint64 (Header.Number h))
                                    (committed (new_world finalized_store)))
                        [full_header 5 "0x05" "0x04"]).
    { constructor; [split; intros x []|constructor]. }
    assert (Fc : Forall (fun h => carries_optional_fields h = true)
                        [full_header 6 "0x06b" "0x05b"]).
    { constructor; [reflexivity|constructor]. }
    assert (Fk : Forall (takes_no_stored_key (committed (new_world finalized_store)))
                        [full_header 6 "0x06b" "0x05b"]).
    { constructor; [split; reflexivity|constructor]. }
    destruct (B idb0 reorg_chain (full_header 5 "0x05" "0x04") []
                (full_header 6 "0x06b" "0x05b") [] (new_world finalized_store)
                eq_refl (fun id _ => eq_refl) Fb (fun m q _ => eq_refl) Fr Fc Fk)
      as (O & _ & G).
    split; [exact O|].
    apply G; [cbn; auto|reflexivity|].
    exists (full_header 5 "0x05" "0x04"). split; [now left|].
    vm_compute. discriminate.
Defined.
